(** * pdf-merger-bot: a shallow embedding of its scripts

    The repository holds independent Python scripts; three of them carry
    the behaviour specified here:
    - [merge_pdfs.py]     (module [MergePdfs]),
    - [pdf-reader-bot.py] (module [PdfReaderBot]),
    - [pdf_annotator.py]  (module [PdfAnnotator]).

    Conventions of the embedding:
    - a Python [str] is a [string], one [ascii] per character (the Latin-1
      repertoire; [isspace] and [lower] are those of Python on it);
    - a Python [int] is a [Z]; a Python [float] is a binary64 [float]
      (the kernel's primitive floats), and [/] raises on a zero divisor;
    - [print] appends one line to a [stdout] log;
    - a raised exception is an explicit result, never a missing case;
    - what a third-party library or the user does (PyPDF2, pdfplumber,
      pyttsx3, langdetect, PyMuPDF, Tk dialogs) is an argument, a field of
      an environment record or a Section variable: the scripts only
      orchestrate those calls.

    The definitions come first (Part I), the theorems after (Part II). *)

From Stdlib Require Import ZArith String Ascii List Sorting Permutation Lia.
From Stdlib Require Import Floats.
From Stdlib Require DecimalString.
From stdpp Require Import base option list strings gmap.

Import ListNotations.
Local Open Scope string_scope.
Local Open Scope list_scope.

(** * Part I: the programs *)

(** ** Python built-ins shared by the scripts *)

Module Py.

(** Truth value of a [str]: empty is false. *)
Definition truthy (s : string) : bool :=
match s with EmptyString => false | String _ _ => true end.

(** [s.endswith(suffix)] *)
Definition endswith (s suffix : string) : bool :=
let n := String.length s in
let k := String.length suffix in
if (k <=? n)%nat then String.eqb (substring (n - k) k s) suffix else false.

(** [needle in hay] *)
Fixpoint contains (needle hay : string) : bool :=
String.prefix needle hay
|| match hay with
   | EmptyString => false
   | String _ rest => contains needle rest
   end.

(** [str(n)] for an [int], as an f-string shows it *)
Definition str_of_int (n : Z) : string :=
DecimalString.NilZero.string_of_int (Z.to_int n).

(** [c.isspace()]: the white space of [str.split()] and [str.strip()] *)
Definition isspace (c : ascii) : bool :=
let n := N_of_ascii c in
((9 <=? n) && (n <=? 13) || (28 <=? n) && (n <=? 32)
 || (n =? 133) || (n =? 160))%N.

(** [c.lower()] *)
Definition lower_char (c : ascii) : ascii :=
let n := N_of_ascii c in
if ((65 <=? n) && (n <=? 90)
    || (192 <=? n) && (n <=? 222) && negb (n =? 215))%N
then ascii_of_N (n + 32) else c.

(** [s.lower()] *)
Fixpoint lower (s : string) : string :=
match s with
| EmptyString => EmptyString
| String c s' => String (lower_char c) (lower s')
end.

(** [s.split()]: the maximal runs of characters that are not white space;
    [word] is the run being read. *)
Fixpoint split_from (word s : string) : list string :=
match s with
| EmptyString => if truthy word then [word] else []
| String c s' =>
    if isspace c
    then (if truthy word then word :: split_from EmptyString s'
          else split_from EmptyString s')
    else split_from (word +:+ String c EmptyString) s'
end.

Definition split (s : string) : list string := split_from EmptyString s.

(** [sep.join(parts)] *)
Definition join (sep : string) (parts : list string) : string :=
String.concat sep parts.

(** Every character of [s] is white space (so is the empty string). *)
Fixpoint blank (s : string) : bool :=
match s with
| EmptyString => true
| String c s' => isspace c && blank s'
end.

(** No character of [s] is white space. *)
Fixpoint no_space (s : string) : bool :=
match s with
| EmptyString => true
| String c s' => negb (isspace c) && no_space s'
end.

(** What [split] yields: a word has a character and no white space. *)
Definition is_word (w : string) : bool := truthy w && no_space w.

Fixpoint lstrip (s : string) : string :=
match s with
| EmptyString => EmptyString
| String c s' => if isspace c then lstrip s' else s
end.

Definition rev_string (s : string) : string :=
string_of_list_ascii (List.rev (list_ascii_of_string s)).

(** [s.strip()] *)
Definition strip (s : string) : string :=
rev_string (lstrip (rev_string (lstrip s))).

(** [x / y] on floats: [None] is ZeroDivisionError. *)
Definition truediv (x y : float) : option float :=
if PrimFloat.eqb y 0%float then None else Some (PrimFloat.div x y).

(** [min(x, y)] and [max(x, y)] on floats: the first argument unless the
    second is smaller, respectively larger. *)
Definition min (x y : float) : float := if PrimFloat.ltb y x then y else x.

Definition max (x y : float) : float := if PrimFloat.ltb x y then y else x.

(** A position on a Tk canvas, as [canvasx] and [canvasy] return them: a
    pixel position moved by the scroll offset, so never NaN and never the
    negative zero. *)
Definition coordinate (x : float) : bool :=
match PrimFloat.classify x with
| NaN | NZero => false
| _ => true
end.

(** [sorted(xs)], which compares with [<] only and is stable: the result
    is grown from the left and each element goes behind its equals. *)
Fixpoint insort {A : Type} (lt : A -> A -> bool) (x : A) (l : list A)
  : list A :=
match l with
| [] => [x]
| y :: l' => if lt x y then x :: y :: l' else y :: insort lt x l'
end.

Definition sorted {A : Type} (lt : A -> A -> bool) (l : list A) : list A :=
fold_left (fun acc x => insort lt x acc) l [].

(** [not (y < x)]: the order a sorted list shows between neighbours *)
Definition nondecreasing {A : Type} (lt : A -> A -> bool) (x y : A) : Prop :=
lt y x = false.

Definition nl : string := String "010"%char EmptyString.

End Py.

(** ** merge_pdfs.py *)

Module MergePdfs.

Section Merger.

(** A page object of PyPDF2; the script never looks inside one. *)
Context {page : Type}.

(** [INPUT_DIR] and [OUTPUT_DIR], as [str(...)] shows them. *)
Variables INPUT_DIR OUTPUT_DIR : string.

(** What [PdfMerger.append] finds when it opens a path: a document it can
    parse, or something it raises on (a damaged file, a directory, a file
    it may not read). *)
Inductive target : Type :=
| Pdf (pages : list page)
| Unreadable.

(** An entry of [INPUT_DIR]: its file name and what it opens as.  The
    contents of a directory are its entries in the order the OS lists
    them. *)
Record path : Type := { name : string; opens_as : target }.

Definition page_count (p : path) : nat :=
match opens_as p with Pdf pages => length pages | Unreadable => 0 end.

Definition pages_of (p : path) : list page :=
match opens_as p with Pdf pages => pages | Unreadable => [] end.

Definition readable (p : path) : Prop :=
match opens_as p with Pdf _ => True | Unreadable => False end.

(** What the script does to the outside world, in order. *)
Inductive effect : Type :=
| Print (line : string)
| Mkdir (dir : string)
| Write (file : string) (doc : list page)
| Close.

Inductive result : Type := Returned | Raised.

(** The files written, in order, with their documents. *)
Fixpoint writes (tr : list effect) : list (string * list page) :=
match tr with
| [] => []
| Write f d :: tr' => (f, d) :: writes tr'
| _ :: tr' => writes tr'
end.

Fixpoint stdout (tr : list effect) : list string :=
match tr with
| [] => []
| Print s :: tr' => s :: stdout tr'
| _ :: tr' => stdout tr'
end.

(** [INPUT_DIR.glob("*.pdf")], names compared as on a POSIX system *)
Definition glob_pdf (dir : list path) : list path :=
List.filter (fun p => Py.endswith (name p) ".pdf") dir.

(** [Path.__lt__] between entries of one directory *)
Definition path_lt (p q : path) : bool := String.ltb (name p) (name q).

(** [name p <= name q], character by character *)
Definition name_le (p q : path) : Prop := String.leb (name p) (name q) = true.

(** The [for] loop of lines 25-27, with the pages the merger holds so far;
    [None] is the exception [append] raised. *)
Fixpoint append_loop (files : list path) (tr : list effect)
         (merger : list page) : list effect * option (list page) :=
match files with
| [] => (tr, Some merger)
| pdf_path :: rest =>
    let tr := tr ++ [Print ("  - " +:+ name pdf_path)] in
    match opens_as pdf_path with
    | Pdf pages => append_loop rest tr (merger ++ pages)
    | Unreadable => (tr, None)
    end
end.

Definition merge_pdfs (output_name : string) (dir : list path)
  : list effect * result :=
let pdf_files := Py.sorted path_lt (glob_pdf dir) in
match pdf_files with
| [] => ([Print ("No PDF files found in " +:+ INPUT_DIR)], Returned)
| _ :: _ =>
    let tr := [Mkdir OUTPUT_DIR; Print "Merging PDFs in this order:"] in
    match append_loop pdf_files tr [] with
    | (tr, Some merged) =>
        let output_path := OUTPUT_DIR +:+ "/" +:+ output_name in
        (tr ++ [Write output_path merged;
                Print (Py.nl +:+ "Done! Merged file saved as: "
                       +:+ output_path);
                Close],
         Returned)
    | (tr, None) => (tr ++ [Close], Raised)
    end
end.

(** The files the loop gets to: all of them up to the first one that
    cannot be read, that one included. *)
Fixpoint upto_unreadable (files : list path) : list path :=
match files with
| [] => []
| f :: rest =>
    match opens_as f with
    | Pdf _ => f :: upto_unreadable rest
    | Unreadable => [f]
    end
end.

(** The line the loop prints for a file. *)
Definition listed (f : path) : effect := Print ("  - " +:+ name f).

End Merger.

Arguments target : clear implicits.
Arguments path : clear implicits.
Arguments effect : clear implicits.

(** *** Sample directories

    Two documents and a text file, with numbers for pages; and a
    directory whose only PDF is damaged. *)

Definition sample_dir : list (path nat) :=
[ {| name := "b.pdf"; opens_as := Pdf [20; 21] |};
  {| name := "notes.txt"; opens_as := Unreadable |};
  {| name := "a.pdf"; opens_as := Pdf [10] |} ].

Definition damaged_dir : list (path nat) :=
[ {| name := "a.pdf"; opens_as := Unreadable |} ].

(** A damaged file between two documents, listed last to first. *)
Definition mixed_dir : list (path nat) :=
[ {| name := "c.pdf"; opens_as := Pdf [30] |};
  {| name := "b.pdf"; opens_as := Unreadable |};
  {| name := "a.pdf"; opens_as := Pdf [10] |} ].

End MergePdfs.

(** ** pdf-reader-bot.py *)

Module PdfReaderBot.

(** *** The speech engine of pyttsx3

    An engine queues its commands; [runAndWait] carries them out in
    order, and an utterance is spoken with the voice then in effect. *)

(** An installed voice: [v.id] and [getattr(v, "name", "")]. *)
Record voice : Type := { v_id : string; v_name : string }.

Inductive command : Type :=
| SetRate (r : Z)
| SetVoice (voice_id : string)
| Say (text : string).

Record engine : Type := {
  voices : list voice;                (* getProperty("voices") *)
  rate : Z;                           (* getProperty("rate") *)
  current_voice : string;             (* the voice the driver speaks with *)
  queue : list command;
  spoken : list (string * string)     (* what was uttered: voice id, text *)
}.

(** What a driver starts with: the installed voices, its speaking rate
    and the voice it speaks with until another one is set. *)
Record driver : Type := {
  installed : list voice;
  default_rate : Z;
  default_voice : string
}.

(** The engine [pyttsx3.init] hands out: nothing queued, nothing said. *)
Definition fresh (d : driver) : engine :=
{| voices := installed d; rate := default_rate d;
   current_voice := default_voice d; queue := []; spoken := [] |}.

Definition push (c : command) (e : engine) : engine :=
{| voices := voices e; rate := rate e; current_voice := current_voice e;
   queue := queue e ++ [c]; spoken := spoken e |}.

Definition run_command (e : engine) (c : command) : engine :=
match c with
| SetRate r =>
    {| voices := voices e; rate := r; current_voice := current_voice e;
       queue := queue e; spoken := spoken e |}
| SetVoice v =>
    {| voices := voices e; rate := rate e; current_voice := v;
       queue := queue e; spoken := spoken e |}
| Say t =>
    {| voices := voices e; rate := rate e; current_voice := current_voice e;
       queue := queue e; spoken := spoken e ++ [(current_voice e, t)] |}
end.

Definition runAndWait (e : engine) : engine :=
fold_left run_command (queue e)
  {| voices := voices e; rate := rate e; current_voice := current_voice e;
     queue := []; spoken := spoken e |}.

(** *** What the script is run in *)

Record env : Type := {
  argv : list string;                        (* sys.argv *)
  TK_AVAILABLE : bool;
  console_path : string;       (* the answer to "Enter the full path ..." *)
  dialog_path : string;        (* askopenfilename(...), empty when dismissed *)
  path_exists : string -> bool;              (* os.path.exists *)
  (* pdfplumber.open(path): each page's extract_text(), which is [None]
     or a [str]; [None] for the file when opening raises *)
  pdf_pages : string -> option (list (option string));
  start_page_answer : string;  (* the answer to "Enter a page number ..." *)
  int_of_str : string -> option Z;           (* int(s); None is ValueError *)
  platform_system : string;                  (* platform.system() *)
  pyttsx3_init : string -> driver;           (* pyttsx3.init(driver) *)
  (* langdetect.detect(sample); None is LangDetectException *)
  detect : string -> option string;
  repr_dict : gmap string string -> string   (* how print shows a dict *)
}.

(** What a run leaves behind: the lines [print] wrote (the prompts of
    [input] are not kept), the files pdfplumber opened, and the speech
    engine if one was started. *)
Record world : Type := {
  stdout : list string;
  opened : list string;
  tts : option engine
}.

Inductive result : Type := Returned | Raised.

Definition print (line : string) (out : list string) : list string :=
out ++ [line].

(** U+2192 in the source's message; it is outside the characters of this
    embedding and only ever reaches [stdout]. *)
Definition ARROW : string := "->".

(** U+00E7, the c with cedilla of the French keyword. *)
Definition c_cedilla : string := String (ascii_of_nat 231) EmptyString.

Section Reader.

Variable E : env.

Definition init_tts_engine : engine :=
let system := platform_system E in
let engine :=
  if String.eqb system "Windows" then fresh (pyttsx3_init E "sapi5")
  else if String.eqb system "Darwin" then fresh (pyttsx3_init E "nsss")
  else fresh (pyttsx3_init E "espeak") in
let rate := rate engine in
push (SetRate (rate - 20)) engine.

(** The nested [voice_matches(v, keywords)] *)
Definition voice_matches (v : voice) (keywords : list string) : bool :=
let text := Py.lower (v_id v +:+ " " +:+ v_name v) in
existsb (fun k => Py.contains (Py.lower k) text) keywords.

(** The lines of the [enumerate(voices)] loop *)
Fixpoint voice_lines (i : Z) (vs : list voice) : list string :=
match vs with
| [] => []
| v :: vs' =>
    (Py.str_of_int i +:+ ": id=" +:+ v_id v +:+ ", name=" +:+ v_name v)
    :: voice_lines (i + 1) vs'
end.

Definition build_language_voice_map (engine : engine) (out : list string)
  : list string * gmap string string :=
let voices := voices engine in
let lang_voice_map : gmap string string := ∅ in
let out := print "Available voices:" out ++ voice_lines 0 voices in
let lang_voice_map :=
  match List.find (fun v => voice_matches v ["en"; "english"]) voices with
  | Some v => <["en" := v_id v]> lang_voice_map
  | None => lang_voice_map
  end in
let lang_voice_map :=
  match List.find
          (fun v => voice_matches v ["fr"; "french";
                                     "fran" +:+ c_cedilla +:+ "ais"; "francais"])
          voices with
  | Some v => <["fr" := v_id v]> lang_voice_map
  | None => lang_voice_map
  end in
(print ("Language " +:+ ARROW +:+ " voice map: " +:+ repr_dict E lang_voice_map)
       out,
 lang_voice_map).

Definition detect_language_of_text (text : string) (out : list string)
  : list string * string :=
let sample := substring 0 800 text in
match detect E sample with
| Some lang => (print ("Detected language: " +:+ lang) out, lang)
| None =>
    (print "Could not detect language, defaulting to 'unknown'" out, "unknown")
end.

(** The language [detect_language_of_text] returns for a text. *)
Definition detected_lang (text : string) : string :=
match detect E (substring 0 800 text) with
| Some lang => lang
| None => "unknown"
end.

Definition choose_pdf_file : option string :=
if negb (TK_AVAILABLE E) then
  let pdf_path := Py.strip (console_path E) in
  if Py.truthy pdf_path then Some pdf_path else None
else
  let file_path := dialog_path E in
  if Py.truthy file_path then Some file_path else None.

(** The [for] loop of [extract_text_from_pdf], page [i] first. *)
Fixpoint extract_loop (i : Z) (pages : list (option string))
         (out : list string) (all_pages_text : list (Z * string))
  : list string * list (Z * string) :=
match pages with
| [] => (out, all_pages_text)
| page :: rest =>
    match page with
    | Some (String _ _ as text) =>
        let cleaned_text := Py.join " " (Py.split text) in
        if Py.truthy (Py.strip cleaned_text)
        then extract_loop (i + 1) rest out
               (all_pages_text ++ [(i, cleaned_text)])
        else extract_loop (i + 1) rest out all_pages_text
    | _ =>
        extract_loop (i + 1) rest
          (print ("[info] Page " +:+ Py.str_of_int i
                  +:+ " has no extractable text (maybe scanned).") out)
          all_pages_text
    end
end.

(** The pages of a document with their numbers, from [i] on. *)
Fixpoint numbered (i : Z) (pages : list (option string))
  : list (Z * option string) :=
match pages with
| [] => []
| page :: rest => (i, page) :: numbered (i + 1) rest
end.

(** What a numbered page contributes to the extracted list: nothing when
    it has no text or only white space, else its words joined by single
    spaces. *)
Definition kept_page (p : Z * option string) : option (Z * string) :=
match snd p with
| Some text =>
    if Py.blank text then None else Some (fst p, Py.join " " (Py.split text))
| None => None
end.

(** The diagnostic a numbered page gets: one line when it has no text at
    all, none otherwise. *)
Definition diagnostic (p : Z * option string) : list string :=
match snd p with
| Some (String _ _) => []
| _ => ["[info] Page " +:+ Py.str_of_int (fst p)
        +:+ " has no extractable text (maybe scanned)."]
end.

(** [None] when [pdfplumber.open] raises. *)
Definition extract_text_from_pdf (pdf_path : string) (out : list string)
  : option (list string * list (Z * string)) :=
match pdf_pages E pdf_path with
| Some pages => Some (extract_loop 1 pages out [])
| None => None
end.

Definition default_lang : string := "en".

(** The texts an engine has uttered, and what a run has: nothing when no
    engine was started. *)
Definition said (e : engine) : list string := map snd (spoken e).

Definition said_by (e : option engine) : list string :=
match e with Some e => said e | None => [] end.

(** The texts a queue holds. *)
Definition says (q : list command) : list string :=
flat_map (fun c => match c with Say t => [t] | _ => [] end) q.

(** The voice a page detected as [lang] is uttered with, when [v] is the
    voice in effect before: the voice mapped to [lang]; without one, the
    voice mapped to the default language; without that one either, [v]
    itself.  An empty voice id counts as none. *)
Definition voice_for (lang_voice_map : gmap string string) (lang v : string)
  : string :=
let lang :=
  match lang_voice_map !! lang with Some _ => lang | None => default_lang end in
match lang_voice_map !! lang with
| Some voice_id => if Py.truthy voice_id then voice_id else v
| None => v
end.

(** What reading a list of pages aloud should utter: each page's number,
    then its text. *)
Definition utterances (pages : list (Z * string)) : list string :=
flat_map (fun p => ["Page " +:+ Py.str_of_int (fst p); snd p]) pages.

(** What carrying out a queue utters, and with which voice, when [v] is
    the voice in effect before. *)
Fixpoint uttered (q : list command) (v : string) : list (string * string) :=
match q with
| [] => []
| SetRate _ :: q' => uttered q' v
| SetVoice v' :: q' => uttered q' v'
| Say t :: q' => (v, t) :: uttered q' v
end.

(** The voice in effect once a queue has been carried out. *)
Definition voice_after (q : list command) (v : string) : string :=
fold_left (fun v c => match c with SetVoice v' => v' | _ => v end) q v.

(** One turn of the [for] loop of [read_text_aloud]. *)
Definition read_page (lang_voice_map : gmap string string)
           (st : list string * engine) (p : Z * string)
  : list string * engine :=
let '(out, engine) := st in
let '(page_num, text) := p in
let out :=
  print (Py.nl +:+ "--- Reading page " +:+ Py.str_of_int page_num +:+ " ---")
        out in
let '(out, lang) := detect_language_of_text text out in
let '(out, lang) :=
  match lang_voice_map !! lang with
  | None =>
      (print ("No dedicated voice for language '" +:+ lang
              +:+ "', using default.") out,
       default_lang)
  | Some _ => (out, lang)
  end in
let voice_id := lang_voice_map !! lang in
let '(out, engine) :=
  match voice_id with
  | Some voice_id =>
      if Py.truthy voice_id
      then (print ("Using voice '" +:+ voice_id +:+ "' for language '"
                   +:+ lang +:+ "'") out,
            push (SetVoice voice_id) engine)
      else (out, engine)
  | None => (out, engine)
  end in
let engine :=
  if String.eqb lang "fr"
  then push (Say ("Page " +:+ Py.str_of_int page_num)) engine
  else push (Say ("Page " +:+ Py.str_of_int page_num)) engine in
let engine := push (Say text) engine in
let engine := runAndWait engine in
(out, engine).

Definition read_text_aloud (pages_text : list (Z * string))
           (start_page : option Z) (out : list string)
  : list string * option engine :=
match pages_text with
| [] => (print "No text to read." out, None)
| _ :: _ =>
    let engine := init_tts_engine in
    let '(out, lang_voice_map) := build_language_voice_map engine out in
    let pages_text :=
      match start_page with
      | Some start_page =>
          List.filter (fun p => (start_page <=? fst p)%Z) pages_text
      | None => pages_text
      end in
    match start_page, pages_text with
    | Some start_page, [] =>
        (print ("No pages found starting from page "
                +:+ Py.str_of_int start_page +:+ ".") out,
         Some engine)
    | _, _ =>
        let '(out, engine) :=
          fold_left (read_page lang_voice_map) pages_text (out, engine) in
        (print "Finished reading all pages." out, Some engine)
    end
end.

Definition main : world * result :=
let '(out, pdf_path) :=
  match argv E with
  | _ :: arg :: _ => ([], Some arg)
  | _ =>
      (["No PDF path provided as an argument. Opening file chooser..."],
       choose_pdf_file)
  end in
match pdf_path with
| None | Some EmptyString =>
    ({| stdout := print "No file selected. Exiting." out;
        opened := []; tts := None |}, Returned)
| Some pdf_path =>
    if negb (path_exists E pdf_path) then
      ({| stdout := print ("File not found: " +:+ pdf_path) out;
          opened := []; tts := None |}, Returned)
    else if negb (Py.endswith (Py.lower pdf_path) ".pdf") then
      ({| stdout := print "The selected file is not a PDF." out;
          opened := []; tts := None |}, Returned)
    else
      let out := print ("Using PDF: " +:+ pdf_path) out in
      let out := print "Extracting text from PDF..." out in
      match extract_text_from_pdf pdf_path out with
      | None =>
          ({| stdout := out; opened := [pdf_path]; tts := None |}, Raised)
      | Some (out, []) =>
          ({| stdout :=
                print ("No readable text found in this PDF. "
                       +:+ "It might be scanned images.") out;
              opened := [pdf_path]; tts := None |}, Returned)
      | Some (out, pages_text) =>
          let out :=
            print ("The PDF has "
                   +:+ Py.str_of_int (Z.of_nat (length pages_text))
                   +:+ " pages with extractable text.") out in
          let start_page_input := Py.strip (start_page_answer E) in
          let '(out, start_page) :=
            if Py.truthy start_page_input then
              match int_of_str E start_page_input with
              | Some n => (out, Some n)
              | None =>
                  (print "Invalid page number. Starting from the beginning."
                         out, None)
              end
            else (out, None) in
          let out := print "Starting text-to-speech..." out in
          let '(out, engine) := read_text_aloud pages_text start_page out in
          ({| stdout := print "Done." out;
              opened := [pdf_path]; tts := engine |}, Returned)
      end
end.

(** The pages left by the starting-page filter of [read_text_aloud]. *)
Definition from_start (start_page : option Z) (pages_text : list (Z * string))
  : list (Z * string) :=
match start_page with
| Some start_page => List.filter (fun p => (start_page <=? fst p)%Z) pages_text
| None => pages_text
end.

(** What reading a list of pages utters and with which voices, when [v]
    is the voice in effect before the first page: each page's number and
    text with the voice [voice_for] gives, which stays in effect for the
    next page. *)
Fixpoint voiced (lang_voice_map : gmap string string) (v : string)
         (pages : list (Z * string)) : list (string * string) :=
match pages with
| [] => []
| (page_num, text) :: rest =>
    let v' := voice_for lang_voice_map (detected_lang text) v in
    (v', "Page " +:+ Py.str_of_int page_num) :: (v', text)
    :: voiced lang_voice_map v' rest
end.

(** The rate in effect once a queue has been carried out. *)
Definition rate_after (q : list command) (r : Z) : Z :=
fold_left (fun r c => match c with SetRate r' => r' | _ => r end) q r.

(** The starting page [main] hands to [read_text_aloud]: the answer read
    as a number, nothing for a blank answer or one that is no number. *)
Definition start_page_of : option Z :=
let start_page_input := Py.strip (start_page_answer E) in
if Py.truthy start_page_input then int_of_str E start_page_input else None.

(** The keywords of the two languages. *)
Definition en_keywords : list string := ["en"; "english"].

Definition fr_keywords : list string :=
["fr"; "french"; "fran" +:+ c_cedilla +:+ "ais"; "francais"].

(** The path [main] goes on with: the first argument, else the chooser. *)
Definition chosen_path : option string :=
match argv E with
| _ :: arg :: _ => Some arg
| _ => choose_pdf_file
end.

End Reader.

(** *** A sample machine

    Two installed voices, a German one the driver speaks with by default
    and a French one; no voice matches the English keywords. *)

Definition anna : voice :=
{| v_id := "com.apple.voice.compact.de-DE.Anna"; v_name := "Anna" |}.

Definition thomas : voice :=
{| v_id := "com.apple.voice.compact.fr-FR.Thomas"; v_name := "Thomas" |}.

Definition sample_driver : driver :=
{| installed := [anna; thomas]; default_rate := 200;
   default_voice := v_id anna |}.

Definition sample_detect (sample : string) : option string :=
if String.eqb sample "Bonjour tout le monde" then Some "fr"
else if String.eqb sample "Guten Tag zusammen" then Some "de"
else None.

Definition sample_int (s : string) : option Z :=
if String.eqb s "2" then Some 2%Z else None.

(** Run as [python pdf-reader-bot.py <arg>] on a disk that holds
    [notes.txt] and the two-page [book.pdf]. *)
Definition sample_env (arg : string) : env :=
{| argv := ["pdf-reader-bot.py"; arg];
   TK_AVAILABLE := false;
   console_path := "";
   dialog_path := "";
   path_exists := fun p => String.eqb p "notes.txt" || String.eqb p "book.pdf";
   pdf_pages := fun p =>
     if String.eqb p "book.pdf"
     then Some [Some "Bonjour  tout le monde"; Some "Guten Tag zusammen"]
     else None;
   start_page_answer := "";
   int_of_str := sample_int;
   platform_system := "Darwin";
   pyttsx3_init := fun _ => sample_driver;
   detect := sample_detect;
   repr_dict := fun _ => "{...}" |}.

(** The same machine with a disk on which every PDF has one page, whose
    [extract_text()] gives [text]. *)
Definition one_page_env (text : option string) : env :=
{| argv := ["pdf-reader-bot.py"; "scan.pdf"];
   TK_AVAILABLE := false;
   console_path := "";
   dialog_path := "";
   path_exists := fun _ => true;
   pdf_pages := fun _ => Some [text];
   start_page_answer := "";
   int_of_str := sample_int;
   platform_system := "Darwin";
   pyttsx3_init := fun _ => sample_driver;
   detect := sample_detect;
   repr_dict := fun _ => "{...}" |}.

(** A voice that calls itself French, in English. *)
Definition french_voice : voice := {| v_id := "french"; v_name := "French" |}.

Definition french_driver : driver :=
{| installed := [french_voice; anna]; default_rate := 200;
   default_voice := v_id french_voice |}.

Definition two_pages : list (Z * string) :=
[(1%Z, "Bonjour tout le monde"); (2%Z, "Guten Tag zusammen")].

End PdfReaderBot.
(** ** tts_test.py *)

Module TtsTest.

Import PdfReaderBot.

(** The lines of the [enumerate(voices)] loop *)
Fixpoint id_lines (i : Z) (vs : list voice) : list string :=
match vs with
| [] => []
| v :: vs' => (Py.str_of_int i +:+ ": " +:+ v_id v) :: id_lines (i + 1) vs'
end.

(** The driver the script asks pyttsx3 for on a system. *)
Definition driver_name (system : string) : string :=
if String.eqb system "Windows" then "sapi5"
else if String.eqb system "Darwin" then "nsss"
else "espeak".

Section Script.

Variable platform_system : string.           (* platform.system() *)
Variable pyttsx3_init : string -> driver.    (* pyttsx3.init(driver) *)

(** The script from top to bottom: the lines it prints and the engine
    it leaves. *)
Definition script : list string * engine :=
let out := print "Python TTS test starting..." [] in
let system := platform_system in
let out := print ("Detected OS: " +:+ system) out in
let engine :=
  if String.eqb system "Windows" then fresh (pyttsx3_init "sapi5")
  else if String.eqb system "Darwin" then fresh (pyttsx3_init "nsss")
  else fresh (pyttsx3_init "espeak") in
let voices := voices engine in
let out := print "Available voices:" out ++ id_lines 0 voices in
let engine := push (SetRate 160) engine in
let engine :=
  match voices with
  | v :: _ => push (SetVoice (v_id v)) engine
  | [] => engine
  end in
let out := print "Saying: 'Hello, this is a test.'" out in
let engine := push (Say "Hello, this is a test.") engine in
let engine := runAndWait engine in
let out := print "Done." out in
(out, engine).

End Script.

End TtsTest.


(** ** pdf_annotator.py *)

Module PdfAnnotator.

(** [ViewState.tool]: the value of one of the three radio buttons. *)
Inductive tool : Type := Draw | Highlight | TextTool.

Definition point : Type := float * float.

(** [fitz.Rect(x0, y0, x1, y1)] *)
Record Rect : Type :=
  mkRect { rx0 : float; ry0 : float; rx1 : float; ry1 : float }.

(** The annotation objects the handlers append to a page, with what the
    handler sets on each before [annot.update()]. *)
Inductive annotation : Type :=
| Ink (strokes : list (list point)) (border_width : float)
| HighlightAnnot (rect : Rect)
| FreeText (rect : Rect) (text : string) (fontsize : Z) (fontname : string).

Inductive exn : Type := ZeroDivisionError | IndexError | ValueError.

Inductive result : Type := Returned | Raised (e : exn).

(** A message box of [tkinter.messagebox], with its title and message. *)
Inductive dialog : Type :=
| showinfo (title message : string)
| showerror (title message : string).

(** What the canvas shows: the rendered page, the red segments of a stroke
    in progress (tag [INK_TMP]) and the yellow preview rectangle. *)
Inductive item : Type :=
| PageImage (page_index : Z) (zoom : float)
| InkTmp (x0 y0 x1 y1 : float)
| Outline (x0 y0 x1 y1 : float).

(** Items carry the ids Tk numbers them with, from 1 on. *)
Record Canvas : Type := { next_id : Z; items : list (Z * item) }.

Record ViewState : Type := {
  zoom : float;
  page_index : Z;
  tool_ : tool;
  draw_width : float
}.

Section Annotator.

(** What a page holds besides its annotations; the program never looks. *)
Context {content : Type}.

Record Page : Type := { body : content; annots : list annotation }.

(** [fitz.Document]: its pages; [len(doc)] is the page count, so an open
    document without pages is false in a condition. *)
Definition Document : Type := list Page.

(** What is found at a path after [Document.save]: a complete copy of a
    document, or the first [written] bytes of one. *)
Inductive file : Type :=
| Whole (d : Document)
| Partial (d : Document) (written : nat).

Record App : Type := {
  (* self.state *)
  state : ViewState;
  (* self.doc, None until a PDF is open *)
  doc : option Document;
  (* self.pdf_path *)
  pdf_path : option string;
  (* where a highlight drag began *)
  _drag_start : option point;
  (* the preview rectangle on the canvas *)
  _current_highlight_rect_id : option Z;
  _last_draw_point : option point;
  (* canvas points of the stroke being drawn *)
  _current_stroke_points : list point;
  (* the radio buttons' variable *)
  tool_var : tool;
  (* the spin box's variable *)
  zoom_var : float;
  canvas : Canvas;
  page_label : string;
  (* the message boxes shown so far, oldest first *)
  dialogs : list dialog;
  (* the files Document.save has touched *)
  files : gmap string file
}.

Definition set_state (v : ViewState) (a : App) : App :=
{| state := v; doc := doc a; pdf_path := pdf_path a;
   _drag_start := _drag_start a;
   _current_highlight_rect_id := _current_highlight_rect_id a;
   _last_draw_point := _last_draw_point a;
   _current_stroke_points := _current_stroke_points a;
   tool_var := tool_var a; zoom_var := zoom_var a; canvas := canvas a;
   page_label := page_label a; dialogs := dialogs a; files := files a |}.

Definition set_doc (v : option Document) (a : App) : App :=
{| state := state a; doc := v; pdf_path := pdf_path a;
   _drag_start := _drag_start a;
   _current_highlight_rect_id := _current_highlight_rect_id a;
   _last_draw_point := _last_draw_point a;
   _current_stroke_points := _current_stroke_points a;
   tool_var := tool_var a; zoom_var := zoom_var a; canvas := canvas a;
   page_label := page_label a; dialogs := dialogs a; files := files a |}.

Definition set_pdf_path (v : option string) (a : App) : App :=
{| state := state a; doc := doc a; pdf_path := v;
   _drag_start := _drag_start a;
   _current_highlight_rect_id := _current_highlight_rect_id a;
   _last_draw_point := _last_draw_point a;
   _current_stroke_points := _current_stroke_points a;
   tool_var := tool_var a; zoom_var := zoom_var a; canvas := canvas a;
   page_label := page_label a; dialogs := dialogs a; files := files a |}.

Definition set_drag_start (v : option point) (a : App) : App :=
{| state := state a; doc := doc a; pdf_path := pdf_path a;
   _drag_start := v;
   _current_highlight_rect_id := _current_highlight_rect_id a;
   _last_draw_point := _last_draw_point a;
   _current_stroke_points := _current_stroke_points a;
   tool_var := tool_var a; zoom_var := zoom_var a; canvas := canvas a;
   page_label := page_label a; dialogs := dialogs a; files := files a |}.

Definition set_current_highlight_rect_id (v : option Z) (a : App) : App :=
{| state := state a; doc := doc a; pdf_path := pdf_path a;
   _drag_start := _drag_start a; _current_highlight_rect_id := v;
   _last_draw_point := _last_draw_point a;
   _current_stroke_points := _current_stroke_points a;
   tool_var := tool_var a; zoom_var := zoom_var a; canvas := canvas a;
   page_label := page_label a; dialogs := dialogs a; files := files a |}.

Definition set_last_draw_point (v : option point) (a : App) : App :=
{| state := state a; doc := doc a; pdf_path := pdf_path a;
   _drag_start := _drag_start a;
   _current_highlight_rect_id := _current_highlight_rect_id a;
   _last_draw_point := v;
   _current_stroke_points := _current_stroke_points a;
   tool_var := tool_var a; zoom_var := zoom_var a; canvas := canvas a;
   page_label := page_label a; dialogs := dialogs a; files := files a |}.

Definition set_current_stroke_points (v : list point) (a : App) : App :=
{| state := state a; doc := doc a; pdf_path := pdf_path a;
   _drag_start := _drag_start a;
   _current_highlight_rect_id := _current_highlight_rect_id a;
   _last_draw_point := _last_draw_point a; _current_stroke_points := v;
   tool_var := tool_var a; zoom_var := zoom_var a; canvas := canvas a;
   page_label := page_label a; dialogs := dialogs a; files := files a |}.

Definition set_tool_var (v : tool) (a : App) : App :=
{| state := state a; doc := doc a; pdf_path := pdf_path a;
   _drag_start := _drag_start a;
   _current_highlight_rect_id := _current_highlight_rect_id a;
   _last_draw_point := _last_draw_point a;
   _current_stroke_points := _current_stroke_points a; tool_var := v;
   zoom_var := zoom_var a; canvas := canvas a; page_label := page_label a;
   dialogs := dialogs a; files := files a |}.

Definition set_zoom_var (v : float) (a : App) : App :=
{| state := state a; doc := doc a; pdf_path := pdf_path a;
   _drag_start := _drag_start a;
   _current_highlight_rect_id := _current_highlight_rect_id a;
   _last_draw_point := _last_draw_point a;
   _current_stroke_points := _current_stroke_points a;
   tool_var := tool_var a; zoom_var := v; canvas := canvas a;
   page_label := page_label a; dialogs := dialogs a; files := files a |}.

Definition set_canvas (v : Canvas) (a : App) : App :=
{| state := state a; doc := doc a; pdf_path := pdf_path a;
   _drag_start := _drag_start a;
   _current_highlight_rect_id := _current_highlight_rect_id a;
   _last_draw_point := _last_draw_point a;
   _current_stroke_points := _current_stroke_points a;
   tool_var := tool_var a; zoom_var := zoom_var a; canvas := v;
   page_label := page_label a; dialogs := dialogs a; files := files a |}.

Definition set_page_label (v : string) (a : App) : App :=
{| state := state a; doc := doc a; pdf_path := pdf_path a;
   _drag_start := _drag_start a;
   _current_highlight_rect_id := _current_highlight_rect_id a;
   _last_draw_point := _last_draw_point a;
   _current_stroke_points := _current_stroke_points a;
   tool_var := tool_var a; zoom_var := zoom_var a; canvas := canvas a;
   page_label := v; dialogs := dialogs a; files := files a |}.

Definition set_dialogs (v : list dialog) (a : App) : App :=
{| state := state a; doc := doc a; pdf_path := pdf_path a;
   _drag_start := _drag_start a;
   _current_highlight_rect_id := _current_highlight_rect_id a;
   _last_draw_point := _last_draw_point a;
   _current_stroke_points := _current_stroke_points a;
   tool_var := tool_var a; zoom_var := zoom_var a; canvas := canvas a;
   page_label := page_label a; dialogs := v; files := files a |}.

Definition set_files (v : gmap string file) (a : App) : App :=
{| state := state a; doc := doc a; pdf_path := pdf_path a;
   _drag_start := _drag_start a;
   _current_highlight_rect_id := _current_highlight_rect_id a;
   _last_draw_point := _last_draw_point a;
   _current_stroke_points := _current_stroke_points a;
   tool_var := tool_var a; zoom_var := zoom_var a; canvas := canvas a;
   page_label := page_label a; dialogs := dialogs a; files := v |}.

(** *** What PyMuPDF does *)

(** [fitz.open(path)]: a document, or the text of the exception. *)
Variable fitz_open : string -> Document + string.

(** [doc.save(path)] on the files: what it leaves, and the text of the
    exception when it raises. *)
Variable fitz_save :
  Document -> string -> gmap string file -> gmap string file * option string.

(** Whether [page.add_highlight_annot] takes the rectangle; it raises
    ValueError on one it does not. *)
Variable marker_rect_ok : Rect -> bool.

(** *** Helpers *)

Definition doc_truthy (a : App) : bool :=
match doc a with Some (_ :: _) => true | _ => false end.

(** [doc[i]]: any [i] below the page count, negative ones counted from
    the end; IndexError ([None]) otherwise.  The position comes along. *)
Definition getitem (d : Document) (i : Z) : option (nat * Page) :=
let n := Z.of_nat (length d) in
if (i <? n)%Z
then let k := Z.to_nat (i mod n) in p ← d !! k; Some (k, p)
else None.

(** [page.add_..._annot(...)] on page [k] of the document *)
Definition add_annot (d : Document) (k : nat) (an : annotation) : Document :=
alter (fun p => {| body := body p; annots := annots p ++ [an] |}) k d.

Definition set_zoom (z : float) (s : ViewState) : ViewState :=
{| zoom := z; page_index := page_index s; tool_ := tool_ s;
   draw_width := draw_width s |}.

Definition set_page_index (i : Z) (s : ViewState) : ViewState :=
{| zoom := zoom s; page_index := i; tool_ := tool_ s;
   draw_width := draw_width s |}.

Definition set_tool (t : tool) (s : ViewState) : ViewState :=
{| zoom := zoom s; page_index := page_index s; tool_ := t;
   draw_width := draw_width s |}.

(** [canvas.create_...]: the new item gets the next id. *)
Definition create (it : item) (c : Canvas) : Canvas * Z :=
({| next_id := next_id c + 1; items := items c ++ [(next_id c, it)] |},
 next_id c).

(** [canvas.delete("all")] *)
Definition delete_all (c : Canvas) : Canvas :=
{| next_id := next_id c; items := [] |}.

(** [canvas.delete(id)] *)
Definition delete_id (i : Z) (c : Canvas) : Canvas :=
{| next_id := next_id c;
   items := List.filter (fun e => negb (fst e =? i)%Z) (items c) |}.

(** [canvas.delete("INK_TMP")] *)
Definition delete_ink_tmp (c : Canvas) : Canvas :=
{| next_id := next_id c;
   items := List.filter
              (fun e => match snd e with
                        | InkTmp _ _ _ _ => false
                        | _ => true
                        end)
              (items c) |}.

(** [canvas.coords(id, x0, y0, x1, y1)] *)
Definition coords (i : Z) (x0 y0 x1 y1 : float) (c : Canvas) : Canvas :=
{| next_id := next_id c;
   items := map (fun e => if (fst e =? i)%Z then (fst e, Outline x0 y0 x1 y1)
                          else e) (items c) |}.

(** *** PDF open/render *)

Definition _render_page (a : App) : App :=
match doc a with
| Some ((_ :: _) as d) =>
    let page_count := Z.of_nat (length d) in
    let i := Z.max 0 (Z.min (page_index (state a)) (page_count - 1)) in
    let z := zoom_var a in
    let a := set_state (set_zoom z (set_page_index i (state a))) a in
    let '(c, _) := create (PageImage i z) (delete_all (canvas a)) in
    let a := set_canvas c a in
    set_page_label ("Page: " +:+ Py.str_of_int (i + 1) +:+ " / "
                    +:+ Py.str_of_int page_count) a
| _ => a
end.

(** [file_path] is what the open dialog returned, empty when dismissed. *)
Definition open_pdf (file_path : string) (a : App) : App :=
if negb (Py.truthy file_path) then a
else
  match fitz_open file_path with
  | inr e => set_dialogs (dialogs a ++ [showerror "Open failed" e]) a
  | inl d =>
      let a := set_doc (Some d) a in
      let a := set_pdf_path (Some file_path) a in
      let a := set_state (set_page_index 0 (state a)) a in
      _render_page a
  end.

(** *** Navigation *)

Definition prev_page (a : App) : App :=
if negb (doc_truthy a) then a
else _render_page (set_state (set_page_index (page_index (state a) - 1)
                                             (state a)) a).

Definition next_page (a : App) : App :=
if negb (doc_truthy a) then a
else _render_page (set_state (set_page_index (page_index (state a) + 1)
                                             (state a)) a).

(** *** Tool control *)

Definition _set_tool (a : App) : App :=
set_state (set_tool (tool_var a) (state a)) a.

Definition _apply_zoom (a : App) : App :=
if doc_truthy a then _render_page a else a.

(** *** Coordinate mapping *)

Definition _canvas_to_pdf (a : App) (x y : float) : option point :=
let z := zoom (state a) in
px ← Py.truediv x z; py ← Py.truediv y z; Some (px, py).

(** *** Annotation writers *)

Definition _add_highlight_rect (x0 y0 x1 y1 : float) (a : App)
  : App * result :=
match doc a with
| Some ((_ :: _) as d) =>
    match getitem d (page_index (state a)) with
    | None => (a, Raised IndexError)
    | Some (k, _) =>
        match Py.sorted PrimFloat.ltb [x0; x1],
              Py.sorted PrimFloat.ltb [y0; y1] with
        | [left_; right_], [top; bottom] =>
            match _canvas_to_pdf a left_ top,
                  _canvas_to_pdf a right_ bottom with
            | Some (px0, py0), Some (px1, py1) =>
                let rect := mkRect px0 py0 px1 py1 in
                if marker_rect_ok rect
                then (set_doc (Some (add_annot d k (HighlightAnnot rect))) a,
                      Returned)
                else (a, Raised ValueError)
            | _, _ => (a, Raised ZeroDivisionError)
            end
        | _, _ => (a, Raised ValueError)
        end
    end
| _ => (a, Returned)
end.

Definition _add_text_at_canvas_point (x y : float) (text : string) (a : App)
  : App * result :=
match doc a with
| Some ((_ :: _) as d) =>
    match getitem d (page_index (state a)) with
    | None => (a, Raised IndexError)
    | Some (k, _) =>
        match _canvas_to_pdf a x y with
        | Some (px, py) =>
            let rect_width := 250%float in
            let rect_height := 40%float in
            let rect := mkRect px py (px + rect_width) (py + rect_height) in
            (set_doc (Some (add_annot d k (FreeText rect text 12 "helv"))) a,
             Returned)
        | None => (a, Raised ZeroDivisionError)
        end
    end
| _ => (a, Returned)
end.

Definition _finalize_draw_stroke (a : App) : App * result :=
match doc a with
| Some ((_ :: _) as d) =>
    if (length (_current_stroke_points a) <? 2)%nat then (a, Returned)
    else
      match getitem d (page_index (state a)) with
      | None => (a, Raised IndexError)
      | Some (k, _) =>
          match mapM (fun p => _canvas_to_pdf a (fst p) (snd p))
                     (_current_stroke_points a) with
          | Some stroke_pdf_points =>
              let an := Ink [stroke_pdf_points] (draw_width (state a)) in
              let a := set_doc (Some (add_annot d k an)) a in
              let a := set_canvas (delete_ink_tmp (canvas a)) a in
              (set_current_stroke_points [] a, Returned)
          | None => (a, Raised ZeroDivisionError)
          end
      end
| _ => (a, Returned)
end.

(** *** Mouse events

    [x] and [y] are [canvas.canvasx(event.x)] and [canvas.canvasy(event.y)];
    [answer] is what the text prompt returned, [None] when cancelled. *)

Definition on_mouse_down (x y : float) (answer : option string) (a : App)
  : App * result :=
if negb (doc_truthy a) then (a, Returned)
else
  match tool_ (state a) with
  | Draw =>
      let a := set_current_stroke_points [(x, y)] a in
      (set_last_draw_point (Some (x, y)) a, Returned)
  | Highlight =>
      let a := set_drag_start (Some (x, y)) a in
      let '(c, id) := create (Outline x y x y) (canvas a) in
      (set_current_highlight_rect_id (Some id) (set_canvas c a), Returned)
  | TextTool =>
      match answer with
      | Some (String _ _ as text_value) =>
          match _add_text_at_canvas_point x y text_value a with
          | (a, Returned) => (_render_page a, Returned)
          | (a, Raised e) => (a, Raised e)
          end
      | _ => (a, Returned)
      end
  end.

Definition id_truthy (i : option Z) : bool :=
match i with Some n => negb (n =? 0)%Z | None => false end.

Definition on_mouse_drag (x y : float) (a : App) : App * result :=
if negb (doc_truthy a) then (a, Returned)
else
  match tool_ (state a), _last_draw_point a, _drag_start a with
  | Draw, Some (x0, y0), _ =>
      let '(c, _) := create (InkTmp x0 y0 x y) (canvas a) in
      let a := set_canvas c a in
      let a := set_last_draw_point (Some (x, y)) a in
      (set_current_stroke_points (_current_stroke_points a ++ [(x, y)]) a,
       Returned)
  | Highlight, _, Some (x0, y0) =>
      if id_truthy (_current_highlight_rect_id a)
      then (set_canvas (coords (default 0%Z (_current_highlight_rect_id a))
                               x0 y0 x y (canvas a)) a,
            Returned)
      else (a, Returned)
  | _, _, _ => (a, Returned)
  end.

Definition on_mouse_up (x y : float) (a : App) : App * result :=
if negb (doc_truthy a) then (a, Returned)
else
  match tool_ (state a), _drag_start a with
  | Draw, _ =>
      match _finalize_draw_stroke a with
      | (a, Returned) =>
          (_render_page (set_last_draw_point None a), Returned)
      | (a, Raised e) => (a, Raised e)
      end
  | Highlight, Some (x0, y0) =>
      let a := set_drag_start None a in
      let a :=
        if id_truthy (_current_highlight_rect_id a)
        then set_current_highlight_rect_id None
               (set_canvas
                  (delete_id (default 0%Z (_current_highlight_rect_id a))
                             (canvas a)) a)
        else a in
      match _add_highlight_rect x0 y0 x y a with
      | (a, Returned) => (_render_page a, Returned)
      | (a, Raised e) => (a, Raised e)
      end
  | _, _ => (a, Returned)
  end.

(** *** Saving

    [out_path] is what the save dialog returned, empty when dismissed. *)

Definition save_as (out_path : string) (a : App) : App * result :=
match doc a, pdf_path a with
| Some ((_ :: _) as d), Some _ =>
    if negb (Py.truthy out_path) then (a, Returned)
    else
      match fitz_save d out_path (files a) with
      | (fs, None) =>
          let a := set_files fs a in
          (set_dialogs
             (dialogs a ++ [showinfo "Saved" ("Saved annotated PDF:" +:+ Py.nl
                                              +:+ out_path)]) a,
           Returned)
      | (fs, Some e) =>
          let a := set_files fs a in
          (set_dialogs (dialogs a ++ [showerror "Save failed" e]) a, Returned)
      end
| _, _ =>
    (set_dialogs (dialogs a ++ [showinfo "Nothing to save" "Open a PDF first."])
                 a,
     Returned)
end.

(** *** The window's events, as the main loop hands them to the handlers

    A handler that raises is reported by Tk and the loop goes on with the
    state the handler left. *)
Inductive event : Type :=
| Prev
| Next
| MouseDown (x y : float) (answer : option string)
| MouseDrag (x y : float)
| MouseUp (x y : float)
| SelectTool (t : tool)
| SpinZoom (z : float)
| TypeZoom (z : float)
| OpenPdf (file_path : string)
| SaveAs (out_path : string).

Definition handle (a : App) (ev : event) : App :=
match ev with
| Prev => prev_page a
| Next => next_page a
| MouseDown x y answer => fst (on_mouse_down x y answer a)
| MouseDrag x y => fst (on_mouse_drag x y a)
| MouseUp x y => fst (on_mouse_up x y a)
| SelectTool t => _set_tool (set_tool_var t a)
| SpinZoom z => _apply_zoom (set_zoom_var z a)
| TypeZoom z => set_zoom_var z a
| OpenPdf file_path => open_pdf file_path a
| SaveAs out_path => fst (save_as out_path a)
end.

(** The states the window goes through, one per event. *)
Fixpoint run (a : App) (evs : list event) : list App :=
match evs with
| [] => []
| ev :: evs' => let a' := handle a ev in a' :: run a' evs'
end.

(** The state after a list of events. *)
Definition play (a : App) (evs : list event) : App := fold_left handle evs a.

Definition drag_events (drags : list point) : list event :=
map (fun d => MouseDrag (fst d) (snd d)) drags.

(** One press, drags and release of the pointer: down at [p], dragged over
    [drags], up at [q]; [answer] is what a text prompt would return. *)
Definition gesture (p : point) (drags : list point) (q : point)
           (answer : option string) : list event :=
MouseDown (fst p) (snd p) answer :: drag_events drags
++ [MouseUp (fst q) (snd q)].

(** A canvas point divided by the zoom factor [z]. *)
Definition to_pdf (z : float) (p : point) : point :=
(PrimFloat.div (fst p) z, PrimFloat.div (snd p) z).

(** The window shows page [k] of the open document [d], which is [pg]. *)
Definition showing (a : App) (d : Document) (k : nat) (pg : Page) : Prop :=
doc a = Some d /\ d !! k = Some pg /\ page_index (state a) = Z.of_nat k.

(** Page [k] of [d] with one more annotation, the other pages as in [d]. *)
Definition annotated (d : Document) (k : nat) (pg : Page) (an : annotation)
  : Document :=
<[k := {| body := body pg; annots := annots pg ++ [an] |}]> d.

(** The rectangle two canvas points span, its corners put in order with
    [min] and [max] on each axis, divided by the zoom factor [z]. *)
Definition normalized_rect (z : float) (p q : point) : Rect :=
mkRect (PrimFloat.div (Py.min (fst p) (fst q)) z)
       (PrimFloat.div (Py.min (snd p) (snd q)) z)
       (PrimFloat.div (Py.max (fst p) (fst q)) z)
       (PrimFloat.div (Py.max (snd p) (snd q)) z).

(** Both coordinates of a point are canvas positions. *)
Definition on_canvas (p : point) : Prop :=
Py.coordinate (fst p) = true /\ Py.coordinate (snd p) = true.

(** A navigation event. *)
Definition nav (ev : event) : Prop := ev = Prev \/ ev = Next.

(** The page the canvas shows, when it shows one. *)
Definition shown_page (a : App) : option Z :=
match items (canvas a) with
| (_, PageImage i _) :: _ => Some i
| _ => None
end.

(** The window has [d] open and shows one of its pages, the one its page
    index names. *)
Definition in_range (d : Document) (a : App) : Prop :=
doc a = Some d
/\ exists i,
     shown_page a = Some i /\ page_index (state a) = i
     /\ (0 <= i <= Z.of_nat (length d) - 1)%Z.

(** The page image at the front of the canvas: the page it shows and the
    zoom it was rendered at. *)
Definition front_image (its : list (Z * item)) : option (Z * float) :=
match its with
| (_, PageImage i z) :: _ => Some (i, z)
| _ => None
end.

Definition shown_image (a : App) : option (Z * float) :=
front_image (items (canvas a)).

Definition is_image (it : item) : bool :=
match it with PageImage _ _ => true | _ => false end.

(** What the handlers keep from one event to the next: the ids on the
    canvas are below the next one Tk gives out; the id kept for the
    preview rectangle is one Tk gave out and not that of a page image;
    and while a document with pages is open, the canvas shows the page
    the index names, rendered at the zoom in effect, and the document
    has that page. *)
Definition consistent (a : App) : Prop :=
Forall (fun e => (fst e < next_id (canvas a))%Z) (items (canvas a))
/\ (forall r, _current_highlight_rect_id a = Some r ->
      (r < next_id (canvas a))%Z
      /\ Forall (fun e => is_image (snd e) = true -> fst e <> r)
                (items (canvas a)))
/\ (forall d, doc a = Some d -> d <> [] ->
      shown_image a = Some (page_index (state a), zoom (state a))
      /\ (0 <= page_index (state a) < Z.of_nat (length d))%Z).

(** [d'] is [d] with annotations added: the same pages, each with the
    annotations it had in [d] first. *)
Definition extends (d d' : Document) : Prop :=
Forall2 (fun p p' => body p' = body p
                     /\ exists more, annots p' = annots p ++ more) d d'.

(** The rectangle the text tool gives a text placed at the PDF point
    [p]: 250 wide and 40 high, [p] its top left corner. *)
Definition text_rect (p : point) : Rect :=
mkRect (fst p) (snd p) (fst p + 250)%float (snd p + 40)%float.

(** [PdfAnnotatorApp.__init__] *)
Definition init : App :=
{| state := {| zoom := 1.5%float; page_index := 0; tool_ := Draw;
               draw_width := 2%float |};
   doc := None; pdf_path := None; _drag_start := None;
   _current_highlight_rect_id := None; _last_draw_point := None;
   _current_stroke_points := []; tool_var := Draw; zoom_var := 1.5%float;
   canvas := {| next_id := 1; items := [] |};
   page_label := "Page: - / -"; dialogs := []; files := ∅ |}.

End Annotator.

Arguments Page : clear implicits.
Arguments Document : clear implicits.
Arguments file : clear implicits.
Arguments App : clear implicits.
Arguments event : clear implicits.

(** *** A sample session

    A three-page document without annotations, a PyMuPDF that opens it
    from any path and takes any rectangle, and two ways [Document.save]
    can go: it writes the whole document, or the disk fills up after
    4096 bytes and it raises, leaving what it had written. *)

Definition blank_page : Page unit := {| body := tt; annots := [] |}.

Definition sample_doc : Document unit := [blank_page; blank_page; blank_page].

Definition sample_open (file_path : string) : Document unit + string :=
inl sample_doc.

Definition sample_save (d : Document unit) (out_path : string)
           (fs : gmap string (file unit))
  : gmap string (file unit) * option string :=
(<[out_path := Whole d]> fs, None).

Definition disk_full_save (d : Document unit) (out_path : string)
           (fs : gmap string (file unit))
  : gmap string (file unit) * option string :=
(<[out_path := Partial d 4096]> fs, Some "No space left on device").

Definition any_rect (r : Rect) : bool := true.

(** The window after [book.pdf] was opened, and after the highlight tool
    was chosen. *)
Definition sample_app : App unit := open_pdf sample_open "book.pdf" init.

Definition highlighting_app : App unit :=
handle sample_open sample_save any_rect sample_app (SelectTool Highlight).

(** The same window with the text tool chosen instead. *)
Definition writing_app : App unit :=
handle sample_open sample_save any_rect sample_app (SelectTool TextTool).

(** The text tool chosen and the spin box set to zero. *)
Definition unzoomed_app : App unit :=
handle sample_open sample_save any_rect writing_app (SpinZoom 0).

End PdfAnnotator.

(** * Part II: what the programs do *)

(** ** Facts about the built-ins *)

Module PyFacts.

Section SortedFacts.

Context {A : Type} (lt : A -> A -> bool).

Hypothesis lt_asym : forall x y, lt x y = true -> lt y x = false.

Lemma insort_Permutation x l : Permutation (x :: l) (Py.insort lt x l).
Proof.
  induction l as [|y l IH]; simpl; [reflexivity|].
  destruct (lt x y); [reflexivity|].
  rewrite perm_swap. now constructor.
Qed.

Lemma insort_hd x y l :
  lt x y = false -> HdRel (Py.nondecreasing lt) y l ->
  HdRel (Py.nondecreasing lt) y (Py.insort lt x l).
Proof.
  intros Hxy Hl. destruct l as [|z l]; simpl.
  - constructor. exact Hxy.
  - destruct (lt x z); constructor; [exact Hxy|].
    now inversion Hl.
Qed.

Lemma insort_Sorted x l :
  Sorted (Py.nondecreasing lt) l ->
  Sorted (Py.nondecreasing lt) (Py.insort lt x l).
Proof.
  induction 1 as [|y l Hs IH Hhd]; simpl.
  - repeat constructor.
  - destruct (lt x y) eqn:E.
    + constructor; [now constructor|]. constructor. now apply lt_asym.
    + constructor; [exact IH|]. now apply insort_hd.
Qed.

Lemma sorted_from_Permutation l acc :
  Permutation (rev l ++ acc)
              (fold_left (fun acc x => Py.insort lt x acc) l acc).
Proof.
  revert acc. induction l as [|x l IH]; intros acc; simpl; [reflexivity|].
  rewrite <- IH, <- app_assoc. simpl.
  apply Permutation_app_head, insort_Permutation.
Qed.

Lemma sorted_Permutation l : Permutation l (Py.sorted lt l).
Proof.
  unfold Py.sorted. rewrite <- sorted_from_Permutation, app_nil_r.
  apply Permutation_rev.
Qed.

Lemma sorted_from_Sorted l acc :
  Sorted (Py.nondecreasing lt) acc ->
  Sorted (Py.nondecreasing lt)
         (fold_left (fun acc x => Py.insort lt x acc) l acc).
Proof.
  revert acc. induction l as [|x l IH]; intros acc Hacc; simpl; [exact Hacc|].
  apply IH, insort_Sorted, Hacc.
Qed.

Lemma sorted_Sorted l : Sorted (Py.nondecreasing lt) (Py.sorted lt l).
Proof. apply sorted_from_Sorted. constructor. Qed.

Lemma sorted_nil_iff l : Py.sorted lt l = [] <-> l = [].
Proof.
  split; [|now intros ->].
  intros H. pose proof (sorted_Permutation l) as P. rewrite H in P.
  now apply Permutation_nil, Permutation_sym.
Qed.

End SortedFacts.

(** The order of [str.__lt__] on file names. *)

Lemma ascii_compare_eq a b : Ascii.compare a b = Eq -> a = b.
Proof.
  unfold Ascii.compare. intros H. apply N.compare_eq in H.
  rewrite <- (ascii_N_embedding a), <- (ascii_N_embedding b). now f_equal.
Qed.

Lemma ascii_compare_lt_trans a b c :
  Ascii.compare a b = Lt -> Ascii.compare b c = Lt -> Ascii.compare a c = Lt.
Proof.
  unfold Ascii.compare. rewrite !N.compare_lt_iff. apply N.lt_trans.
Qed.

Lemma str_compare_refl s : String.compare s s = Eq.
Proof.
  induction s as [|a s IH]; simpl; [reflexivity|].
  unfold Ascii.compare. now rewrite N.compare_refl.
Qed.

Lemma str_compare_lt_trans s1 : forall s2 s3,
  String.compare s1 s2 = Lt -> String.compare s2 s3 = Lt ->
  String.compare s1 s3 = Lt.
Proof.
  induction s1 as [|a s1 IH]; intros [|b s2] [|c s3]; simpl; try congruence.
  destruct (Ascii.compare a b) eqn:Eab; try congruence;
    destruct (Ascii.compare b c) eqn:Ebc; try congruence; intros H12 H23.
  - apply ascii_compare_eq in Eab, Ebc. subst.
    replace (Ascii.compare c c) with Eq by (symmetry; apply N.compare_refl).
    eapply IH; eassumption.
  - apply ascii_compare_eq in Eab. subst. now rewrite Ebc.
  - apply ascii_compare_eq in Ebc. subst. now rewrite Eab.
  - now rewrite (ascii_compare_lt_trans _ _ _ Eab Ebc).
Qed.

Lemma str_ltb_asym s1 s2 : String.ltb s1 s2 = true -> String.ltb s2 s1 = false.
Proof.
  unfold String.ltb. rewrite (String.compare_antisym s2 s1).
  now destruct (String.compare s1 s2).
Qed.

Lemma str_not_ltb_leb s1 s2 :
  String.ltb s2 s1 = false <-> String.leb s1 s2 = true.
Proof.
  unfold String.ltb, String.leb. rewrite (String.compare_antisym s2 s1).
  destruct (String.compare s1 s2); simpl; split; congruence.
Qed.

Lemma str_leb_trans s1 s2 s3 :
  String.leb s1 s2 = true -> String.leb s2 s3 = true -> String.leb s1 s3 = true.
Proof.
  unfold String.leb.
  destruct (String.compare s1 s2) eqn:E12; try congruence;
    destruct (String.compare s2 s3) eqn:E23; try congruence; intros _ _.
  - apply String.compare_eq_iff in E12, E23. subst.
    now rewrite str_compare_refl.
  - apply String.compare_eq_iff in E12. subst. now rewrite E23.
  - apply String.compare_eq_iff in E23. subst. now rewrite E12.
  - now rewrite (str_compare_lt_trans _ _ _ E12 E23).
Qed.

(** Words and white space: [split], [join] and [strip]. *)

Lemma truthy_append w c :
  Py.truthy (w +:+ String c EmptyString) = true.
Proof. now destruct w. Qed.

Lemma no_space_append w c :
  Py.no_space w = true -> Py.isspace c = false ->
  Py.no_space (w +:+ String c EmptyString) = true.
Proof.
  intros Hw Hc. induction w as [|a w IH]; simpl in *.
  - now rewrite Hc.
  - apply andb_prop in Hw as [Ha Hw]. rewrite Ha. simpl. now apply IH.
Qed.

(** Every string [split] yields is a word. *)
Lemma split_from_words s : forall w,
  Py.no_space w = true ->
  Forall (fun x => Py.is_word x = true) (Py.split_from w s).
Proof.
  induction s as [|c s IH]; intros w Hw; simpl.
  - destruct (Py.truthy w) eqn:Ht; [|constructor].
    constructor; [|constructor]. unfold Py.is_word. now rewrite Ht, Hw.
  - destruct (Py.isspace c) eqn:Hc.
    + destruct (Py.truthy w) eqn:Ht.
      * constructor; [unfold Py.is_word; now rewrite Ht, Hw|].
        now apply IH.
      * now apply IH.
    + apply IH. now apply no_space_append.
Qed.

Lemma split_words s : Forall (fun x => Py.is_word x = true) (Py.split s).
Proof. now apply split_from_words. Qed.

(** [split] yields nothing exactly on blank strings. *)
Lemma split_from_nil s : forall w,
  Py.split_from w s = [] <-> Py.truthy w = false /\ Py.blank s = true.
Proof.
  induction s as [|c s IH]; intros w; simpl.
  - destruct (Py.truthy w); split; intros H; try easy; now destruct H.
  - destruct (Py.isspace c) eqn:Hc; simpl.
    + destruct (Py.truthy w) eqn:Ht.
      * split; [discriminate|]. now intros [? _].
      * rewrite IH. simpl. tauto.
    + rewrite IH, truthy_append. split; [now intros [? _]|now intros [_ ?]].
Qed.

Lemma split_nil s : Py.split s = [] <-> Py.blank s = true.
Proof.
  unfold Py.split. rewrite split_from_nil. simpl. tauto.
Qed.

Lemma blank_append s1 s2 :
  Py.blank (s1 +:+ s2) = Py.blank s1 && Py.blank s2.
Proof.
  induction s1 as [|c s1 IH]; simpl; [reflexivity|].
  now rewrite IH, andb_assoc.
Qed.

Lemma word_not_blank w : Py.is_word w = true -> Py.blank w = false.
Proof.
  unfold Py.is_word. destruct w as [|c w]; simpl; [discriminate|].
  intros H. apply andb_prop in H as [Hc _].
  now destruct (Py.isspace c).
Qed.

(** Words joined are not blank. *)
Lemma join_words_not_blank sep ws :
  ws <> [] -> Forall (fun x => Py.is_word x = true) ws ->
  Py.blank (Py.join sep ws) = false.
Proof.
  intros Hne Hall. destruct ws as [|w ws]; [congruence|].
  inversion Hall as [|? ? Hw _]; subst.
  unfold Py.join. simpl. destruct ws.
  - now apply word_not_blank.
  - change (Py.blank (w +:+ (sep +:+ String.concat sep (s :: ws))) = false).
    rewrite blank_append, (word_not_blank w Hw). reflexivity.
Qed.

Lemma lstrip_blank s : Py.blank (Py.lstrip s) = Py.blank s.
Proof.
  induction s as [|c s IH]; simpl; [reflexivity|].
  destruct (Py.isspace c) eqn:Hc; simpl; [exact IH|]. now rewrite Hc.
Qed.

Lemma lstrip_truthy s : Py.truthy (Py.lstrip s) = negb (Py.blank s).
Proof.
  induction s as [|c s IH]; simpl; [reflexivity|].
  destruct (Py.isspace c) eqn:Hc; simpl; [exact IH|reflexivity].
Qed.

Lemma blank_forallb s :
  Py.blank s = forallb Py.isspace (list_ascii_of_string s).
Proof.
  induction s as [|c s IH]; simpl; [reflexivity|]. now rewrite IH.
Qed.

Lemma forallb_rev {A} (f : A -> bool) l : forallb f (rev l) = forallb f l.
Proof.
  induction l as [|x l IH]; simpl; [reflexivity|].
  rewrite forallb_app, IH. simpl. rewrite andb_true_r. apply andb_comm.
Qed.

Lemma rev_string_blank s : Py.blank (Py.rev_string s) = Py.blank s.
Proof.
  unfold Py.rev_string.
  rewrite !blank_forallb, list_ascii_of_string_of_list_ascii.
  apply forallb_rev.
Qed.

Lemma rev_string_truthy s : Py.truthy (Py.rev_string s) = Py.truthy s.
Proof.
  unfold Py.rev_string. destruct s as [|c s]; [reflexivity|]. simpl.
  destruct (rev (list_ascii_of_string s)); reflexivity.
Qed.

(** [strip] leaves something exactly on strings that are not blank. *)
Lemma strip_truthy s : Py.truthy (Py.strip s) = negb (Py.blank s).
Proof.
  unfold Py.strip.
  now rewrite rev_string_truthy, lstrip_truthy, rev_string_blank, lstrip_blank.
Qed.

Lemma str_app_assoc s1 s2 s3 : (s1 +:+ s2) +:+ s3 = s1 +:+ (s2 +:+ s3).
Proof.
  induction s1 as [|c s1 IH]; [reflexivity|].
  change (String c ((s1 +:+ s2) +:+ s3) = String c (s1 +:+ (s2 +:+ s3))).
  now f_equal.
Qed.

Lemma str_app_nil_r s : s +:+ EmptyString = s.
Proof.
  induction s as [|c s IH]; [reflexivity|].
  change (String c (s +:+ EmptyString) = String c s). now f_equal.
Qed.

(** Reading over characters that are not white space only grows the
    word. *)
Lemma split_from_no_space w' : forall w rest,
  Py.no_space w' = true ->
  Py.split_from w (w' +:+ rest) = Py.split_from (w +:+ w') rest.
Proof.
  induction w' as [|c w' IH]; intros w rest Hw'; simpl in *.
  - now rewrite str_app_nil_r.
  - apply andb_prop in Hw' as [Hc Hw'].
    destruct (Py.isspace c); [discriminate|].
    rewrite IH by exact Hw'. f_equal.
    now rewrite str_app_assoc.
Qed.

(** Splitting words joined by single spaces gives the words back. *)
Lemma split_join ws :
  Forall (fun x => Py.is_word x = true) ws ->
  Py.split (Py.join " " ws) = ws.
Proof.
  unfold Py.split, Py.join.
  induction 1 as [|w ws Hw Hall IH]; [reflexivity|].
  unfold Py.is_word in Hw. apply andb_prop in Hw as [Ht Hn].
  destruct ws as [|w2 ws].
  - change (String.concat " " [w]) with w.
    rewrite <- (str_app_nil_r w) at 1.
    rewrite split_from_no_space by exact Hn.
    change (Py.split_from (EmptyString +:+ w) EmptyString)
      with (if Py.truthy w then [w] else []).
    now rewrite Ht.
  - change (String.concat " " (w :: w2 :: ws))
      with (w +:+ (" " +:+ String.concat " " (w2 :: ws))).
    rewrite split_from_no_space by exact Hn.
    change (Py.split_from (EmptyString +:+ w)
              (" " +:+ String.concat " " (w2 :: ws)))
      with (if Py.truthy w
            then w :: Py.split_from EmptyString (String.concat " " (w2 :: ws))
            else Py.split_from EmptyString (String.concat " " (w2 :: ws))).
    now rewrite Ht, IH.
Qed.

(** The cleanup [" ".join(text.split())] keeps the words of the text, and
    cleaning a cleaned text changes nothing: its words are already
    separated by single spaces, with no white space around them. *)
Lemma cleanup_words text :
  Py.split (Py.join " " (Py.split text)) = Py.split text.
Proof. apply split_join, split_words. Qed.

Lemma cleanup_idempotent text :
  let cleaned := Py.join " " (Py.split text) in
  Py.join " " (Py.split cleaned) = cleaned.
Proof. intros cleaned. subst cleaned. now rewrite cleanup_words. Qed.

(** The order of [float.__lt__] on canvas positions. *)

Lemma SFcompare_antisym (x y : spec_float) :
  SFcompare y x = option_map CompOpp (SFcompare x y).
Proof.
  destruct x as [[|]|[|]| |[|] mx ex], y as [[|]|[|]| |[|] my ey];
    try reflexivity; cbn [SFcompare option_map].
  all: change (Corelib.BinNums.PosDef.Pos.compare_cont Eq my mx)
         with (Pos.compare my mx).
  all: change (Corelib.BinNums.PosDef.Pos.compare_cont Eq mx my)
         with (Pos.compare mx my).
  all: rewrite (Z.compare_antisym ex ey), (Pos.compare_antisym mx my).
  all: destruct (ex ?= ey)%Z; cbn [CompOpp]; try reflexivity.
  all: destruct (mx ?= my)%positive; reflexivity.
Qed.

Lemma SFcompare_Eq (x y : spec_float) :
  SFcompare x y = Some Eq ->
  x = y \/ exists s t, x = S754_zero s /\ y = S754_zero t.
Proof.
  destruct x as [[|]|[|]| |[|] mx ex], y as [[|]|[|]| |[|] my ey];
    cbn [SFcompare]; try discriminate; eauto.
  all: change (Corelib.BinNums.PosDef.Pos.compare_cont Eq mx my)
         with (Pos.compare mx my).
  all: destruct (ex ?= ey)%Z eqn:Ee; try discriminate.
  all: destruct (mx ?= my)%positive eqn:Em; try discriminate.
  all: apply Z.compare_eq in Ee; apply Pos.compare_eq in Em; subst; auto.
Qed.

Lemma SFcompare_None (x y : spec_float) :
  SFcompare x y = None -> x = S754_nan \/ y = S754_nan.
Proof.
  destruct x as [[|]|[|]| |[|] mx ex], y as [[|]|[|]| |[|] my ey];
    cbn [SFcompare]; try discriminate; auto.
Qed.

Lemma SFltb_cases (sx sy : spec_float) :
  match SFclassify prec sx with NaN | NZero => false | _ => true end = true ->
  match SFclassify prec sy with NaN | NZero => false | _ => true end = true ->
  (SFltb sx sy = true /\ SFltb sy sx = false)
  \/ (SFltb sy sx = true /\ SFltb sx sy = false)
  \/ (sx = sy /\ SFltb sx sy = false).
Proof.
  intros Hx Hy. unfold SFltb. rewrite (SFcompare_antisym sx sy).
  destruct (SFcompare sx sy) as [[| |]|] eqn:E; cbn [option_map CompOpp]; auto.
  - right. right. split; [|reflexivity].
    destruct (SFcompare_Eq _ _ E) as [Heq|(s & t & -> & ->)]; [exact Heq|].
    destruct s, t; try discriminate. reflexivity.
  - destruct (SFcompare_None _ _ E) as [-> | ->]; discriminate.
Qed.

Lemma float_lt_cases (x y : float) :
  Py.coordinate x = true -> Py.coordinate y = true ->
  (PrimFloat.ltb x y = true /\ PrimFloat.ltb y x = false)
  \/ (PrimFloat.ltb y x = true /\ PrimFloat.ltb x y = false)
  \/ (x = y /\ PrimFloat.ltb x y = false).
Proof.
  unfold Py.coordinate. rewrite !classify_spec, !ltb_spec. intros Hx Hy.
  destruct (SFltb_cases (Prim2SF x) (Prim2SF y) Hx Hy) as [H|[H|[Heq H]]]; auto.
  right. right. split; [|exact H].
  rewrite <- (SF2Prim_Prim2SF x), <- (SF2Prim_Prim2SF y). now f_equal.
Qed.

(** Sorting two positions does not depend on which comes first, and puts
    the smaller one first. *)
Lemma sorted_pair (x y : float) :
  Py.coordinate x = true -> Py.coordinate y = true ->
  Py.sorted PrimFloat.ltb [x; y] = [Py.min x y; Py.max x y].
Proof.
  intros Hx Hy. unfold Py.sorted, Py.min, Py.max. cbn [fold_left Py.insort].
  destruct (float_lt_cases x y Hx Hy) as [[H1 H2]|[[H1 H2]|[Heq H]]].
  - now rewrite H1, H2.
  - now rewrite H1, H2.
  - subst y. now rewrite H.
Qed.

Lemma min_max_swap (x y : float) :
  Py.coordinate x = true -> Py.coordinate y = true ->
  Py.min x y = Py.min y x /\ Py.max x y = Py.max y x.
Proof.
  intros Hx Hy. unfold Py.min, Py.max.
  destruct (float_lt_cases x y Hx Hy) as [[H1 H2]|[[H1 H2]|[Heq H]]].
  - now rewrite H1, H2.
  - now rewrite H1, H2.
  - subst y. now rewrite H.
Qed.

End PyFacts.

(** ** merge_pdfs.py *)

Module MergePdfsSpec.

Import MergePdfs.

Section MergerFacts.

Context {page : Type}.

Variables INPUT_DIR OUTPUT_DIR : string.

Abbreviation path := (path page).
Abbreviation effect := (effect page).

Lemma writes_app (tr1 tr2 : list effect) :
  writes (tr1 ++ tr2) = writes tr1 ++ writes tr2.
Proof.
  induction tr1 as [|e tr1 IH]; simpl; [reflexivity|].
  destruct e; simpl; now rewrite IH.
Qed.

(** With readable files the loop ends with every file's pages behind
    those the merger held, and writes nothing itself. *)
Lemma append_loop_readable (files : list path) : forall tr merger,
  Forall readable files ->
  exists tr',
    append_loop files tr merger
    = (tr', Some (merger ++ concat (map pages_of files)))
    /\ writes tr' = writes tr.
Proof.
  induction files as [|f files IH]; intros tr merger Hall; simpl.
  - exists tr. now rewrite app_nil_r.
  - inversion Hall as [|? ? Hf Hrest]; subst.
    unfold readable in Hf. unfold pages_of at 1.
    destruct (opens_as f) as [pages|]; [|contradiction].
    destruct (IH (tr ++ [Print ("  - " +:+ name f)]) (merger ++ pages) Hrest)
      as (tr' & -> & Hw).
    exists tr'. split; [now rewrite <- app_assoc|].
    rewrite Hw, writes_app. simpl. now rewrite app_nil_r.
Qed.

(** The loop never writes, whatever the files are. *)
Lemma append_loop_no_write (files : list path) : forall tr merger,
  writes (fst (append_loop files tr merger)) = writes tr.
Proof.
  induction files as [|f files IH]; intros tr merger; simpl; [reflexivity|].
  destruct (opens_as f).
  - rewrite IH, writes_app. simpl. now rewrite app_nil_r.
  - simpl. rewrite writes_app. simpl. now rewrite app_nil_r.
Qed.

(** The loop raises as soon as one file cannot be read. *)
Lemma append_loop_unreadable (files : list path) : forall tr merger,
  ~ Forall readable files ->
  snd (append_loop files tr merger) = None.
Proof.
  induction files as [|f files IH]; intros tr merger Hnot; simpl.
  - destruct Hnot. constructor.
  - destruct (opens_as f) as [pages|] eqn:E; [|reflexivity].
    apply IH. intros Hall. apply Hnot. constructor; [|exact Hall].
    unfold readable. now rewrite E.
Qed.

Lemma length_concat_pages (files : list path) :
  length (concat (map pages_of files)) = list_sum (map page_count files).
Proof.
  induction files as [|f files IH]; simpl; [reflexivity|].
  rewrite length_app, IH. f_equal.
  unfold pages_of, page_count. now destruct (opens_as f).
Qed.

Lemma path_lt_asym (p q : path) : path_lt p q = true -> path_lt q p = false.
Proof. apply PyFacts.str_ltb_asym. Qed.

Lemma sorted_files_Permutation (l : list path) :
  Permutation l (Py.sorted path_lt l).
Proof. apply PyFacts.sorted_Permutation. Qed.

Lemma sorted_files_StronglySorted (l : list path) :
  StronglySorted name_le (Py.sorted path_lt l).
Proof.
  apply Sorted_StronglySorted.
  - intros p q r. apply PyFacts.str_leb_trans.
  - eapply Sorted_ind with (P := Sorted name_le).
    + constructor.
    + intros a l0 _ IH Hhd. constructor; [exact IH|].
      destruct Hhd as [|b l1 Hab]; constructor.
      apply PyFacts.str_not_ltb_leb. exact Hab.
    + apply PyFacts.sorted_Sorted, path_lt_asym.
Qed.

Lemma sum_page_count_Permutation (l1 l2 : list path) :
  Permutation l1 l2 ->
  list_sum (map page_count l1) = list_sum (map page_count l2).
Proof.
  induction 1; simpl; lia.
Qed.

(** C1, as the code has it: when every file matching [*.pdf] can be read,
    [merge_pdfs] returns normally, and it writes a file if and only if
    at least one file matches.  With no matching file its only effect is
    the line reporting that none was found.  Otherwise it writes exactly
    one file, [OUTPUT_DIR/output_name], holding the pages of the matching
    files one file after the other, the files being taken in the order of
    their names (a sorted rearrangement of the matching files), so that
    the page count is the sum of the inputs' page counts. *)
Theorem merge_pdfs_readable (output_name : string) (dir : list path) :
  Forall readable (glob_pdf dir) ->
  let files := Py.sorted path_lt (glob_pdf dir) in
  let run := merge_pdfs INPUT_DIR OUTPUT_DIR output_name dir in
  snd run = Returned
  /\ Permutation (glob_pdf dir) files
  /\ StronglySorted name_le files
  /\ (writes (fst run) <> [] <-> glob_pdf dir <> [])
  /\ (glob_pdf dir = [] ->
      fst run = [Print ("No PDF files found in " +:+ INPUT_DIR)])
  /\ (glob_pdf dir <> [] ->
      writes (fst run)
      = [(OUTPUT_DIR +:+ "/" +:+ output_name, concat (map pages_of files))]
      /\ length (concat (map pages_of files))
         = list_sum (map page_count (glob_pdf dir))).
Proof.
  intros Hall files run.
  assert (Hperm : Permutation (glob_pdf dir) files)
    by apply sorted_files_Permutation.
  assert (Hsorted : StronglySorted name_le files)
    by apply sorted_files_StronglySorted.
  assert (Hfiles : Forall readable files).
  { eapply Permutation_Forall; eassumption. }
  assert (Hlen : length (concat (map pages_of files))
                 = list_sum (map page_count (glob_pdf dir))).
  { rewrite length_concat_pages. symmetry.
    now apply sum_page_count_Permutation. }
  assert (Hcases :
    (glob_pdf dir = []
     /\ run = ([Print ("No PDF files found in " +:+ INPUT_DIR)], Returned))
    \/ (glob_pdf dir <> []
        /\ snd run = Returned
        /\ writes (fst run)
           = [(OUTPUT_DIR +:+ "/" +:+ output_name,
               concat (map pages_of files))])).
  { subst run. unfold merge_pdfs. fold files.
    destruct files as [|f rest] eqn:Ef.
    - left. split; [|reflexivity].
      now apply (PyFacts.sorted_nil_iff path_lt).
    - right. split.
      + intros Hnil. apply (PyFacts.sorted_nil_iff path_lt) in Hnil.
        unfold files in Ef. congruence.
      + destruct (append_loop_readable (f :: rest)
                    [Mkdir OUTPUT_DIR; Print "Merging PDFs in this order:"]
                    [] Hfiles) as (tr' & Heq & Hw).
        rewrite Heq. simpl fst. simpl snd. split; [reflexivity|].
        rewrite writes_app, Hw. reflexivity. }
  destruct Hcases as [[Hnil Hrun] | (Hne & Hret & Hw)].
  - rewrite Hrun. simpl. repeat split; try assumption; try congruence.
  - repeat split; try assumption; try congruence.
Qed.

(** When a matching file cannot be read, the run raises and writes
    nothing, although matching files exist. *)
Lemma merge_pdfs_aborts (output_name : string) (dir : list path) :
  ~ Forall readable (glob_pdf dir) ->
  let run := merge_pdfs INPUT_DIR OUTPUT_DIR output_name dir in
  snd run = Raised /\ writes (fst run) = [] /\ glob_pdf dir <> [].
Proof.
  intros Hnot run.
  assert (Hfiles : ~ Forall readable (Py.sorted path_lt (glob_pdf dir))).
  { intros Hall. apply Hnot.
    eapply Permutation_Forall; [|exact Hall].
    symmetry. apply sorted_files_Permutation. }
  assert (Hne : glob_pdf dir <> []).
  { intros Hnil. apply Hnot. rewrite Hnil. constructor. }
  subst run. unfold merge_pdfs.
  destruct (Py.sorted path_lt (glob_pdf dir)) as [|f rest] eqn:Ef.
  - destruct Hfiles. constructor.
  - pose proof (append_loop_unreadable (f :: rest)
                  [Mkdir OUTPUT_DIR; Print "Merging PDFs in this order:"]
                  [] Hfiles) as Hnone.
    pose proof (append_loop_no_write (f :: rest)
                  [Mkdir OUTPUT_DIR; Print "Merging PDFs in this order:"]
                  []) as Hw.
    destruct (append_loop (f :: rest) _ []) as [tr o]. simpl in Hnone, Hw.
    subst o. simpl. rewrite writes_app, Hw. simpl. auto.
Qed.

End MergerFacts.

Lemma merge_pdfs_readable_witness :
  let run := merge_pdfs "pdfs" "output" "merged.pdf" sample_dir in
  snd run = Returned
  /\ writes (fst run) = [("output/merged.pdf", [10; 20; 21])].
Proof.
  assert (Hall : Forall readable (glob_pdf sample_dir)).
  { repeat constructor. }
  destruct (merge_pdfs_readable "pdfs" "output" "merged.pdf" sample_dir Hall)
    as (Hret & _ & _ & _ & _ & Hw).
  split; [exact Hret|].
  apply Hw. discriminate.
Defined.

(** C1 as stated fails here: a file matching [*.pdf] exists, yet nothing
    is written; the run ends in the exception [append] raised. *)
Lemma merge_pdfs_damaged_input :
  glob_pdf damaged_dir <> []
  /\ writes (fst (merge_pdfs "pdfs" "output" "merged.pdf" damaged_dir)) = []
  /\ snd (merge_pdfs "pdfs" "output" "merged.pdf" damaged_dir) = Raised.
Proof.
  repeat split. discriminate.
Qed.

End MergePdfsSpec.

(** ** pdf-reader-bot.py *)

Module PdfReaderBotSpec.

Import PdfReaderBot.

(** *** The engine *)

Lemma run_commands_said (q : list command) : forall e,
  said (fold_left run_command q e) = said e ++ says q.
Proof.
  induction q as [|c q IH]; intros e; simpl.
  - now rewrite app_nil_r.
  - rewrite IH. destruct c; simpl; try reflexivity.
    unfold said. simpl. rewrite map_app. simpl. now rewrite <- app_assoc.
Qed.

Lemma run_commands_queue (q : list command) : forall e,
  queue (fold_left run_command q e) = queue e.
Proof.
  induction q as [|c q IH]; intros e; simpl; [reflexivity|].
  rewrite IH. now destruct c.
Qed.

Lemma run_commands_voice (q : list command) : forall e,
  current_voice (fold_left run_command q e) = voice_after q (current_voice e).
Proof.
  induction q as [|c q IH]; intros e; simpl; [reflexivity|].
  rewrite IH. now destruct c.
Qed.

Lemma runAndWait_said e : said (runAndWait e) = said e ++ says (queue e).
Proof. unfold runAndWait. now rewrite run_commands_said. Qed.

Lemma runAndWait_queue e : queue (runAndWait e) = [].
Proof. unfold runAndWait. now rewrite run_commands_queue. Qed.

Lemma says_app q1 q2 : says (q1 ++ q2) = says q1 ++ says q2.
Proof. unfold says. now rewrite flat_map_app. Qed.

Lemma run_commands_spoken (q : list command) : forall e,
  spoken (fold_left run_command q e)
  = spoken e ++ uttered q (current_voice e).
Proof.
  induction q as [|c q IH]; intros e; simpl.
  - now rewrite app_nil_r.
  - rewrite IH. destruct c; simpl; try reflexivity.
    now rewrite <- app_assoc.
Qed.

Lemma uttered_app q1 : forall q2 v,
  uttered (q1 ++ q2) v = uttered q1 v ++ uttered q2 (voice_after q1 v).
Proof.
  induction q1 as [|c q1 IH]; intros q2 v; simpl; [reflexivity|].
  destruct c; simpl; rewrite IH; reflexivity.
Qed.

Lemma voice_after_app q1 q2 v :
  voice_after (q1 ++ q2) v = voice_after q2 (voice_after q1 v).
Proof. unfold voice_after. now rewrite fold_left_app. Qed.

(** *** Extraction *)

(** The extracted list holds, in page order, the pages that have text
    other than white space, each with its words joined by single spaces;
    a diagnostic is printed for the pages without any text, and for
    those only. *)
Lemma kept_page_text i text :
  kept_page (i, Some text)
  = if Py.blank text then None else Some (i, Py.join " " (Py.split text)).
Proof. reflexivity. Qed.

Lemma extract_loop_spec (pages : list (option string)) : forall i out acc,
  extract_loop i pages out acc
  = (out ++ flat_map diagnostic (numbered i pages),
     acc ++ omap kept_page (numbered i pages)).
Proof.
  induction pages as [|page pages IH]; intros i out acc.
  - simpl. now rewrite !app_nil_r.
  - cbn [extract_loop numbered flat_map].
    change (omap kept_page ((i, page) :: numbered (i + 1) pages))
      with (match kept_page (i, page) with
            | Some y => y :: omap kept_page (numbered (i + 1) pages)
            | None => omap kept_page (numbered (i + 1) pages)
            end).
    destruct page as [[|c text]|].
    + rewrite IH. unfold print. cbn [diagnostic snd fst kept_page Py.blank].
      now rewrite <- app_assoc.
    + rewrite PyFacts.strip_truthy, kept_page_text.
      change (diagnostic (i, Some (String c text))) with (@nil string).
      cbn [app].
      destruct (Py.blank (String c text)) eqn:Hb.
      * apply PyFacts.split_nil in Hb. rewrite Hb.
        change (Py.join " " []) with EmptyString.
        cbn [Py.blank negb]. apply IH.
      * rewrite PyFacts.join_words_not_blank.
        -- cbn [negb]. rewrite IH. now rewrite <- app_assoc.
        -- intros Hnil. apply PyFacts.split_nil in Hnil. congruence.
        -- apply PyFacts.split_words.
    + rewrite IH. unfold print. cbn [diagnostic snd fst kept_page].
      now rewrite <- app_assoc.
Qed.

Section ReaderFacts.

Variable E : env.

(** What [extract_text_from_pdf] returns for a file pdfplumber opens. *)
Lemma extract_text_from_pdf_spec pdf_path pages out :
  pdf_pages E pdf_path = Some pages ->
  extract_text_from_pdf E pdf_path out
  = Some (out ++ flat_map diagnostic (numbered 1 pages),
          omap kept_page (numbered 1 pages)).
Proof.
  intros Hpages. unfold extract_text_from_pdf.
  now rewrite Hpages, extract_loop_spec.
Qed.

Lemma detect_language_snd text out :
  snd (detect_language_of_text E text out) = detected_lang E text.
Proof.
  unfold detect_language_of_text, detected_lang.
  now destruct (detect E (substring 0 800 text)).
Qed.

(** One page, with its voice: what was queued is carried out first; the
    page's number and text are then uttered with the voice mapped to the
    detected language, else with the voice mapped to the default
    language, else with the voice in effect before the page. *)
Lemma read_page_spoken m out e n t :
  let v0 := voice_after (queue e) (current_voice e) in
  let v := voice_for m (detected_lang E t) v0 in
  spoken (snd (read_page E m (out, e) (n, t)))
  = spoken e ++ uttered (queue e) (current_voice e)
    ++ [(v, "Page " +:+ Py.str_of_int n); (v, t)]
  /\ current_voice (snd (read_page E m (out, e) (n, t))) = v.
Proof.
  intros v0 v. subst v. unfold voice_for, read_page.
  rewrite <- (detect_language_snd t
                (print (Py.nl +:+ "--- Reading page " +:+ Py.str_of_int n
                        +:+ " ---") out)).
  destruct (detect_language_of_text E t _) as [out1 lang]. cbn [snd].
  destruct (m !! lang) as [w|] eqn:Hm.
  - rewrite Hm. destruct (Py.truthy w);
      destruct (String.eqb lang "fr"); cbn [snd];
      unfold runAndWait; rewrite run_commands_spoken, run_commands_voice;
      cbn [queue push spoken current_voice];
      rewrite ?uttered_app, ?voice_after_app; cbn; rewrite ?app_nil_r;
      subst v0; rewrite <- ?app_assoc; auto.
  - destruct (m !! default_lang) as [w|];
      [destruct (Py.truthy w)|];
      destruct (String.eqb default_lang "fr"); cbn [snd];
      unfold runAndWait; rewrite run_commands_spoken, run_commands_voice;
      cbn [queue push spoken current_voice];
      rewrite ?uttered_app, ?voice_after_app; cbn; rewrite ?app_nil_r;
      subst v0; rewrite <- ?app_assoc; auto.
Qed.

(** One page: whatever the voice, the engine utters what was queued, then
    the page's number and its text, and its queue is empty again. *)
Lemma read_page_said m out e n t :
  let r := read_page E m (out, e) (n, t) in
  said (snd r) = said e ++ says (queue e) ++ ["Page " +:+ Py.str_of_int n; t]
  /\ queue (snd r) = [].
Proof.
  unfold read_page.
  destruct (detect_language_of_text E t _) as [out1 lang].
  destruct (m !! lang) as [v0|] eqn:Hm.
  - rewrite Hm. destruct (Py.truthy v0);
      destruct (String.eqb lang "fr"); simpl;
      rewrite runAndWait_said, runAndWait_queue; simpl;
      rewrite !says_app; simpl; rewrite <- ?app_assoc; simpl;
      rewrite ?app_nil_r; auto.
  - destruct (m !! default_lang) as [v1|];
      [destruct (Py.truthy v1)|];
      destruct (String.eqb default_lang "fr"); simpl;
      rewrite runAndWait_said, runAndWait_queue; simpl;
      rewrite !says_app; simpl; rewrite <- ?app_assoc; simpl;
      rewrite ?app_nil_r; auto.
Qed.

Lemma read_pages_said_idle m pages : forall out e,
  queue e = [] ->
  said (snd (fold_left (read_page E m) pages (out, e)))
  = said e ++ utterances pages.
Proof.
  induction pages as [|[n t] pages IH]; intros out e Hidle.
  - simpl. now rewrite app_nil_r.
  - cbn [fold_left].
    destruct (read_page_said m out e n t) as [Hs Hq].
    destruct (read_page E m (out, e) (n, t)) as [out1 e1].
    cbn [snd] in Hs, Hq.
    rewrite (IH out1 e1 Hq), Hs, Hidle.
    cbn [says flat_map utterances app fst snd]. now rewrite <- app_assoc.
Qed.

(** From a fresh engine, whose queue holds only the rate to set. *)
Lemma read_pages_said m pages out e :
  says (queue e) = [] -> pages <> [] ->
  said (snd (fold_left (read_page E m) pages (out, e)))
  = said e ++ utterances pages.
Proof.
  intros Hq0 Hne. destruct pages as [|[n t] pages]; [congruence|].
  cbn [fold_left].
  destruct (read_page_said m out e n t) as [Hs Hq].
  destruct (read_page E m (out, e) (n, t)) as [out1 e1].
  cbn [snd] in Hs, Hq.
  rewrite (read_pages_said_idle m pages out1 e1 Hq), Hs, Hq0.
  cbn [utterances flat_map app fst snd]. now rewrite <- app_assoc.
Qed.

Lemma init_tts_engine_fresh :
  said (init_tts_engine E) = [] /\ says (queue (init_tts_engine E)) = [].
Proof.
  unfold init_tts_engine.
  destruct (String.eqb _ "Windows"); [|destruct (String.eqb _ "Darwin")];
    split; reflexivity.
Qed.

(** C8: with a starting page [P], [read_text_aloud] utters exactly the
    pages numbered [P] or more, in the order of the list: for each, its
    number and then its text.  When no page is left, nothing is uttered
    and the last line printed is the report: "No pages found starting
    from page P." for a list that had pages, "No text to read." for the
    empty list.  The function returns in every case. *)
Theorem read_text_aloud_from_start_page
        (pages_text : list (Z * string)) (P : Z) (out : list string) :
  let kept := List.filter (fun p => (P <=? fst p)%Z) pages_text in
  let r := read_text_aloud E pages_text (Some P) out in
  said_by (snd r) = utterances kept
  /\ (pages_text = [] -> fst r = out ++ ["No text to read."])
  /\ (pages_text <> [] -> kept = [] ->
      fst r = fst (build_language_voice_map E (init_tts_engine E) out)
              ++ ["No pages found starting from page "
                  +:+ Py.str_of_int P +:+ "."])
  /\ (kept <> [] -> last (fst r) = Some "Finished reading all pages.").
Proof.
  intros kept r. subst r. unfold read_text_aloud.
  destruct pages_text as [|p0 rest] eqn:Epages.
  - subst kept. simpl. repeat split; try congruence.
  - fold kept.
    destruct (build_language_voice_map E (init_tts_engine E) out)
      as [out1 m] eqn:Ebuild.
    destruct init_tts_engine_fresh as [Hsaid Hqueue].
    destruct kept as [|k kept'] eqn:Ekept.
    + simpl. repeat split; try congruence.
    + pose proof (read_pages_said m (k :: kept') out1 (init_tts_engine E)
                    Hqueue ltac:(discriminate)) as Hs.
      destruct (fold_left (read_page E m) (k :: kept')
                          (out1, init_tts_engine E)) as [out2 e2].
      cbn [fst snd said_by] in *. rewrite Hsaid in Hs.
      repeat split; try congruence; [exact Hs|].
      intros _. unfold print. apply last_snoc.
Qed.

(** C10: when the chosen path does not end in ".pdf", whatever its case,
    [main] returns after printing a message, without having opened the
    file for extraction and without having started the speech engine;
    for a path that is not empty and exists, the message says that the
    file is not a PDF. *)
Theorem main_rejects_other_extensions (pdf_path : string) :
  chosen_path E = Some pdf_path ->
  Py.endswith (Py.lower pdf_path) ".pdf" = false ->
  let r := main E in
  snd r = Returned
  /\ opened (fst r) = []
  /\ tts (fst r) = None
  /\ (exists message, last (stdout (fst r)) = Some message)
  /\ (pdf_path <> "" -> path_exists E pdf_path = true ->
      last (stdout (fst r)) = Some "The selected file is not a PDF.").
Proof.
  intros Hpath Hext r. subst r. unfold main.
  assert (Hsel :
    (let '(out, p) :=
       match argv E with
       | _ :: arg :: _ => ([], Some arg)
       | _ =>
           (["No PDF path provided as an argument. Opening file chooser..."],
            choose_pdf_file E)
       end in p) = Some pdf_path).
  { unfold chosen_path in Hpath.
    destruct (argv E) as [|a0 [|a1 l]]; exact Hpath. }
  destruct (match argv E with
            | _ :: arg :: _ => ([], Some arg)
            | _ => (_, choose_pdf_file E)
            end) as [out p].
  subst p. destruct pdf_path as [|c s].
  - simpl. repeat split; eauto using last_snoc.
    intros Hne. now destruct Hne.
  - destruct (path_exists E (String c s)) eqn:Hex; cbn [negb].
    + rewrite Hext. cbn [negb fst snd stdout opened tts].
      unfold print. rewrite last_snoc. repeat split; eauto.
    + cbn [fst snd stdout opened tts].
      unfold print. rewrite last_snoc. repeat split; eauto. discriminate.
Qed.

End ReaderFacts.

Lemma main_rejects_other_extensions_witness :
  let r := main (sample_env "notes.txt") in
  snd r = Returned
  /\ opened (fst r) = []
  /\ tts (fst r) = None
  /\ last (stdout (fst r)) = Some "The selected file is not a PDF.".
Proof.
  destruct (main_rejects_other_extensions (sample_env "notes.txt") "notes.txt"
              eq_refl eq_refl) as (Hret & Hopened & Htts & _ & Hmsg).
  split; [exact Hret|]. split; [exact Hopened|]. split; [exact Htts|].
  apply Hmsg; [discriminate | reflexivity].
Defined.

(** C6 on the sample machine, whose voice map has an entry for French
    only: the second page is detected as German, which has no entry; the
    program prints that it uses the default, yet the page is uttered
    with the French voice the first page had set, not with the voice the
    driver started with, and no voice was ever mapped to the default
    language. *)
Theorem unmapped_language_keeps_previous_voice :
  let engine := init_tts_engine (sample_env "book.pdf") in
  let lang_voice_map :=
    snd (build_language_voice_map (sample_env "book.pdf") engine []) in
  let r := read_text_aloud (sample_env "book.pdf") two_pages None [] in
  lang_voice_map !! "de" = None
  /\ lang_voice_map !! default_lang = None
  /\ lang_voice_map !! "fr" = Some (v_id thomas)
  /\ current_voice engine = v_id anna
  /\ In "No dedicated voice for language 'de', using default." (fst r)
  /\ option_map spoken (snd r)
     = Some [(v_id thomas, "Page 1"); (v_id thomas, "Bonjour tout le monde");
             (v_id thomas, "Page 2"); (v_id thomas, "Guten Tag zusammen")].
Proof.
  vm_compute. repeat split; try reflexivity.
  repeat (first [left; reflexivity | right]).
Qed.

(** C7 at a page of blanks: it is left out of the list, and nothing is
    printed for it, whereas a page with an empty text or none is left
    out with the [info] line. *)
Theorem blank_page_is_dropped_silently :
  extract_text_from_pdf (one_page_env (Some "   ")) "scan.pdf" []
  = Some ([], [])
  /\ extract_text_from_pdf (one_page_env (Some "")) "scan.pdf" []
     = Some (["[info] Page 1 has no extractable text (maybe scanned)."], [])
  /\ extract_text_from_pdf (one_page_env None) "scan.pdf" []
     = Some (["[info] Page 1 has no extractable text (maybe scanned)."], []).
Proof. repeat split. Qed.

End PdfReaderBotSpec.

(** ** pdf_annotator.py *)

Module PdfAnnotatorSpec.

Import PdfAnnotator.

Section AnnotatorFacts.

Context {content : Type}.

Variable fitz_open : string -> Document content + string.

Variable fitz_save :
  Document content -> string -> gmap string (file content)
  -> gmap string (file content) * option string.

Variable marker_rect_ok : Rect -> bool.

Abbreviation App := (App content).
Abbreviation Document := (Document content).
Abbreviation Page := (Page content).
Abbreviation handle := (handle fitz_open fitz_save marker_rect_ok).
Abbreviation play := (play fitz_open fitz_save marker_rect_ok).
Abbreviation run := (run fitz_open fitz_save marker_rect_ok).

(** *** The document and the page shown *)

Lemma showing_truthy (a : App) d k pg : showing a d k pg -> doc_truthy a = true.
Proof.
  intros (Hd & Hk & _). unfold doc_truthy. rewrite Hd.
  destruct d; [discriminate|reflexivity].
Qed.

Lemma getitem_shown (d : Document) k pg :
  d !! k = Some pg -> getitem d (Z.of_nat k) = Some (k, pg).
Proof.
  intros Hk. unfold getitem.
  assert (Hlt : (k < length d)%nat) by (eapply lookup_lt_Some; eauto).
  destruct (Z.ltb_spec (Z.of_nat k) (Z.of_nat (length d))) as [_|Hge]; [|lia].
  rewrite Z.mod_small by lia. rewrite Nat2Z.id, Hk. reflexivity.
Qed.

Lemma add_annot_annotated (d : Document) k pg an :
  d !! k = Some pg -> add_annot d k an = annotated d k pg an.
Proof.
  unfold add_annot, annotated. revert k.
  induction d as [|p d IH]; intros [|k] Hk; try discriminate; simpl in *.
  - now inversion Hk.
  - f_equal. now apply IH.
Qed.

Lemma render_page_doc (a : App) : doc (_render_page a) = doc a.
Proof.
  unfold _render_page. destruct (doc a) as [[|p d]|] eqn:E; exact E.
Qed.

(** After a render the window shows a page of the document, the one the
    clamped index names, at the zoom of the spin box. *)
Lemma render_page_shows (a : App) p d :
  doc a = Some (p :: d) ->
  let i := Z.max 0 (Z.min (page_index (state a))
                          (Z.of_nat (length (p :: d)) - 1)) in
  shown_page (_render_page a) = Some i
  /\ page_index (state (_render_page a)) = i
  /\ zoom (state (_render_page a)) = zoom_var a
  /\ (0 <= i <= Z.of_nat (length (p :: d)) - 1)%Z.
Proof.
  intros Hd i. unfold _render_page. rewrite Hd.
  repeat split; try reflexivity; subst i; simpl length; lia.
Qed.

(** Opening a document with pages shows its first page. *)
Lemma open_pdf_shows_first_page (a : App) file_path pg d :
  file_path <> "" -> fitz_open file_path = inl (pg :: d) ->
  showing (open_pdf fitz_open file_path a) (pg :: d) 0 pg
  /\ shown_page (open_pdf fitz_open file_path a) = Some 0%Z.
Proof.
  intros Hp Hopen. unfold open_pdf. destruct file_path; [congruence|].
  cbn [Py.truthy negb]. rewrite Hopen.
  match goal with |- context [_render_page ?s] => set (a1 := s) end.
  destruct (render_page_shows a1 pg d eq_refl) as (H1 & H2 & _ & _).
  assert (Hi : Z.max 0 (Z.min (page_index (state a1))
                              (Z.of_nat (length (pg :: d)) - 1)) = 0%Z).
  { subst a1. cbn [state set_state page_index set_page_index length]. lia. }
  rewrite Hi in H1, H2. unfold showing.
  rewrite render_page_doc, H2. repeat split. exact H1.
Qed.

(** *** C2: the coordinate mapping *)

Lemma canvas_to_pdf_nonzero (a : App) (x y : float) :
  PrimFloat.eqb (zoom (state a)) 0 = false ->
  _canvas_to_pdf a x y = Some (to_pdf (zoom (state a)) (x, y)).
Proof.
  intros Hz. unfold _canvas_to_pdf, Py.truediv. rewrite Hz. reflexivity.
Qed.

Lemma canvas_to_pdf_zero (a : App) (x y : float) :
  PrimFloat.eqb (zoom (state a)) 0 = true -> _canvas_to_pdf a x y = None.
Proof.
  intros Hz. unfold _canvas_to_pdf, Py.truediv. rewrite Hz. reflexivity.
Qed.

(** C2: for a zoom factor in effect that is not zero, the mapping returns
    the canvas point with both coordinates divided by it; and the zoom in
    effect after a render is the value of the spin box at that render. *)
Theorem canvas_to_pdf_divides (a : App) (x y : float) :
  PrimFloat.eqb (zoom (state a)) 0 = false ->
  _canvas_to_pdf a x y
  = Some (PrimFloat.div x (zoom (state a)), PrimFloat.div y (zoom (state a)))
  /\ (doc_truthy a = true ->
      PrimFloat.eqb (zoom_var a) 0 = false ->
      _canvas_to_pdf (_render_page a) x y
      = Some (PrimFloat.div x (zoom_var a), PrimFloat.div y (zoom_var a))).
Proof.
  intros Hz. split.
  - exact (canvas_to_pdf_nonzero a x y Hz).
  - intros Hdoc Hv. unfold doc_truthy in Hdoc.
    destruct (doc a) as [[|p d]|] eqn:Hd; try discriminate.
    destruct (render_page_shows a p d Hd) as (_ & _ & Hzoom & _).
    rewrite canvas_to_pdf_nonzero; rewrite Hzoom; [reflexivity | exact Hv].
Qed.

Lemma mapM_canvas_to_pdf (a : App) (pts : list point) :
  PrimFloat.eqb (zoom (state a)) 0 = false ->
  mapM (fun p => _canvas_to_pdf a (fst p) (snd p)) pts
  = Some (map (to_pdf (zoom (state a))) pts).
Proof.
  intros Hz. induction pts as [|[x y] pts IH]; [reflexivity|].
  cbn [mapM map fst snd]. rewrite IH, (canvas_to_pdf_nonzero a x y Hz).
  reflexivity.
Qed.

(** *** C3: a stroke *)

Lemma mouse_down_draw (a : App) x y answer :
  doc_truthy a = true -> tool_ (state a) = Draw ->
  handle a (MouseDown x y answer)
  = set_last_draw_point (Some (x, y)) (set_current_stroke_points [(x, y)] a).
Proof.
  intros Hdoc Htool. cbn [PdfAnnotator.handle]. unfold on_mouse_down.
  rewrite Hdoc, Htool. reflexivity.
Qed.

Lemma mouse_drag_draw (a : App) x y :
  doc_truthy a = true -> tool_ (state a) = Draw ->
  is_Some (_last_draw_point a) ->
  let a' := handle a (MouseDrag x y) in
  doc a' = doc a /\ state a' = state a
  /\ _current_stroke_points a' = _current_stroke_points a ++ [(x, y)]
  /\ is_Some (_last_draw_point a').
Proof.
  intros Hdoc Htool [[x0 y0] Hlast].
  cbn [PdfAnnotator.handle]. unfold on_mouse_drag.
  rewrite Hdoc, Htool, Hlast. cbn. eauto.
Qed.

Lemma mouse_drags_draw (drags : list point) : forall a : App,
  doc_truthy a = true -> tool_ (state a) = Draw ->
  is_Some (_last_draw_point a) ->
  doc (play a (drag_events drags)) = doc a
  /\ state (play a (drag_events drags)) = state a
  /\ _current_stroke_points (play a (drag_events drags))
     = _current_stroke_points a ++ drags.
Proof.
  induction drags as [|[x y] drags IH]; intros a Hdoc Htool Hlast.
  - simpl. now rewrite app_nil_r.
  - cbn [drag_events map PdfAnnotator.play fold_left fst snd].
    fold (drag_events drags).
    destruct (mouse_drag_draw a x y Hdoc Htool Hlast) as (Hd & Hs & Hp & Hl).
    set (a1 := handle a (MouseDrag x y)) in *.
    assert (Hdoc1 : doc_truthy a1 = true)
      by (unfold doc_truthy in *; now rewrite Hd).
    assert (Htool1 : tool_ (state a1) = Draw) by (now rewrite Hs).
    destruct (IH a1 Hdoc1 Htool1 Hl) as (Hd' & Hs' & Hp').
    unfold PdfAnnotator.play in Hd', Hs', Hp'.
    rewrite Hd', Hs', Hp', Hd, Hs, Hp. now rewrite <- app_assoc.
Qed.

Lemma mouse_up_draw (a : App) d k pg x y :
  showing a d k pg -> tool_ (state a) = Draw ->
  PrimFloat.eqb (zoom (state a)) 0 = false ->
  let ink := Ink [map (to_pdf (zoom (state a))) (_current_stroke_points a)]
                 (draw_width (state a)) in
  doc (handle a (MouseUp x y))
  = Some (if (length (_current_stroke_points a) <? 2)%nat then d
          else annotated d k pg ink).
Proof.
  intros Hshow Htool Hz ink.
  pose proof (showing_truthy a d k pg Hshow) as Htruthy.
  destruct Hshow as (Hd & Hk & Hi).
  cbn [PdfAnnotator.handle]. unfold on_mouse_up. rewrite Htruthy, Htool.
  cbn [negb]. unfold _finalize_draw_stroke. rewrite Hd.
  destruct d as [|p0 d0]; [discriminate|].
  destruct (length (_current_stroke_points a) <? 2)%nat.
  - cbn [fst]. now rewrite render_page_doc.
  - rewrite Hi, (getitem_shown _ _ _ Hk), (mapM_canvas_to_pdf a _ Hz).
    cbn [fst]. rewrite render_page_doc. cbn.
    now rewrite (add_annot_annotated _ _ _ _ Hk).
Qed.

(** C3: from a window that shows a page, with the draw tool and a zoom
    that is not zero, a press at [p0], drags over [drags] and a release
    record the points [p0 :: drags].  With fewer than two of them the
    document is as before: no annotation is added.  With two or more,
    the page shown gets exactly one more annotation, an ink annotation
    with one stroke: the recorded points in the order recorded, each
    divided by the zoom factor; the other pages are as before. *)
Theorem draw_gesture_commits (a : App) d k pg
        (p0 : point) (drags : list point) (pe : point) answer :
  showing a d k pg -> tool_ (state a) = Draw ->
  PrimFloat.eqb (zoom (state a)) 0 = false ->
  let recorded := p0 :: drags in
  let ink := Ink [map (to_pdf (zoom (state a))) recorded]
                 (draw_width (state a)) in
  let a' := play a (gesture p0 drags pe answer) in
  ((length recorded < 2)%nat -> doc a' = Some d)
  /\ ((2 <= length recorded)%nat -> doc a' = Some (annotated d k pg ink)).
Proof.
  intros Hshow Htool Hz recorded ink a'.
  pose proof (showing_truthy a d k pg Hshow) as Htruthy.
  destruct p0 as [x0 y0].
  subst a'. unfold gesture, PdfAnnotator.play.
  cbn [fold_left]. rewrite fold_left_app. cbn [fold_left fst snd].
  rewrite (mouse_down_draw a _ _ answer Htruthy Htool).
  set (a1 := set_last_draw_point _ _).
  assert (Hdoc1 : doc_truthy a1 = true) by exact Htruthy.
  assert (Htool1 : tool_ (state a1) = Draw) by exact Htool.
  assert (Hlast1 : is_Some (_last_draw_point a1)) by (subst a1; cbn; eauto).
  destruct (mouse_drags_draw drags a1 Hdoc1 Htool1 Hlast1) as (Hd & Hs & Hp).
  fold (play a1 (drag_events drags)).
  subst a1. cbn in Hd, Hs, Hp.
  remember (play _ (drag_events drags)) as a2 eqn:Ea2. clear Ea2.
  assert (Hshow2 : showing a2 d k pg).
  { destruct Hshow as (H1 & H2 & H3). unfold showing.
    rewrite Hd, Hs. auto. }
  assert (Htool2 : tool_ (state a2) = Draw) by (rewrite Hs; exact Htool).
  assert (Hz2 : PrimFloat.eqb (zoom (state a2)) 0 = false)
    by (rewrite Hs; exact Hz).
  rewrite (mouse_up_draw a2 d k pg (fst pe) (snd pe) Hshow2 Htool2 Hz2).
  rewrite Hp, Hs. fold recorded. fold ink.
  split; intros Hlen.
  - destruct (Nat.ltb_spec (length recorded) 2); [reflexivity|lia].
  - destruct (Nat.ltb_spec (length recorded) 2); [lia|reflexivity].
Qed.

(** *** C4: a highlight *)

Lemma add_highlight_rect_doc (a : App) d k pg (p q : point) :
  showing a d k pg -> on_canvas p -> on_canvas q ->
  let z := zoom (state a) in
  doc (fst (_add_highlight_rect marker_rect_ok
                                (fst p) (snd p) (fst q) (snd q) a))
  = Some (if PrimFloat.eqb z 0 then d
          else if marker_rect_ok (normalized_rect z p q)
               then annotated d k pg (HighlightAnnot (normalized_rect z p q))
               else d).
Proof.
  intros (Hd & Hk & Hi) [Hpx Hpy] [Hqx Hqy] z.
  unfold _add_highlight_rect. rewrite Hd.
  destruct d as [|p0 d0]; [discriminate|].
  rewrite Hi, (getitem_shown _ _ _ Hk).
  rewrite (PyFacts.sorted_pair _ _ Hpx Hqx), (PyFacts.sorted_pair _ _ Hpy Hqy).
  unfold _canvas_to_pdf, Py.truediv. fold z.
  destruct (PrimFloat.eqb z 0); cbn; [exact Hd|].
  fold (normalized_rect z p q).
  destruct (marker_rect_ok (normalized_rect z p q)); cbn; [|exact Hd].
  now rewrite (add_annot_annotated _ _ _ _ Hk).
Qed.

Lemma mouse_down_highlight (a : App) x y answer :
  doc_truthy a = true -> tool_ (state a) = Highlight ->
  doc (handle a (MouseDown x y answer)) = doc a
  /\ state (handle a (MouseDown x y answer)) = state a
  /\ _drag_start (handle a (MouseDown x y answer)) = Some (x, y).
Proof.
  intros Hdoc Htool. cbn [PdfAnnotator.handle]. unfold on_mouse_down.
  rewrite Hdoc, Htool. cbn. auto.
Qed.

Lemma mouse_drag_highlight (a : App) x y :
  tool_ (state a) = Highlight ->
  doc (handle a (MouseDrag x y)) = doc a
  /\ state (handle a (MouseDrag x y)) = state a
  /\ _drag_start (handle a (MouseDrag x y)) = _drag_start a.
Proof.
  intros Htool. cbn [PdfAnnotator.handle]. unfold on_mouse_drag.
  rewrite Htool. destruct (doc_truthy a); cbn [negb fst]; [|auto].
  destruct (_last_draw_point a) as [[? ?]|];
    destruct (_drag_start a) as [[x0 y0]|] eqn:Hs; cbn; auto;
    destruct (id_truthy (_current_highlight_rect_id a)); cbn; auto.
Qed.

Lemma mouse_drags_highlight (drags : list point) : forall a : App,
  tool_ (state a) = Highlight ->
  doc (play a (drag_events drags)) = doc a
  /\ state (play a (drag_events drags)) = state a
  /\ _drag_start (play a (drag_events drags)) = _drag_start a.
Proof.
  induction drags as [|[x y] drags IH]; intros a Htool; [now cbn|].
  cbn [drag_events map PdfAnnotator.play fold_left fst snd].
  fold (drag_events drags).
  destruct (mouse_drag_highlight a x y Htool) as (Hd & Hs & Hp).
  assert (Htool1 : tool_ (state (handle a (MouseDrag x y))) = Highlight)
    by (now rewrite Hs).
  destruct (IH _ Htool1) as (Hd' & Hs' & Hp').
  unfold PdfAnnotator.play in Hd', Hs', Hp'.
  now rewrite Hd', Hs', Hp', Hd, Hs, Hp.
Qed.

Lemma mouse_up_highlight (a : App) d k pg (p q : point) :
  showing a d k pg -> tool_ (state a) = Highlight ->
  _drag_start a = Some p -> on_canvas p -> on_canvas q ->
  let z := zoom (state a) in
  doc (handle a (MouseUp (fst q) (snd q)))
  = Some (if PrimFloat.eqb z 0 then d
          else if marker_rect_ok (normalized_rect z p q)
               then annotated d k pg (HighlightAnnot (normalized_rect z p q))
               else d).
Proof.
  intros Hshow Htool Hstart Hp Hq z.
  pose proof (showing_truthy a d k pg Hshow) as Htruthy.
  cbn [PdfAnnotator.handle]. unfold on_mouse_up.
  rewrite Htruthy, Htool, Hstart. destruct p as [x0 y0]. cbn [negb].
  match goal with
  | |- context [_add_highlight_rect _ x0 y0 _ _ ?s] => set (a1 := s)
  end.
  assert (Hshow1 : showing a1 d k pg).
  { destruct Hshow as (H1 & H2 & H3). subst a1.
    destruct (id_truthy _); cbn; repeat split; assumption. }
  assert (Hz1 : zoom (state a1) = z).
  { subst a1. destruct (id_truthy _); reflexivity. }
  pose proof (add_highlight_rect_doc a1 d k pg (x0, y0) q Hshow1 Hp Hq) as Hdoc.
  cbn [fst snd] in Hdoc. rewrite Hz1 in Hdoc.
  destruct (_add_highlight_rect marker_rect_ok x0 y0 (fst q) (snd q) a1)
    as [a2 [|e]]; cbn [fst] in *; [|exact Hdoc].
  now rewrite render_page_doc.
Qed.

Lemma highlight_gesture_doc (a : App) d k pg (p q : point) drags answer :
  showing a d k pg -> tool_ (state a) = Highlight ->
  on_canvas p -> on_canvas q ->
  let z := zoom (state a) in
  doc (play a (gesture p drags q answer))
  = Some (if PrimFloat.eqb z 0 then d
          else if marker_rect_ok (normalized_rect z p q)
               then annotated d k pg (HighlightAnnot (normalized_rect z p q))
               else d).
Proof.
  intros Hshow Htool Hp Hq z.
  pose proof (showing_truthy a d k pg Hshow) as Htruthy.
  unfold gesture, PdfAnnotator.play.
  cbn [fold_left]. rewrite fold_left_app. cbn [fold_left].
  destruct (mouse_down_highlight a (fst p) (snd p) answer Htruthy Htool)
    as (Hd1 & Hs1 & Hp1).
  remember (handle a (MouseDown (fst p) (snd p) answer)) as a1 eqn:Ea1.
  clear Ea1.
  assert (Htool1 : tool_ (state a1) = Highlight) by (now rewrite Hs1).
  destruct (mouse_drags_highlight drags a1 Htool1) as (Hd2 & Hs2 & Hp2).
  unfold PdfAnnotator.play in Hd2, Hs2, Hp2.
  remember (fold_left handle (drag_events drags) a1) as a2 eqn:Ea2.
  clear Ea2.
  assert (Hshow2 : showing a2 d k pg).
  { destruct Hshow as (H1 & H2 & H3). unfold showing.
    rewrite Hd2, Hs2, Hd1, Hs1. auto. }
  assert (Htool2 : tool_ (state a2) = Highlight) by (now rewrite Hs2).
  assert (Hstart2 : _drag_start a2 = Some p).
  { rewrite Hp2, Hp1. now destruct p. }
  rewrite (mouse_up_highlight a2 d k pg p q Hshow2 Htool2 Hstart2 Hp Hq).
  now rewrite Hs2, Hs1.
Qed.

Lemma normalized_rect_swap z (p q : point) :
  on_canvas p -> on_canvas q -> normalized_rect z p q = normalized_rect z q p.
Proof.
  intros [Hpx Hpy] [Hqx Hqy]. unfold normalized_rect.
  destruct (PyFacts.min_max_swap _ _ Hpx Hqx) as [-> ->].
  destruct (PyFacts.min_max_swap _ _ Hpy Hqy) as [-> ->].
  reflexivity.
Qed.

(** C4: from a window that shows a page, with the highlight tool, a drag
    from [p] to [q] and a drag from [q] to [p] leave the same document,
    whatever the zoom factor and the points dragged over on the way.
    When the zoom is not zero and PyMuPDF takes the rectangle, the page
    shown gets one highlight annotation whose rectangle has the smaller
    and the larger coordinate of the two points on each axis, divided by
    the zoom factor. *)
Theorem highlight_direction_irrelevant (a : App) d k pg (p q : point)
        (drags drags' : list point) answer answer' :
  showing a d k pg -> tool_ (state a) = Highlight ->
  on_canvas p -> on_canvas q ->
  let z := zoom (state a) in
  doc (play a (gesture p drags q answer))
  = doc (play a (gesture q drags' p answer'))
  /\ normalized_rect z p q = normalized_rect z q p
  /\ (PrimFloat.eqb z 0 = false ->
      marker_rect_ok (normalized_rect z p q) = true ->
      doc (play a (gesture p drags q answer))
      = Some (annotated d k pg (HighlightAnnot (normalized_rect z p q)))).
Proof.
  intros Hshow Htool Hp Hq z.
  pose proof (highlight_gesture_doc a d k pg p q drags answer
                Hshow Htool Hp Hq) as H1.
  pose proof (highlight_gesture_doc a d k pg q p drags' answer'
                Hshow Htool Hq Hp) as H2.
  cbn zeta in H1, H2. fold z in H1, H2.
  pose proof (normalized_rect_swap z p q Hp Hq) as Hswap.
  split; [|split].
  - rewrite H1, H2, Hswap. reflexivity.
  - exact Hswap.
  - intros Hz Hok. rewrite H1, Hz, Hok. reflexivity.
Qed.

(** *** C9: navigation *)

Lemma nav_step (a : App) d ev :
  doc a = Some d -> d <> [] -> nav ev ->
  doc (handle a ev) = Some d
  /\ exists i,
       shown_page (handle a ev) = Some i
       /\ page_index (state (handle a ev)) = i
       /\ (0 <= i <= Z.of_nat (length d) - 1)%Z.
Proof.
  intros Hd Hne Hnav. destruct d as [|p d]; [congruence|].
  assert (Htruthy : doc_truthy a = true) by (unfold doc_truthy; now rewrite Hd).
  destruct Hnav as [-> | ->]; cbn [PdfAnnotator.handle];
    unfold prev_page, next_page; rewrite Htruthy; cbn [negb];
    (split; [now rewrite render_page_doc|]).
  - edestruct (render_page_shows
                 (set_state (set_page_index (page_index (state a) - 1)
                                            (state a)) a) p d Hd)
      as (H1 & H2 & _ & H4). eauto.
  - edestruct (render_page_shows
                 (set_state (set_page_index (page_index (state a) + 1)
                                            (state a)) a) p d Hd)
      as (H1 & H2 & _ & H4). eauto.
Qed.

Lemma nav_run (evs : list event) : forall (a : App) d,
  doc a = Some d -> d <> [] -> Forall nav evs ->
  Forall (in_range d) (run a evs).
Proof.
  induction evs as [|ev evs IH]; intros a d Hd Hne Hall; [constructor|].
  inversion Hall as [|? ? Hev Hrest]; subst.
  destruct (nav_step a d ev Hd Hne Hev) as [Hd' Hi].
  cbn [PdfAnnotator.run]. constructor; [split; assumption|].
  now apply IH.
Qed.

(** C9: with a document open, after each event of any sequence of prev
    and next events the canvas shows the page the page index names, and
    that index is between 0 and the page count less one.  Prev on the
    first page shows the first page again, next on the last page the
    last. *)
Theorem navigation_clamps (a : App) d (evs : list event) :
  doc a = Some d -> d <> [] -> Forall nav evs ->
  Forall (in_range d) (run a evs)
  /\ (page_index (state a) = 0%Z ->
      shown_page (prev_page a) = Some 0%Z
      /\ page_index (state (prev_page a)) = 0%Z)
  /\ (page_index (state a) = (Z.of_nat (length d) - 1)%Z ->
      shown_page (next_page a) = Some (Z.of_nat (length d) - 1)%Z
      /\ page_index (state (next_page a)) = (Z.of_nat (length d) - 1)%Z).
Proof.
  intros Hd Hne Hall. split; [now apply nav_run|].
  destruct d as [|p d]; [congruence|].
  assert (Htruthy : doc_truthy a = true) by (unfold doc_truthy; now rewrite Hd).
  unfold prev_page, next_page. rewrite Htruthy. cbn [negb].
  split; intros Hi.
  - destruct (render_page_shows
                (set_state (set_page_index (page_index (state a) - 1)
                                           (state a)) a) p d Hd)
      as (H1 & H2 & _ & _).
    rewrite H1, H2. cbn [state set_state page_index set_page_index].
    rewrite Hi. cbn [length]. split; f_equal; lia.
  - destruct (render_page_shows
                (set_state (set_page_index (page_index (state a) + 1)
                                           (state a)) a) p d Hd)
      as (H1 & H2 & _ & _).
    rewrite H1, H2. cbn [state set_state page_index set_page_index].
    rewrite Hi. cbn [length]. split; f_equal; lia.
Qed.

(** *** C5: saving and opening *)

(** C5, as the code has it: with a document open and a path chosen,
    [save_as] makes one call of [Document.save] with the whole document
    in memory and returns normally whatever the call does.  The files
    are left as that call left them: when it succeeds, and PyMuPDF then
    has written the whole document, the chosen path holds the whole
    document and a box says so; when it raises, a box shows the failure
    and [save_as] removes nothing.  A failure to open is shown in a box
    as well, and the window goes on with the state it had. *)
Theorem save_as_reports (a : App) d (out_path : string) :
  (forall d' p fs fs',
     fitz_save d' p fs = (fs', None) -> fs' = <[p := Whole d']> fs) ->
  doc a = Some d -> d <> [] -> pdf_path a <> None -> out_path <> "" ->
  let r := save_as fitz_save out_path a in
  snd r = Returned
  /\ doc (fst r) = Some d
  /\ files (fst r) = fst (fitz_save d out_path (files a))
  /\ match snd (fitz_save d out_path (files a)) with
     | None =>
         files (fst r) = <[out_path := Whole d]> (files a)
         /\ dialogs (fst r)
            = dialogs a ++ [showinfo "Saved" ("Saved annotated PDF:" +:+ Py.nl
                                              +:+ out_path)]
     | Some e => dialogs (fst r) = dialogs a ++ [showerror "Save failed" e]
     end
  /\ (forall file_path e,
        file_path <> "" -> fitz_open file_path = inr e ->
        open_pdf fitz_open file_path a
        = set_dialogs (dialogs a ++ [showerror "Open failed" e]) a).
Proof.
  intros Hlib Hd Hne Hpath Hout r. subst r. unfold save_as. rewrite Hd.
  destruct d as [|p d]; [congruence|].
  destruct (pdf_path a) as [pp|]; [|congruence].
  destruct out_path as [|c s]; [congruence|]. cbn [Py.truthy negb].
  destruct (fitz_save (p :: d) (String c s) (files a)) as [fs [e|]] eqn:Esave;
    cbn [fst snd].
  - repeat split; try reflexivity; try exact Hd.
    intros [|c' s'] e' Hp Hopen; [congruence|].
    unfold open_pdf. cbn [Py.truthy negb]. now rewrite Hopen.
  - repeat split; try reflexivity; try exact Hd.
    + cbn. now apply Hlib.
    + intros [|c' s'] e' Hp Hopen; [congruence|].
      unfold open_pdf. cbn [Py.truthy negb]. now rewrite Hopen.
Qed.

End AnnotatorFacts.

Lemma canvas_to_pdf_divides_witness :
  _canvas_to_pdf sample_app 30 45 = Some (20%float, 30%float).
Proof.
  exact (proj1 (canvas_to_pdf_divides sample_app 30 45 eq_refl)).
Defined.

Lemma draw_gesture_commits_witness :
  doc (play sample_open sample_save any_rect sample_app
            (gesture (50, 50)%float [(30, 20)%float] (10, 10)%float None))
  = Some (annotated sample_doc 0 blank_page
            (Ink [[to_pdf 1.5 (50, 50)%float; to_pdf 1.5 (30, 20)%float]] 2)).
Proof.
  refine (proj2 (draw_gesture_commits sample_open sample_save any_rect
                   sample_app sample_doc 0 blank_page
                   (50, 50)%float [(30, 20)%float] (10, 10)%float None
                   (conj eq_refl (conj eq_refl eq_refl)) eq_refl eq_refl) _).
  cbn. lia.
Defined.

Lemma highlight_direction_irrelevant_witness :
  doc (play sample_open sample_save any_rect highlighting_app
            (gesture (50, 50)%float [] (10, 10)%float None))
  = doc (play sample_open sample_save any_rect highlighting_app
              (gesture (10, 10)%float [] (50, 50)%float None)).
Proof.
  exact (proj1 (highlight_direction_irrelevant sample_open sample_save any_rect
                  highlighting_app sample_doc 0 blank_page
                  (50, 50)%float (10, 10)%float [] [] None None
                  (conj eq_refl (conj eq_refl eq_refl)) eq_refl
                  (conj eq_refl eq_refl) (conj eq_refl eq_refl))).
Defined.

Lemma navigation_clamps_witness :
  Forall (in_range sample_doc)
         (run sample_open sample_save any_rect sample_app
              [Prev; Next; Next; Next; Next]).
Proof.
  refine (proj1 (navigation_clamps sample_open sample_save any_rect
                   sample_app sample_doc [Prev; Next; Next; Next; Next]
                   eq_refl _ _)).
  - discriminate.
  - repeat (constructor; [unfold nav; auto|]). constructor.
Defined.

Lemma save_as_reports_witness :
  (files (fst (save_as sample_save "out.pdf" sample_app))
   = <["out.pdf" := Whole sample_doc]> (files sample_app)
   /\ dialogs (fst (save_as sample_save "out.pdf" sample_app))
      = [showinfo "Saved" ("Saved annotated PDF:" +:+ Py.nl +:+ "out.pdf")])
  /\ snd (save_as disk_full_save "out.pdf" sample_app) = Returned
  /\ dialogs (fst (save_as disk_full_save "out.pdf" sample_app))
     = [showerror "Save failed" "No space left on device"].
Proof.
  assert (Hwhole : forall d' p fs fs',
            sample_save d' p fs = (fs', None) -> fs' = <[p := Whole d']> fs).
  { intros d' p fs fs' H. now inversion H. }
  assert (Hfull : forall d' p fs fs',
            disk_full_save d' p fs = (fs', None) -> fs' = <[p := Whole d']> fs).
  { intros d' p fs fs' H. discriminate H. }
  destruct (save_as_reports sample_open sample_save sample_app sample_doc
              "out.pdf" Hwhole eq_refl ltac:(discriminate) ltac:(discriminate)
              ltac:(discriminate))
    as (_ & _ & _ & Hsaved & _).
  destruct (save_as_reports sample_open disk_full_save sample_app sample_doc
              "out.pdf" Hfull eq_refl ltac:(discriminate) ltac:(discriminate)
              ltac:(discriminate))
    as (Hret & _ & _ & Hbox & _).
  split; [exact Hsaved|]. split; [exact Hret | exact Hbox].
Defined.

(** C5 as stated fails on a disk that fills up: the failure is shown and
    the session goes on, but the chosen path keeps the bytes written
    before the failure. *)
Lemma save_as_leaves_partial_file :
  snd (save_as disk_full_save "out.pdf" sample_app) = Returned
  /\ dialogs (fst (save_as disk_full_save "out.pdf" sample_app))
     = [showerror "Save failed" "No space left on device"]
  /\ files (fst (save_as disk_full_save "out.pdf" sample_app)) !! "out.pdf"
     = Some (Partial sample_doc 4096).
Proof. vm_compute. repeat split. Qed.

End PdfAnnotatorSpec.

(** * Part III: more of what the programs do *)

(** ** merge_pdfs.py, beyond the write *)

Module MergePdfsMore.

Import MergePdfs.

Section MergerMore.

Context {page : Type}.

Variables INPUT_DIR OUTPUT_DIR : string.

Abbreviation path := (path page).
Abbreviation effect := (effect page).

Lemma append_loop_trace_readable (files : list path) : forall tr merger,
  Forall readable files ->
  fst (append_loop files tr merger) = tr ++ map listed files.
Proof.
  induction files as [|f files IH]; intros tr merger Hall; simpl.
  - now rewrite app_nil_r.
  - inversion Hall as [|? ? Hf Hrest]; subst. unfold readable in Hf.
    destruct (opens_as f); [|contradiction].
    rewrite IH by exact Hrest. now rewrite <- app_assoc.
Qed.

Lemma append_loop_trace (files : list path) : forall tr merger,
  fst (append_loop files tr merger) = tr ++ map listed (upto_unreadable files).
Proof.
  induction files as [|f files IH]; intros tr merger; simpl.
  - now rewrite app_nil_r.
  - destruct (opens_as f); simpl.
    + rewrite IH. now rewrite <- app_assoc.
    + reflexivity.
Qed.

(** X1: when every matching file can be read and there is at least one,
    the run is, in this order: the output directory is made, the header
    and then one line per file are printed in the order the files are
    merged, the single write follows, then the closing line, and the
    merger is closed last. *)
Theorem merge_pdfs_success_trace (output_name : string) (dir : list path) :
  Forall readable (glob_pdf dir) -> glob_pdf dir <> [] ->
  let files := Py.sorted path_lt (glob_pdf dir) in
  let output_path := OUTPUT_DIR +:+ "/" +:+ output_name in
  merge_pdfs INPUT_DIR OUTPUT_DIR output_name dir
  = ([Mkdir OUTPUT_DIR; Print "Merging PDFs in this order:"]
     ++ map listed files
     ++ [Write output_path (concat (map pages_of files));
         Print (Py.nl +:+ "Done! Merged file saved as: " +:+ output_path);
         Close],
     Returned).
Proof.
  intros Hall Hne files output_path.
  assert (Hfiles : Forall readable files).
  { eapply Permutation_Forall; [|exact Hall].
    apply MergePdfsSpec.sorted_files_Permutation. }
  unfold merge_pdfs. fold files.
  destruct files as [|f rest] eqn:Ef.
  - destruct Hne. now apply (proj1 (PyFacts.sorted_nil_iff path_lt _)).
  - pose proof (append_loop_trace_readable (f :: rest)
                  [Mkdir OUTPUT_DIR; Print "Merging PDFs in this order:"]
                  [] Hfiles) as Htr.
    destruct (MergePdfsSpec.append_loop_readable (f :: rest)
                [Mkdir OUTPUT_DIR; Print "Merging PDFs in this order:"]
                [] Hfiles) as (tr' & Heq & _).
    rewrite Heq in Htr |- *. cbn [fst] in Htr. subst tr'.
    cbn [app]. reflexivity.
Qed.

(** X2: when a matching file cannot be read, the run raises after having
    made the output directory and printed the files it got to, the last
    of them being the first unreadable one in name order; it writes
    nothing, prints no closing line, and still closes the merger. *)
Theorem merge_pdfs_abort_trace (output_name : string) (dir : list path) :
  ~ Forall readable (glob_pdf dir) ->
  let files := Py.sorted path_lt (glob_pdf dir) in
  merge_pdfs INPUT_DIR OUTPUT_DIR output_name dir
  = ([Mkdir OUTPUT_DIR; Print "Merging PDFs in this order:"]
     ++ map listed (upto_unreadable files) ++ [Close],
     Raised).
Proof.
  intros Hnot files.
  assert (Hfiles : ~ Forall readable files).
  { intros Hall. apply Hnot.
    eapply Permutation_Forall; [|exact Hall].
    symmetry. apply MergePdfsSpec.sorted_files_Permutation. }
  unfold merge_pdfs. fold files.
  destruct files as [|f rest] eqn:Ef.
  - destruct Hfiles. constructor.
  - pose proof (append_loop_trace (f :: rest)
                  [Mkdir OUTPUT_DIR; Print "Merging PDFs in this order:"] [])
      as Htr.
    pose proof (MergePdfsSpec.append_loop_unreadable (f :: rest)
                  [Mkdir OUTPUT_DIR; Print "Merging PDFs in this order:"]
                  [] Hfiles) as Hnone.
    destruct (append_loop (f :: rest) _ []) as [tr o].
    cbn [fst snd] in Htr, Hnone. subst tr o.
    cbn [app]. reflexivity.
Qed.

(** Entries of a directory are told apart by their names. *)
Lemma distinct_names (l : list path) : forall p q,
  List.NoDup (map name l) -> In p l -> In q l -> name p = name q -> p = q.
Proof.
  induction l as [|a l IH]; intros p q Hnd Hp Hq Hname; [contradiction|].
  simpl in Hnd. inversion Hnd as [|? ? Hnotin Hnd']; subst.
  assert (Hin : forall x, In x l -> In (name x) (map name l))
    by (intros x Hx; now apply in_map).
  destruct Hp as [-> | Hp], Hq as [-> | Hq]; auto.
  - destruct Hnotin. rewrite Hname. now apply Hin.
  - destruct Hnotin. rewrite <- Hname. now apply Hin.
Qed.

(** Two lists in name order that hold the same entries are equal. *)
Lemma sorted_unique (l1 : list path) : forall l2,
  List.NoDup (map name l1) ->
  StronglySorted name_le l1 -> StronglySorted name_le l2 ->
  Permutation l1 l2 -> l1 = l2.
Proof.
  induction l1 as [|a l1 IH]; intros l2 Hnd Hs1 Hs2 Hperm.
  - now apply Permutation_nil in Hperm.
  - destruct l2 as [|b l2].
    { symmetry in Hperm. now apply Permutation_nil in Hperm. }
    inversion Hs1 as [|? ? Hs1' Ha]; subst.
    inversion Hs2 as [|? ? Hs2' Hb]; subst.
    assert (Hab : a = b).
    { assert (Hbin : In b (a :: l1))
        by (eapply Permutation_in; [symmetry; exact Hperm | now left]).
      assert (Hain : In a (b :: l2))
        by (eapply Permutation_in; [exact Hperm | now left]).
      destruct Hbin as [Heq | Hbin]; [exact Heq|].
      destruct Hain as [Heq | Hain]; [now symmetry|].
      rewrite List.Forall_forall in Ha, Hb.
      apply (distinct_names (a :: l1) a b Hnd); [now left | now right|].
      apply String.leb_antisym; [apply Ha, Hbin | apply Hb, Hain]. }
    subst b. f_equal. apply IH.
    + simpl in Hnd. now inversion Hnd.
    + exact Hs1'.
    + exact Hs2'.
    + eapply Permutation_cons_inv. exact Hperm.
Qed.

(** X3: the run depends on the matching entries only, not on the order in
    which the OS lists the directory nor on the other files in it: two
    listings with the same matching entries, of distinct names, give
    the same effects and the same result. *)
Theorem merge_pdfs_listing_irrelevant (output_name : string)
        (dir dir' : list path) :
  List.NoDup (map name (glob_pdf dir)) ->
  Permutation (glob_pdf dir) (glob_pdf dir') ->
  merge_pdfs INPUT_DIR OUTPUT_DIR output_name dir
  = merge_pdfs INPUT_DIR OUTPUT_DIR output_name dir'.
Proof.
  intros Hnd Hperm.
  assert (Heq : Py.sorted path_lt (glob_pdf dir)
                = Py.sorted path_lt (glob_pdf dir')).
  { apply sorted_unique.
    - eapply Permutation_NoDup; [|exact Hnd].
      apply Permutation_map, MergePdfsSpec.sorted_files_Permutation.
    - apply MergePdfsSpec.sorted_files_StronglySorted.
    - apply MergePdfsSpec.sorted_files_StronglySorted.
    - rewrite <- (MergePdfsSpec.sorted_files_Permutation (glob_pdf dir)).
      rewrite <- (MergePdfsSpec.sorted_files_Permutation (glob_pdf dir')).
      exact Hperm. }
  unfold merge_pdfs. now rewrite Heq.
Qed.

End MergerMore.

Lemma merge_pdfs_success_trace_witness :
  merge_pdfs "pdfs" "output" "merged.pdf" sample_dir
  = ([Mkdir "output"; Print "Merging PDFs in this order:";
      Print "  - a.pdf"; Print "  - b.pdf";
      Write "output/merged.pdf" [10; 20; 21];
      Print (Py.nl +:+ "Done! Merged file saved as: output/merged.pdf");
      Close],
     Returned).
Proof.
  refine (merge_pdfs_success_trace "pdfs" "output" "merged.pdf" sample_dir _ _).
  - repeat constructor.
  - discriminate.
Defined.

Lemma merge_pdfs_abort_trace_witness :
  merge_pdfs "pdfs" "output" "merged.pdf" mixed_dir
  = ([Mkdir "output"; Print "Merging PDFs in this order:";
      Print "  - a.pdf"; Print "  - b.pdf"; Close],
     Raised).
Proof.
  refine (merge_pdfs_abort_trace "pdfs" "output" "merged.pdf" mixed_dir _).
  intros Hall. inversion Hall as [|? ? _ Hrest]; subst.
  inversion Hrest as [|? ? Hb _]; subst. exact Hb.
Defined.

Lemma merge_pdfs_listing_irrelevant_witness :
  merge_pdfs "pdfs" "output" "merged.pdf" sample_dir
  = merge_pdfs "pdfs" "output" "merged.pdf" (rev sample_dir).
Proof.
  refine (merge_pdfs_listing_irrelevant "pdfs" "output" "merged.pdf"
            sample_dir (rev sample_dir) _ _).
  - repeat constructor; cbn; intuition discriminate.
  - apply perm_swap.
Defined.

End MergePdfsMore.

(** ** pdf-reader-bot.py, beyond the page filter *)

Module PdfReaderBotMore.

Import PdfReaderBot.

(** *** The cleanup of a page's text *)

Lemma list_ascii_app s1 s2 :
  list_ascii_of_string (s1 +:+ s2)
  = list_ascii_of_string s1 ++ list_ascii_of_string s2.
Proof.
  induction s1 as [|c s1 IH]; [reflexivity|].
  change (c :: list_ascii_of_string (s1 +:+ s2)
          = c :: (list_ascii_of_string s1 ++ list_ascii_of_string s2)).
  now f_equal.
Qed.

Lemma rev_string_involutive s : Py.rev_string (Py.rev_string s) = s.
Proof.
  unfold Py.rev_string.
  now rewrite list_ascii_of_string_of_list_ascii, rev_involutive,
    string_of_list_ascii_of_string.
Qed.

(** A word ends in a character that is not white space. *)
Lemma word_last w :
  Py.is_word w = true ->
  exists l c, list_ascii_of_string w = l ++ [c] /\ Py.isspace c = false.
Proof.
  unfold Py.is_word. intros H. apply andb_prop in H as [Ht Hn].
  induction w as [|a w IH]; [discriminate|].
  simpl in Hn. apply andb_prop in Hn as [Ha Hn].
  destruct w as [|b w].
  - exists [], a. split; [reflexivity|]. now destruct (Py.isspace a).
  - destruct (IH eq_refl Hn) as (l & c & Hl & Hc).
    exists (a :: l), c. split; [|exact Hc].
    change (a :: list_ascii_of_string (String b w) = a :: (l ++ [c])).
    now f_equal.
Qed.

Lemma join_cons sep w w2 ws :
  Py.join sep (w :: w2 :: ws) = w +:+ (sep +:+ Py.join sep (w2 :: ws)).
Proof. reflexivity. Qed.

(** Words joined end in a character that is not white space. *)
Lemma join_last sep ws :
  ws <> [] -> Forall (fun x => Py.is_word x = true) ws ->
  exists l c,
    list_ascii_of_string (Py.join sep ws) = l ++ [c] /\ Py.isspace c = false.
Proof.
  intros Hne Hall. induction Hall as [|w ws Hw Hall IH]; [congruence|].
  destruct ws as [|w2 ws].
  - now apply word_last.
  - destruct (IH ltac:(discriminate)) as (l & c & Hl & Hc).
    exists (list_ascii_of_string w ++ list_ascii_of_string sep ++ l), c.
    split; [|exact Hc].
    rewrite join_cons, !list_ascii_app, Hl. now rewrite <- !app_assoc.
Qed.

(** Words joined start with a character that is not white space. *)
Lemma join_first sep ws :
  ws <> [] -> Forall (fun x => Py.is_word x = true) ws ->
  exists c s, Py.join sep ws = String c s /\ Py.isspace c = false.
Proof.
  intros Hne Hall. destruct Hall as [|w ws Hw Hall]; [congruence|].
  unfold Py.is_word in Hw. apply andb_prop in Hw as [Ht Hn].
  destruct w as [|c w]; [discriminate|].
  simpl in Hn. apply andb_prop in Hn as [Hc _].
  exists c. destruct ws as [|w2 ws].
  - exists w. split; [reflexivity|]. now destruct (Py.isspace c).
  - exists (w +:+ (sep +:+ Py.join sep (w2 :: ws))).
    split; [reflexivity|]. now destruct (Py.isspace c).
Qed.

Lemma strip_join_words ws :
  Forall (fun x => Py.is_word x = true) ws ->
  Py.strip (Py.join " " ws) = Py.join " " ws.
Proof.
  intros Hall. destruct ws as [|w ws]; [reflexivity|].
  destruct (join_first " " (w :: ws) ltac:(discriminate) Hall)
    as (c & s & Hs & Hc).
  destruct (join_last " " (w :: ws) ltac:(discriminate) Hall)
    as (l & c' & Hl & Hc').
  unfold Py.strip.
  assert (H1 : Py.lstrip (Py.join " " (w :: ws)) = Py.join " " (w :: ws)).
  { rewrite Hs. simpl. now rewrite Hc. }
  rewrite H1.
  assert (H2 : Py.lstrip (Py.rev_string (Py.join " " (w :: ws)))
               = Py.rev_string (Py.join " " (w :: ws))).
  { unfold Py.rev_string. rewrite Hl, rev_app_distr. simpl. now rewrite Hc'. }
  rewrite H2. apply rev_string_involutive.
Qed.

(** X4: the cleanup [" ".join(text.split())] of line 114 keeps the words
    of the text and yields a text that the cleanup leaves as it is and
    that has no white space at either end, so [strip()] changes nothing
    on it; the test [if cleaned_text.strip()] holds exactly when the
    text has a character that is not white space. *)
Theorem cleanup_normal_form (text : string) :
  let cleaned_text := Py.join " " (Py.split text) in
  Py.split cleaned_text = Py.split text
  /\ Py.join " " (Py.split cleaned_text) = cleaned_text
  /\ Py.strip cleaned_text = cleaned_text
  /\ Py.truthy (Py.strip cleaned_text) = negb (Py.blank text).
Proof.
  intros cleaned_text. subst cleaned_text.
  split; [apply PyFacts.cleanup_words|].
  split; [now rewrite PyFacts.cleanup_words|].
  split; [apply strip_join_words, PyFacts.split_words|].
  rewrite PyFacts.strip_truthy. f_equal.
  destruct (Py.blank text) eqn:Hb.
  - apply PyFacts.split_nil in Hb. now rewrite Hb.
  - apply PyFacts.join_words_not_blank; [|apply PyFacts.split_words].
    intros Hnil. apply PyFacts.split_nil in Hnil. congruence.
Qed.

(** *** The voice map *)

Lemma prefix_split s1 : forall s2,
  String.prefix s1 s2 = true -> exists r, s2 = s1 +:+ r.
Proof.
  induction s1 as [|a s1 IH]; intros s2 H.
  - now exists s2.
  - destruct s2 as [|b s2]; [discriminate|]. simpl in H.
    destruct (ascii_dec a b) as [->|]; [|discriminate].
    destruct (IH s2 H) as [r ->]. now exists r.
Qed.

(** A text with "french" in it has "en" and "fr" in it. *)
Lemma contains_french hay :
  Py.contains "french" hay = true ->
  Py.contains "en" hay = true /\ Py.contains "fr" hay = true.
Proof.
  induction hay as [|c hay IH]; [discriminate|].
  change (Py.contains "french" (String c hay))
    with (String.prefix "french" (String c hay) || Py.contains "french" hay).
  intros H. apply orb_prop in H as [H|H].
  - apply prefix_split in H as [r ->]. split; reflexivity.
  - destruct (IH H) as [Hen Hfr].
    change (Py.contains "en" (String c hay))
      with (String.prefix "en" (String c hay) || Py.contains "en" hay).
    change (Py.contains "fr" (String c hay))
      with (String.prefix "fr" (String c hay) || Py.contains "fr" hay).
    rewrite Hen, Hfr, !orb_true_r. auto.
Qed.

Lemma run_commands_rate (q : list command) : forall e,
  rate (fold_left run_command q e) = rate_after q (rate e).
Proof.
  induction q as [|c q IH]; intros e; simpl; [reflexivity|].
  rewrite IH. now destruct c.
Qed.

Lemma rate_after_app q1 q2 r :
  rate_after (q1 ++ q2) r = rate_after q2 (rate_after q1 r).
Proof. unfold rate_after. now rewrite fold_left_app. Qed.

Section ReaderMore.

Variable E : env.

(** *** Reading aloud *)

Lemma read_page_rate m out e n t :
  rate (snd (read_page E m (out, e) (n, t))) = rate_after (queue e) (rate e).
Proof.
  unfold read_page.
  destruct (detect_language_of_text E t _) as [out1 lang].
  destruct (m !! lang) as [w|] eqn:Hm.
  - rewrite Hm. destruct (Py.truthy w);
      destruct (String.eqb lang "fr"); cbn [snd];
      unfold runAndWait; rewrite run_commands_rate;
      cbn [queue push rate]; rewrite ?rate_after_app; reflexivity.
  - destruct (m !! default_lang) as [w|];
      [destruct (Py.truthy w)|];
      destruct (String.eqb default_lang "fr"); cbn [snd];
      unfold runAndWait; rewrite run_commands_rate;
      cbn [queue push rate]; rewrite ?rate_after_app; reflexivity.
Qed.

Lemma read_pages_voiced_idle m pages : forall out e,
  queue e = [] ->
  let e' := snd (fold_left (read_page E m) pages (out, e)) in
  spoken e' = spoken e ++ voiced E m (current_voice e) pages
  /\ rate e' = rate e /\ queue e' = [].
Proof.
  induction pages as [|[n t] pages IH]; intros out e Hidle.
  - cbn. now rewrite app_nil_r.
  - cbn [fold_left voiced].
    destruct (PdfReaderBotSpec.read_page_spoken E m out e n t) as [Hs Hv].
    destruct (PdfReaderBotSpec.read_page_said E m out e n t) as [_ Hq].
    pose proof (read_page_rate m out e n t) as Hr.
    destruct (read_page E m (out, e) (n, t)) as [out1 e1].
    cbn [snd] in Hs, Hv, Hq, Hr. rewrite Hidle in Hs, Hv, Hr.
    cbn in Hs, Hv, Hr.
    destruct (IH out1 e1 Hq) as (Hs' & Hr' & Hq').
    cbn zeta in Hs', Hr', Hq'.
    rewrite Hs', Hr', Hq', Hs, Hv, Hr. cbn zeta.
    now rewrite <- app_assoc.
Qed.

(** From the engine [init_tts_engine] hands out, whose queue holds the
    rate to set. *)
Lemma read_pages_voiced m p pages out :
  let e0 := init_tts_engine E in
  let e' := snd (fold_left (read_page E m) (p :: pages) (out, e0)) in
  spoken e' = voiced E m (current_voice e0) (p :: pages)
  /\ rate e' = (rate e0 - 20)%Z /\ queue e' = [].
Proof.
  intros e0 e'. subst e'. destruct p as [n t]. cbn [fold_left voiced].
  destruct (PdfReaderBotSpec.read_page_spoken E m out e0 n t) as [Hs Hv].
  destruct (PdfReaderBotSpec.read_page_said E m out e0 n t) as [_ Hq].
  pose proof (read_page_rate m out e0 n t) as Hr.
  destruct (read_page E m (out, e0) (n, t)) as [out1 e1].
  cbn [snd] in Hs, Hv, Hq, Hr.
  assert (H0 : queue e0 = [SetRate (rate e0 - 20)] /\ spoken e0 = []).
  { subst e0. unfold init_tts_engine.
    destruct (String.eqb _ "Windows"); [|destruct (String.eqb _ "Darwin")];
      split; reflexivity. }
  destruct H0 as [Hq0 Hs0]. rewrite Hq0 in Hs, Hv, Hr. rewrite Hs0 in Hs.
  cbn in Hs, Hv, Hr.
  destruct (read_pages_voiced_idle m pages out1 e1 Hq) as (Hs' & Hr' & Hq').
  cbn zeta in Hs', Hr', Hq'.
  rewrite Hs', Hr', Hq', Hs, Hv, Hr. cbn zeta. auto.
Qed.

(** X9: for a list with pages, [read_text_aloud] starts one engine and
    utters, for each page left by the starting-page filter and in their
    order, the page's number and then its text, both with one voice: the
    voice mapped to the page's detected language, else the voice mapped
    to "en", else the voice in effect before the page (for the first
    page, the driver's).  Once a page has been read the rate is 20 below
    the driver's and nothing is left in the queue. *)
Theorem read_text_aloud_voices (pages_text : list (Z * string))
        (start_page : option Z) (out : list string) :
  pages_text <> [] ->
  let e0 := init_tts_engine E in
  let lang_voice_map := snd (build_language_voice_map E e0 out) in
  let kept := from_start start_page pages_text in
  exists e,
    snd (read_text_aloud E pages_text start_page out) = Some e
    /\ spoken e = voiced E lang_voice_map (current_voice e0) kept
    /\ (kept <> [] -> rate e = (rate e0 - 20)%Z /\ queue e = []).
Proof.
  intros Hne e0 lang_voice_map kept.
  unfold read_text_aloud. destruct pages_text as [|p0 rest]; [congruence|].
  fold e0. subst lang_voice_map.
  destruct (build_language_voice_map E e0 out) as [out1 m]. cbn [snd].
  assert (Hfresh : spoken e0 = []).
  { subst e0. unfold init_tts_engine.
    destruct (String.eqb _ "Windows"); [|destruct (String.eqb _ "Darwin")];
      reflexivity. }
  destruct start_page as [P|]; cbn [from_start] in kept.
  - fold kept. destruct kept as [|k kept'] eqn:Ek.
    + exists e0. cbn [snd voiced]. repeat split; try assumption; congruence.
    + destruct (read_pages_voiced m k kept' out1) as (Hs & Hr & Hq).
      cbn zeta in Hs, Hr, Hq. fold e0 in Hs, Hr, Hq.
      destruct (fold_left (read_page E m) (k :: kept') (out1, e0))
        as [out2 e2].
      exists e2. cbn [snd] in *. auto.
  - subst kept.
    destruct (read_pages_voiced m p0 rest out1) as (Hs & Hr & Hq).
    cbn zeta in Hs, Hr, Hq. fold e0 in Hs, Hr, Hq.
    destruct (fold_left (read_page E m) (p0 :: rest) (out1, e0))
      as [out2 e2].
    exists e2. cbn [snd] in *. auto.
Qed.

(** X10: a starting page that no page number is below changes nothing:
    the lines printed and the engine left are those of a run without a
    starting page. *)
Theorem start_page_below_all_pages (pages_text : list (Z * string))
        (P : Z) (out : list string) :
  Forall (fun p => (P <= fst p)%Z) pages_text ->
  read_text_aloud E pages_text (Some P) out
  = read_text_aloud E pages_text None out.
Proof.
  intros Hall.
  assert (Hkeep : List.filter (fun p => (P <=? fst p)%Z) pages_text
                  = pages_text).
  { induction Hall as [|p l Hp Hall IH]; [reflexivity|].
    cbn [List.filter]. destruct (Z.leb_spec P (fst p)); [|lia].
    now rewrite IH. }
  unfold read_text_aloud. destruct pages_text as [|p0 rest]; [reflexivity|].
  destruct (build_language_voice_map E (init_tts_engine E) out) as [out1 m].
  rewrite Hkeep. reflexivity.
Qed.

(** What is uttered, whatever the starting page. *)
Lemma read_text_aloud_said pages_text start_page out :
  said_by (snd (read_text_aloud E pages_text start_page out))
  = utterances (from_start start_page pages_text).
Proof.
  unfold read_text_aloud. destruct pages_text as [|p0 rest].
  - now destruct start_page.
  - destruct (build_language_voice_map E (init_tts_engine E) out)
      as [out1 m].
    destruct (PdfReaderBotSpec.init_tts_engine_fresh E) as [Hsaid Hqueue].
    destruct start_page as [P|]; cbn [from_start].
    + destruct (List.filter _ (p0 :: rest)) as [|k kept'] eqn:Ek.
      * cbn. exact Hsaid.
      * pose proof (PdfReaderBotSpec.read_pages_said E m (k :: kept') out1
                      (init_tts_engine E) Hqueue ltac:(discriminate)) as Hs.
        destruct (fold_left (read_page E m) (k :: kept')
                            (out1, init_tts_engine E)) as [out2 e2].
        cbn [snd said_by] in *. now rewrite Hs, Hsaid.
    + pose proof (PdfReaderBotSpec.read_pages_said E m (p0 :: rest) out1
                    (init_tts_engine E) Hqueue ltac:(discriminate)) as Hs.
      destruct (fold_left (read_page E m) (p0 :: rest)
                          (out1, init_tts_engine E)) as [out2 e2].
      cbn [snd said_by] in *. now rewrite Hs, Hsaid.
Qed.


(** X6: a first installed voice with "french" in its id or name, in
    whatever case, matches the English keywords as well, "en" being
    part of "french": it becomes the voice of both languages. *)
Theorem french_voice_taken_for_english (engine : engine) (out : list string)
        (v : voice) (rest : list voice) :
  voices engine = v :: rest ->
  Py.contains "french" (Py.lower (v_id v +:+ " " +:+ v_name v)) = true ->
  let lang_voice_map := snd (build_language_voice_map E engine out) in
  voice_matches v en_keywords = true
  /\ lang_voice_map !! "en" = Some (v_id v)
  /\ lang_voice_map !! "fr" = Some (v_id v).
Proof.
  intros Hvoices Hfrench lang_voice_map.
  destruct (contains_french _ Hfrench) as [Hen Hfr].
  assert (Hmen : voice_matches v en_keywords = true).
  { unfold voice_matches, en_keywords. cbn [existsb].
    change (Py.lower "en") with "en". now rewrite Hen. }
  assert (Hmfr : voice_matches v fr_keywords = true).
  { unfold voice_matches, fr_keywords. cbn [existsb].
    change (Py.lower "fr") with "fr". now rewrite Hfr. }
  split; [exact Hmen|].
  subst lang_voice_map. unfold build_language_voice_map. cbn [snd].
  change ["en"; "english"] with en_keywords.
  change ["fr"; "french"; "fran" +:+ c_cedilla +:+ "ais"; "francais"]
    with fr_keywords.
  rewrite Hvoices. cbn [List.find]. rewrite Hmen, Hmfr.
  split; simplify_map_eq; reflexivity.
Qed.

(** *** Choosing the file *)

(** X7: [choose_pdf_file] never returns an empty path: without Tk, an
    answer of white space only counts as no choice, and any other answer
    is returned without the white space around it; with Tk, a dismissed
    dialog counts as no choice. *)
Theorem choose_pdf_file_never_empty :
  (forall pdf_path, choose_pdf_file E = Some pdf_path -> pdf_path <> "")
  /\ (TK_AVAILABLE E = false ->
      choose_pdf_file E
      = if Py.blank (console_path E) then None
        else Some (Py.strip (console_path E)))
  /\ (TK_AVAILABLE E = true ->
      choose_pdf_file E
      = if Py.truthy (dialog_path E) then Some (dialog_path E) else None).
Proof.
  unfold choose_pdf_file. split; [|split].
  - intros p. destruct (TK_AVAILABLE E); cbn [negb].
    + destruct (dialog_path E); [discriminate|]. cbn. congruence.
    + destruct (Py.strip (console_path E)); [discriminate|]. cbn. congruence.
  - intros ->. cbn [negb]. rewrite PyFacts.strip_truthy.
    now destruct (Py.blank (console_path E)).
  - intros ->. reflexivity.
Qed.

(** *** Extraction *)

Lemma numbered_In (pages : list (option string)) : forall i n page,
  In (n, page) (numbered i pages)
  <-> (i <= n)%Z /\ pages !! Z.to_nat (n - i) = Some page.
Proof.
  induction pages as [|p pages IH]; intros i n page; simpl.
  - split; [contradiction|]. now intros [_ H].
  - rewrite IH. split.
    + intros [Heq | [Hle Hl]].
      * inversion Heq; subst. split; [lia|].
        now replace (n - n)%Z with 0%Z by lia.
      * split; [lia|].
        replace (Z.to_nat (n - i)) with (S (Z.to_nat (n - (i + 1)))) by lia.
        exact Hl.
    + intros [Hle Hl]. destruct (Z.eq_dec i n) as [->|Hne].
      * left. replace (n - n)%Z with 0%Z in Hl by lia.
        simpl in Hl. now inversion Hl.
      * right. split; [lia|].
        replace (Z.to_nat (n - i)) with (S (Z.to_nat (n - (i + 1)))) in Hl
          by lia.
        exact Hl.
Qed.

Lemma kept_page_Some p n t :
  kept_page p = Some (n, t)
  <-> fst p = n
      /\ exists text, snd p = Some text /\ Py.blank text = false
                      /\ t = Py.join " " (Py.split text).
Proof.
  unfold kept_page. destruct p as [n' [text|]]; cbn [fst snd].
  - destruct (Py.blank text) eqn:Hb; split.
    + discriminate.
    + intros (_ & text' & Heq & Hb' & _). inversion Heq; subst. congruence.
    + intros H. inversion H; subst. eauto.
    + intros (-> & text' & Heq & _ & ->). now inversion Heq.
  - split; [discriminate|]. now intros (_ & text & H & _).
Qed.

Lemma kept_numbers_sorted (pages : list (option string)) : forall i,
  StronglySorted Z.lt (map fst (omap kept_page (numbered i pages)))
  /\ Forall (fun n => (i <= n)%Z) (map fst (omap kept_page (numbered i pages))).
Proof.
  induction pages as [|p pages IH]; intros i.
  - split; constructor.
  - destruct (IH (i + 1)%Z) as [Hs Hb].
    assert (Hb' : Forall (fun n => (i < n)%Z)
                    (map fst (omap kept_page (numbered (i + 1) pages)))).
    { eapply List.Forall_impl; [|exact Hb]. cbn. intros; lia. }
    change (omap kept_page (numbered i (p :: pages)))
      with (match kept_page (i, p) with
            | Some y => y :: omap kept_page (numbered (i + 1) pages)
            | None => omap kept_page (numbered (i + 1) pages)
            end).
    destruct (kept_page (i, p)) as [[n t]|] eqn:Hk.
    + apply kept_page_Some in Hk as [Hn _]. cbn [fst] in Hn. subst n.
      cbn [map fst]. split.
      * constructor; assumption.
      * constructor; [cbn; lia|].
        eapply List.Forall_impl; [|exact Hb']. cbn. intros; lia.
    + split; [exact Hs|].
      eapply List.Forall_impl; [|exact Hb']. cbn. intros; lia.
Qed.

(** X8: for a file pdfplumber opens, the extracted list holds exactly
    the pages whose text has a character that is not white space, each
    once, under its number counted from 1 and with its text cleaned up;
    the numbers are strictly increasing; one diagnostic is printed for
    each page with no text or an empty one, and none for the others. *)
Theorem extract_text_from_pdf_pages (pdf_path : string)
        (pages : list (option string)) (out : list string) :
  pdf_pages E pdf_path = Some pages ->
  exists all_pages_text,
    extract_text_from_pdf E pdf_path out
    = Some (out ++ flat_map diagnostic (numbered 1 pages), all_pages_text)
    /\ StronglySorted Z.lt (map fst all_pages_text)
    /\ forall n t,
         In (n, t) all_pages_text
         <-> (1 <= n)%Z
             /\ exists text,
                  pages !! Z.to_nat (n - 1) = Some (Some text)
                  /\ Py.blank text = false
                  /\ t = Py.join " " (Py.split text).
Proof.
  intros Hpages. exists (omap kept_page (numbered 1 pages)).
  split; [|split].
  - unfold extract_text_from_pdf.
    now rewrite Hpages, PdfReaderBotSpec.extract_loop_spec.
  - apply kept_numbers_sorted.
  - intros n t. rewrite <- list_elem_of_In, list_elem_of_omap. split.
    + intros ([n' page] & Hin & Hk).
      apply kept_page_Some in Hk as (Hn & text & Hp & Hb & Ht).
      cbn [fst snd] in Hn, Hp. subst n' page.
      apply list_elem_of_In, numbered_In in Hin as [Hle Hl]. eauto 6.
    + intros (Hle & text & Hl & Hb & Ht).
      exists (n, Some text). split.
      * apply list_elem_of_In, numbered_In. auto.
      * apply kept_page_Some. cbn [fst snd]. eauto 6.
Qed.

(** *** The whole run *)

(** What [main] does once a path is chosen, shown by what it leaves. *)
Lemma main_with_path pdf_path :
  chosen_path E = Some pdf_path ->
  exists out,
    main E
    = match pdf_path with
      | EmptyString =>
          ({| stdout := print "No file selected. Exiting." out;
              opened := []; tts := None |}, Returned)
      | _ =>
          if negb (path_exists E pdf_path) then
            ({| stdout := print ("File not found: " +:+ pdf_path) out;
                opened := []; tts := None |}, Returned)
          else if negb (Py.endswith (Py.lower pdf_path) ".pdf") then
            ({| stdout := print "The selected file is not a PDF." out;
                opened := []; tts := None |}, Returned)
          else
            match pdf_pages E pdf_path with
            | None =>
                ({| stdout := print "Extracting text from PDF..."
                                (print ("Using PDF: " +:+ pdf_path) out);
                    opened := [pdf_path]; tts := None |}, Raised)
            | Some pages =>
                match omap kept_page (numbered 1 pages) with
                | [] =>
                    ({| stdout :=
                          print ("No readable text found in this PDF. "
                                 +:+ "It might be scanned images.")
                            (print "Extracting text from PDF..."
                               (print ("Using PDF: " +:+ pdf_path) out)
                             ++ flat_map diagnostic (numbered 1 pages));
                        opened := [pdf_path]; tts := None |}, Returned)
                | pages_text =>
                    let out :=
                      print "Extracting text from PDF..."
                        (print ("Using PDF: " +:+ pdf_path) out)
                      ++ flat_map diagnostic (numbered 1 pages) in
                    let out :=
                      print ("The PDF has "
                             +:+ Py.str_of_int (Z.of_nat (length pages_text))
                             +:+ " pages with extractable text.") out in
                    let out :=
                      if Py.truthy (Py.strip (start_page_answer E)) then
                        match int_of_str E (Py.strip (start_page_answer E)) with
                        | Some _ => out
                        | None =>
                            print ("Invalid page number. "
                                   +:+ "Starting from the beginning.") out
                        end
                      else out in
                    let out := print "Starting text-to-speech..." out in
                    let r := read_text_aloud E pages_text (start_page_of E)
                                             out in
                    ({| stdout := print "Done." (fst r);
                        opened := [pdf_path]; tts := snd r |}, Returned)
                end
            end
      end.
Proof.
  intros Hpath. unfold main.
  assert (Hsel : exists out,
    match argv E with
    | _ :: arg :: _ => ([], Some arg)
    | _ =>
        (["No PDF path provided as an argument. Opening file chooser..."],
         choose_pdf_file E)
    end = (out, Some pdf_path)).
  { unfold chosen_path in Hpath.
    destruct (argv E) as [|a0 [|a1 l]]; rewrite <- Hpath; eauto. }
  destruct Hsel as [out ->]. exists out.
  destruct pdf_path as [|c s]; [reflexivity|].
  destruct (path_exists E (String c s)); cbn [negb]; [|reflexivity].
  destruct (Py.endswith (Py.lower (String c s)) ".pdf"); cbn [negb];
    [|reflexivity].
  unfold extract_text_from_pdf.
  destruct (pdf_pages E (String c s)) as [pages|]; [|reflexivity].
  rewrite PdfReaderBotSpec.extract_loop_spec. cbn [app].
  destruct (omap kept_page (numbered 1 pages)) as [|p0 l0]; [reflexivity|].
  unfold start_page_of.
  destruct (Py.truthy (Py.strip (start_page_answer E)));
    [destruct (int_of_str E (Py.strip (start_page_answer E)))|];
    cbv zeta;
    destruct (read_text_aloud E (p0 :: l0) _ _) as [out' e']; reflexivity.
Qed.

(** X11: for a chosen path that exists, ends in ".pdf" and is opened by
    pdfplumber, [main] returns normally having opened that file only,
    and what is uttered is, in page order, the number and the cleaned
    text of every page that has a character other than white space and
    whose number is not below the starting page; an answer that is
    blank or no number means no starting page. *)
Theorem main_reads_the_document (pdf_path : string)
        (pages : list (option string)) :
  chosen_path E = Some pdf_path ->
  path_exists E pdf_path = true ->
  Py.endswith (Py.lower pdf_path) ".pdf" = true ->
  pdf_pages E pdf_path = Some pages ->
  snd (main E) = Returned
  /\ opened (fst (main E)) = [pdf_path]
  /\ said_by (tts (fst (main E)))
     = utterances (from_start (start_page_of E)
                              (omap kept_page (numbered 1 pages))).
Proof.
  intros Hpath Hex Hext Hpages.
  destruct (main_with_path pdf_path Hpath) as [out ->].
  destruct pdf_path as [|c s]; [discriminate|].
  rewrite Hex, Hext, Hpages. cbn [negb].
  destruct (omap kept_page (numbered 1 pages)) as [|p0 l0].
  - cbn. now destruct (start_page_of E).
  - cbn [fst snd opened tts]. repeat split.
    apply read_text_aloud_said.
Qed.


End ReaderMore.

Lemma french_voice_taken_for_english_witness :
  let lang_voice_map :=
    snd (build_language_voice_map (sample_env "book.pdf")
                                  (fresh french_driver) []) in
  lang_voice_map !! "en" = Some "french"
  /\ lang_voice_map !! "fr" = Some "french".
Proof.
  exact (proj2 (french_voice_taken_for_english (sample_env "book.pdf")
                  (fresh french_driver) [] french_voice [anna]
                  eq_refl eq_refl)).
Defined.

Lemma read_text_aloud_voices_witness :
  exists e,
    snd (read_text_aloud (sample_env "book.pdf") two_pages (Some 2%Z) [])
    = Some e
    /\ spoken e = [(v_id anna, "Page 2"); (v_id anna, "Guten Tag zusammen")].
Proof.
  destruct (read_text_aloud_voices (sample_env "book.pdf") two_pages
              (Some 2%Z) [] ltac:(discriminate)) as (e & He & Hs & _).
  exists e. split; [exact He | exact Hs].
Defined.

Lemma start_page_below_all_pages_witness :
  read_text_aloud (sample_env "book.pdf") two_pages (Some 1%Z) []
  = read_text_aloud (sample_env "book.pdf") two_pages None [].
Proof.
  refine (start_page_below_all_pages (sample_env "book.pdf") two_pages 1 [] _).
  repeat constructor; cbn; lia.
Defined.

Lemma main_reads_the_document_witness :
  said_by (tts (fst (main (sample_env "book.pdf"))))
  = ["Page 1"; "Bonjour tout le monde"; "Page 2"; "Guten Tag zusammen"].
Proof.
  exact (proj2 (proj2 (main_reads_the_document (sample_env "book.pdf")
                         "book.pdf"
                         [Some "Bonjour  tout le monde";
                          Some "Guten Tag zusammen"]
                         eq_refl eq_refl eq_refl eq_refl))).
Defined.


Lemma extract_text_from_pdf_pages_witness :
  exists all_pages_text,
    extract_text_from_pdf (sample_env "book.pdf") "book.pdf" []
    = Some ([] ++ flat_map diagnostic
                    (numbered 1 [Some "Bonjour  tout le monde";
                                 Some "Guten Tag zusammen"]),
            all_pages_text)
    /\ StronglySorted Z.lt (map fst all_pages_text).
Proof.
  destruct (extract_text_from_pdf_pages (sample_env "book.pdf") "book.pdf"
              [Some "Bonjour  tout le monde"; Some "Guten Tag zusammen"] []
              eq_refl) as (l & Heq & Hs & _).
  exists l. split; [exact Heq | exact Hs].
Defined.

End PdfReaderBotMore.

(** ** tts_test.py *)

Module TtsTestSpec.

Import PdfReaderBot TtsTest.

Lemma id_lines_length (vs : list voice) : forall i,
  length (id_lines i vs) = length vs.
Proof. induction vs as [|v vs IH]; intros i; cbn; [|rewrite IH]; reflexivity. Qed.

(** X13: whatever the system and whatever the driver starts with, the
    test utters one sentence and nothing else, with the first installed
    voice when there is one and with the driver's own voice otherwise;
    it leaves the rate at 160 and nothing queued, and prints one line
    per installed voice between its five fixed lines. *)
Theorem script_says_one_sentence (platform_system : string)
        (pyttsx3_init : string -> driver) :
  let d := pyttsx3_init (driver_name platform_system) in
  let r := script platform_system pyttsx3_init in
  spoken (snd r)
  = [(match installed d with v :: _ => v_id v | [] => default_voice d end,
      "Hello, this is a test.")]
  /\ rate (snd r) = 160%Z
  /\ queue (snd r) = []
  /\ length (fst r) = (5 + length (installed d))%nat
  /\ hd_error (fst r) = Some "Python TTS test starting..."
  /\ List.last (fst r) "" = "Done.".
Proof.
  intros d r. subst d r. unfold script, driver_name.
  assert (Hlast : forall (l : list string) x, List.last (l ++ [x]) "" = x).
  { intros l x. induction l as [|y l IH]; [reflexivity|].
    cbn [app]. destruct (l ++ [x]) eqn:E; [now destruct l|exact IH]. }
  destruct (String.eqb platform_system "Windows");
    [|destruct (String.eqb platform_system "Darwin")];
    match goal with
    | |- context [pyttsx3_init ?n] => destruct (pyttsx3_init n) as [vs r0 v0]
    end;
    cbn [fresh voices installed default_voice default_rate];
    (destruct vs as [|v vs];
     [ cbn; repeat split
     | cbv zeta; cbn [fst snd]; unfold print; rewrite Hlast;
       rewrite !length_app, id_lines_length;
       cbn; repeat split; f_equal; lia ]).
Qed.

End TtsTestSpec.

Module PdfAnnotatorMore.

Import PdfAnnotator.

Section AnnotatorMore.

Context {content : Type}.

Variable fitz_open : string -> Document content + string.

Variable fitz_save :
  Document content -> string -> gmap string (file content)
  -> gmap string (file content) * option string.

Variable marker_rect_ok : Rect -> bool.

Abbreviation App := (App content).
Abbreviation Document := (Document content).
Abbreviation Page := (Page content).
Abbreviation handle := (handle fitz_open fitz_save marker_rect_ok).
Abbreviation play := (play fitz_open fitz_save marker_rect_ok).
Abbreviation on_mouse_up := (on_mouse_up marker_rect_ok).
Abbreviation _add_highlight_rect := (_add_highlight_rect marker_rect_ok).

(** *** The annotation writers *)

Lemma add_annot_length (d : Document) k an :
  length (add_annot d k an) = length d.
Proof. unfold add_annot. apply length_alter. Qed.

Lemma getitem_lookup (d : Document) i k pg :
  getitem d i = Some (k, pg) -> d !! k = Some pg.
Proof.
  unfold getitem. destruct (i <? Z.of_nat (length d))%Z; [|discriminate].
  cbv zeta.
  destruct (d !! Z.to_nat (i mod Z.of_nat (length d))) as [p|] eqn:E;
    [|discriminate].
  cbn. intros [= <- <-]. exact E.
Qed.

Lemma getitem_in_range (d : Document) i :
  (0 <= i < Z.of_nat (length d))%Z ->
  exists pg, getitem d i = Some (Z.to_nat i, pg) /\ d !! Z.to_nat i = Some pg.
Proof.
  intros Hi. unfold getitem.
  destruct (Z.ltb_spec i (Z.of_nat (length d))) as [_|]; [|lia].
  cbv zeta. rewrite Z.mod_small by lia. unfold PdfAnnotator.Document in *.
  destruct (lookup_lt_is_Some_2 d (Z.to_nat i)) as [pg Hpg]; [lia|].
  exists pg. now rewrite Hpg.
Qed.

Lemma add_annot_at (d : Document) i k pg an :
  getitem d i = Some (k, pg) -> add_annot d k an = annotated d k pg an.
Proof.
  intros Hg. apply PdfAnnotatorSpec.add_annot_annotated.
  eapply getitem_lookup; eauto.
Qed.

(** Each writer leaves the window as it was, or returns normally
    having put one annotation on the page the index names. *)
Lemma add_text_cases x y text (a : App) :
  let r := _add_text_at_canvas_point x y text a in
  fst r = a
  \/ snd r = Returned
     /\ exists d k pg p,
          doc a = Some d /\ getitem d (page_index (state a)) = Some (k, pg)
          /\ _canvas_to_pdf a x y = Some p
          /\ fst r = set_doc (Some (annotated d k pg
                                      (FreeText (text_rect p) text 12 "helv")))
                             a.
Proof.
  unfold _add_text_at_canvas_point.
  destruct (doc a) as [[|p0 d]|] eqn:Hd; try (now left).
  destruct (getitem (p0 :: d) (page_index (state a))) as [[k pg]|] eqn:Hg;
    [|now left].
  destruct (_canvas_to_pdf a x y) as [[px py]|] eqn:Hc; [|now left].
  right. split; [reflexivity|]. exists (p0 :: d), k, pg, (px, py).
  repeat split; try assumption; try reflexivity.
  cbn [fst]. now rewrite (add_annot_at _ _ _ _ _ Hg).
Qed.

Lemma add_highlight_cases x0 y0 x1 y1 (a : App) :
  let r := _add_highlight_rect x0 y0 x1 y1 a in
  fst r = a
  \/ snd r = Returned
     /\ exists d k pg an,
          doc a = Some d /\ getitem d (page_index (state a)) = Some (k, pg)
          /\ fst r = set_doc (Some (annotated d k pg an)) a.
Proof.
  unfold PdfAnnotator._add_highlight_rect.
  destruct (doc a) as [[|p0 d]|] eqn:Hd; try (now left).
  destruct (getitem (p0 :: d) (page_index (state a))) as [[k pg]|] eqn:Hg;
    [|now left].
  destruct (Py.sorted PrimFloat.ltb [x0; x1]) as [|l [|r [|? ?]]];
    try (now left).
  destruct (Py.sorted PrimFloat.ltb [y0; y1]) as [|t [|b [|? ?]]];
    try (now left).
  destruct (_canvas_to_pdf a l t) as [[px0 py0]|]; [|now left].
  destruct (_canvas_to_pdf a r b) as [[px1 py1]|]; [|now left].
  destruct (marker_rect_ok _); [|now left].
  right. split; [reflexivity|]. exists (p0 :: d), k, pg.
  eexists. repeat split; try eassumption; try reflexivity.
  cbn [fst]. now rewrite (add_annot_at _ _ _ _ _ Hg).
Qed.

Lemma finalize_cases (a : App) :
  let r := _finalize_draw_stroke a in
  fst r = a
  \/ snd r = Returned
     /\ exists d k pg an,
          doc a = Some d /\ getitem d (page_index (state a)) = Some (k, pg)
          /\ fst r = set_current_stroke_points []
                       (set_canvas (delete_ink_tmp (canvas a))
                          (set_doc (Some (annotated d k pg an)) a)).
Proof.
  unfold _finalize_draw_stroke.
  destruct (doc a) as [[|p0 d]|] eqn:Hd; try (now left).
  destruct (length (_current_stroke_points a) <? 2)%nat; [now left|].
  destruct (getitem (p0 :: d) (page_index (state a))) as [[k pg]|] eqn:Hg;
    [|now left].
  destruct (mapM _ _) as [pts|]; [|now left].
  right. split; [reflexivity|]. exists (p0 :: d), k, pg.
  eexists. repeat split; try eassumption; try reflexivity.
  cbn [fst]. now rewrite (add_annot_at _ _ _ _ _ Hg).
Qed.

(** *** What the handlers do to the document *)

Lemma mouse_down_cases x y answer (a : App) :
  let r := on_mouse_down x y answer a in
  doc (fst r) = doc a
  \/ snd r = Returned
     /\ exists d k pg p text,
          answer = Some text /\ text <> "" /\ tool_ (state a) = TextTool
          /\ doc a = Some d /\ getitem d (page_index (state a)) = Some (k, pg)
          /\ _canvas_to_pdf a x y = Some p
          /\ doc (fst r)
             = Some (annotated d k pg (FreeText (text_rect p) text 12 "helv")).
Proof.
  unfold on_mouse_down. destruct (doc_truthy a); cbn [negb]; [|now left].
  destruct (tool_ (state a)) eqn:Ht; try (now left).
  destruct answer as [[|c s]|]; try (now left).
  destruct (add_text_cases x y (String c s) a)
    as [Heq | (Hret & d & k & pg & p & Hd & Hg & Hc & Hr)];
    destruct (_add_text_at_canvas_point x y (String c s) a) as [a' [|e]];
    cbn [fst snd] in *; try discriminate.
  - left. rewrite PdfAnnotatorSpec.render_page_doc. now subst.
  - left. now subst.
  - right. split; [reflexivity|].
    exists d, k, pg, p, (String c s). repeat split; try assumption.
    + discriminate.
    + rewrite PdfAnnotatorSpec.render_page_doc. now subst.
Qed.

Lemma mouse_up_cases x y (a : App) :
  let r := on_mouse_up x y a in
  doc (fst r) = doc a
  \/ snd r = Returned /\ tool_ (state a) <> TextTool
     /\ exists d k pg an,
          doc a = Some d /\ getitem d (page_index (state a)) = Some (k, pg)
          /\ doc (fst r) = Some (annotated d k pg an).
Proof.
  unfold PdfAnnotator.on_mouse_up.
  destruct (doc_truthy a); cbn [negb]; [|now left].
  destruct (tool_ (state a)) eqn:Ht; try (now left).
  - destruct (finalize_cases a)
      as [Heq | (Hret & d & k & pg & an & Hd & Hg & Hr)];
      destruct (_finalize_draw_stroke a) as [a' [|e]];
      cbn [fst snd] in *; try discriminate.
    + left. rewrite PdfAnnotatorSpec.render_page_doc. now subst.
    + left. now subst.
    + right. repeat split; [discriminate|].
      exists d, k, pg, an. repeat split; try assumption.
      rewrite PdfAnnotatorSpec.render_page_doc. now subst.
  - destruct (_drag_start a) as [[x0 y0]|]; [|now left].
    match goal with
    | |- context [_add_highlight_rect _ _ _ _ ?s] => set (a1 := s)
    end.
    assert (H1 : doc a1 = doc a /\ state a1 = state a).
    { subst a1. now destruct (id_truthy _). }
    destruct H1 as [Hdoc Hstate].
    destruct (add_highlight_cases x0 y0 x y a1)
      as [Heq | (Hret & d & k & pg & an & Hd & Hg & Hr)];
      destruct (_add_highlight_rect x0 y0 x y a1) as [a' [|e]];
      cbn [fst snd] in *; try discriminate.
    + left. rewrite PdfAnnotatorSpec.render_page_doc. now subst a'.
    + left. now subst a'.
    + right. repeat split; [discriminate|].
      exists d, k, pg, an. rewrite <- Hdoc, <- Hstate.
      repeat split; try assumption.
      rewrite PdfAnnotatorSpec.render_page_doc. now subst a'.
Qed.

Lemma mouse_drag_doc x y (a : App) :
  doc (fst (on_mouse_drag x y a)) = doc a
  /\ snd (on_mouse_drag x y a) = Returned.
Proof.
  unfold on_mouse_drag. destruct (doc_truthy a); cbn [negb]; [|now split].
  destruct (tool_ (state a)), (_last_draw_point a) as [[? ?]|],
    (_drag_start a) as [[? ?]|];
    try destruct (id_truthy _); now split.
Qed.

Lemma save_as_doc out_path (a : App) :
  doc (fst (save_as fitz_save out_path a)) = doc a
  /\ snd (save_as fitz_save out_path a) = Returned.
Proof.
  unfold save_as. destruct (doc a) as [[|p d]|] eqn:Hd;
    destruct (pdf_path a); try (now split).
  destruct (negb (Py.truthy out_path)); [now split|].
  destruct (fitz_save _ _ _) as [fs [e|]]; now split.
Qed.

Lemma nav_doc (a : App) :
  doc (prev_page a) = doc a /\ doc (next_page a) = doc a.
Proof.
  unfold prev_page, next_page. destruct (doc_truthy a); cbn [negb];
    [|now split].
  now rewrite !PdfAnnotatorSpec.render_page_doc.
Qed.

(** An event other than an open leaves the document as it is or puts
    one annotation on the page the index names. *)
Lemma handle_doc (a : App) (ev : event) :
  (forall file_path, ev <> OpenPdf file_path) ->
  doc (handle a ev) = doc a
  \/ exists d k pg an,
       doc a = Some d /\ getitem d (page_index (state a)) = Some (k, pg)
       /\ doc (handle a ev) = Some (annotated d k pg an)
       /\ ((exists x y, ev = MouseUp x y /\ tool_ (state a) <> TextTool)
           \/ exists x y text,
                ev = MouseDown x y (Some text) /\ text <> ""
                /\ tool_ (state a) = TextTool).
Proof.
  intros Hev. destruct ev as [| |x y answer|x y|x y|t|z|z|file_path|out_path];
    cbn [PdfAnnotator.handle].
  - left. apply nav_doc.
  - left. apply nav_doc.
  - destruct (mouse_down_cases x y answer a)
      as [Heq | (_ & d & k & pg & p & text & -> & Ht & Htool & Hd & Hg & _ & Hr)];
      [now left|].
    right. exists d, k, pg. eexists. repeat split; try eassumption.
    right. now exists x, y, text.
  - left. apply mouse_drag_doc.
  - destruct (mouse_up_cases x y a)
      as [Heq | (_ & Htool & d & k & pg & an & Hd & Hg & Hr)]; [now left|].
    right. exists d, k, pg, an. repeat split; try assumption.
    left. now exists x, y.
  - now left.
  - left. unfold _apply_zoom. destruct (doc_truthy _); [|reflexivity].
    now rewrite PdfAnnotatorSpec.render_page_doc.
  - now left.
  - now destruct (Hev file_path).
  - left. apply save_as_doc.
Qed.

(** X14: an event changes the document only if it opens a file, or it
    is a release of the mouse button with the draw or highlight tool or
    a click with the text tool answered with a text that is not empty;
    a release or click that changes the document adds one annotation,
    at the end of those of the page the index names, and changes
    nothing else in the document.  Paging, zooming, choosing a tool,
    dragging and saving never change it. *)
Theorem document_changes_by_one_annotation (a : App) (ev : event) :
  doc (handle a ev) <> doc a ->
  (exists file_path, ev = OpenPdf file_path)
  \/ ((exists x y, ev = MouseUp x y /\ tool_ (state a) <> TextTool)
      \/ exists x y text,
           ev = MouseDown x y (Some text) /\ text <> ""
           /\ tool_ (state a) = TextTool)
     /\ exists d k pg an,
          doc a = Some d /\ getitem d (page_index (state a)) = Some (k, pg)
          /\ doc (handle a ev) = Some (annotated d k pg an).
Proof.
  intros Hne.
  assert (Hopen : (exists file_path, ev = OpenPdf file_path)
                  \/ forall file_path, ev <> OpenPdf file_path).
  { destruct ev; try (right; discriminate). left. eauto. }
  destruct Hopen as [Hopen|Hopen]; [now left|]. right.
  destruct (handle_doc a ev Hopen)
    as [Heq | (d & k & pg & an & Hd & Hg & Hr & Hkind)]; [contradiction|].
  split; [exact Hkind|]. now exists d, k, pg, an.
Qed.

(** *** Annotations are only ever added *)

Lemma extends_refl (d : Document) : extends d d.
Proof.
  induction d as [|p d IH]; constructor; [|exact IH].
  split; [reflexivity|]. exists []. now rewrite app_nil_r.
Qed.

Lemma extends_trans (d1 d2 d3 : Document) :
  extends d1 d2 -> extends d2 d3 -> extends d1 d3.
Proof.
  intros H12. revert d3. induction H12 as [|p1 p2 d1 d2 [Hb [m Hm]] _ IH];
    intros d3 H23; inversion H23 as [|? p3 ? d3' [Hb' [m' Hm']] Hrest];
    subst; constructor.
  - split; [congruence|]. exists (m ++ m'). rewrite Hm', Hm.
    now rewrite app_assoc.
  - now apply IH.
Qed.

Lemma annotated_extends (d : Document) k pg an :
  d !! k = Some pg -> extends d (annotated d k pg an).
Proof.
  unfold annotated. revert k.
  induction d as [|p d IH]; intros [|k] Hk; try discriminate; cbn in *.
  - injection Hk as ->. constructor; [|apply extends_refl].
    split; [reflexivity|]. now exists [an].
  - constructor; [|now apply IH].
    split; [reflexivity|]. exists []. now rewrite app_nil_r.
Qed.

(** X15: whatever the events, as long as no other file is opened, the
    document in the window keeps its pages, in number, order and
    content, and every page keeps the annotations it had, in their
    order, before any new ones: nothing removes or rewrites an
    annotation.  Without a document, no event but an open gives one. *)
Theorem annotations_only_grow (evs : list event) : forall (a : App),
  Forall (fun ev => forall file_path, ev <> OpenPdf file_path) evs ->
  match doc a with
  | Some d =>
      exists d', doc (play a evs) = Some d' /\ extends d d'
                 /\ length d' = length d
  | None => doc (play a evs) = None
  end.
Proof.
  induction evs as [|ev evs IH]; intros a Hall.
  - cbn. destruct (doc a) as [d|]; [|reflexivity].
    exists d. repeat split. apply extends_refl.
  - inversion Hall as [|? ? Hev Hrest]; subst.
    cbn [PdfAnnotator.play fold_left]. specialize (IH (handle a ev) Hrest).
    fold (play (handle a ev) evs) in IH |- *.
    destruct (handle_doc a ev Hev)
      as [Heq | (d & k & pg & an & Hd & Hg & Hr & _)].
    + now rewrite Heq in IH.
    + rewrite Hr in IH. rewrite Hd.
      destruct IH as (d' & Hplay & Hext & Hlen).
      exists d'. split; [exact Hplay|].
      assert (Hstep : extends d (annotated d k pg an)).
      { apply annotated_extends. eapply getitem_lookup; eauto. }
      split; [eapply extends_trans; eauto|].
      rewrite Hlen. symmetry. eapply Forall2_length; eauto.
Qed.

(** *** The page on the canvas is the page annotated *)

Lemma front_app (its l : list (Z * item)) v :
  front_image its = Some v -> front_image (its ++ l) = Some v.
Proof. destruct its as [|[pid [i z| |]] rest]; try discriminate. auto. Qed.

Lemma front_filter (f : Z * item -> bool) (its : list (Z * item)) v :
  Forall (fun e => is_image (snd e) = true -> f e = true) its ->
  front_image its = Some v -> front_image (List.filter f its) = Some v.
Proof.
  destruct its as [|[pid [i z| |]] rest]; try discriminate.
  intros Hall Hv. inversion Hall as [|? ? Hhd _]; subst.
  cbn [List.filter]. now rewrite (Hhd eq_refl).
Qed.

Lemma front_map (g : Z * item -> Z * item) (its : list (Z * item)) v :
  Forall (fun e => is_image (snd e) = true -> g e = e) its ->
  front_image its = Some v -> front_image (map g its) = Some v.
Proof.
  destruct its as [|[pid [i z| |]] rest]; try discriminate.
  intros Hall Hv. inversion Hall as [|? ? Hhd _]; subst.
  cbn [map]. now rewrite (Hhd eq_refl).
Qed.

Lemma Forall_filter_keeps {A} (P : A -> Prop) (f : A -> bool) (l : list A) :
  Forall P l -> Forall P (List.filter f l).
Proof.
  induction 1 as [|x l Hx _ IH]; cbn; [constructor|].
  destruct (f x); [constructor|]; assumption.
Qed.

(** Rendering with a document that has pages makes the window consistent
    whatever the canvas showed, as long as its ids were in order. *)
Lemma render_consistent (a : App) :
  Forall (fun e => (fst e < next_id (canvas a))%Z) (items (canvas a)) ->
  (forall r, _current_highlight_rect_id a = Some r ->
             (r < next_id (canvas a))%Z) ->
  doc_truthy a = true ->
  consistent (_render_page a).
Proof.
  intros Hids Hr. unfold doc_truthy, _render_page.
  destruct (doc a) as [[|p d]|] eqn:Hd; try discriminate. intros _.
  unfold consistent, shown_image. cbn. split; [|split].
  - repeat constructor. cbn. lia.
  - intros r Hrid. specialize (Hr r Hrid). split; [lia|].
    repeat constructor. cbn. intros _. lia.
  - intros d0 Hd0 _. split; [reflexivity|].
    rewrite Hd in Hd0. injection Hd0 as <-. cbn [length]. lia.
Qed.

Lemma render_not_truthy (a : App) :
  doc_truthy a = false -> _render_page a = a.
Proof.
  unfold doc_truthy, _render_page.
  now destruct (doc a) as [[|p d]|].
Qed.

Lemma Forall_weaken {A} (P Q : A -> Prop) (l : list A) :
  (forall x, P x -> Q x) -> Forall P l -> Forall Q l.
Proof. intros HPQ. induction 1; constructor; auto. Qed.

(** A handler that leaves the canvas, the preview id, the document, the
    page index and the zoom alone keeps the window consistent. *)
Lemma consistent_frame (a a' : App) :
  canvas a' = canvas a ->
  _current_highlight_rect_id a' = _current_highlight_rect_id a ->
  doc a' = doc a ->
  page_index (state a') = page_index (state a) ->
  zoom (state a') = zoom (state a) ->
  consistent a -> consistent a'.
Proof.
  unfold consistent, shown_image. intros -> -> -> -> ->. auto.
Qed.

(** [canvas.create_line] and [canvas.create_rectangle] *)
Lemma create_consistent (a a' : App) it :
  is_image it = false -> consistent a ->
  canvas a' = fst (create it (canvas a)) ->
  (_current_highlight_rect_id a' = _current_highlight_rect_id a
   \/ _current_highlight_rect_id a' = Some (next_id (canvas a))) ->
  doc a' = doc a ->
  page_index (state a') = page_index (state a) ->
  zoom (state a') = zoom (state a) ->
  consistent a'.
Proof.
  intros Him (H1 & H2 & H3) Hc Hr Hd Hp Hz.
  unfold consistent, shown_image. rewrite Hc, Hd, Hp, Hz.
  cbn [create fst next_id items]. split; [|split].
  - apply Forall_app. split.
    + eapply Forall_weaken; [|exact H1]. cbn. lia.
    + repeat constructor. cbn. lia.
  - intros r Hr'. destruct Hr as [Hr|Hr]; rewrite Hr in Hr'.
    + destruct (H2 r Hr') as [Hlt Him']. split; [lia|].
      apply Forall_app. split; [exact Him'|].
      repeat constructor. cbn. rewrite Him. discriminate.
    + injection Hr' as <-. split; [lia|].
      apply Forall_app. split.
      * eapply Forall_weaken; [|exact H1]. cbn. lia.
      * repeat constructor. cbn. rewrite Him. discriminate.
  - intros d Hd' Hne. destruct (H3 d Hd' Hne) as [Hs Hrange].
    split; [|exact Hrange]. now apply front_app.
Qed.

(** [canvas.delete]: page images stay. *)
Lemma delete_consistent (a a' : App) (f : Z * item -> bool) :
  consistent a ->
  Forall (fun e => is_image (snd e) = true -> f e = true) (items (canvas a)) ->
  canvas a' = {| next_id := next_id (canvas a);
                 items := List.filter f (items (canvas a)) |} ->
  (_current_highlight_rect_id a' = _current_highlight_rect_id a
   \/ _current_highlight_rect_id a' = None) ->
  doc a' = doc a ->
  page_index (state a') = page_index (state a) ->
  zoom (state a') = zoom (state a) ->
  consistent a'.
Proof.
  intros (H1 & H2 & H3) Hf Hc Hr Hd Hp Hz.
  unfold consistent, shown_image. rewrite Hc, Hd, Hp, Hz.
  cbn [next_id items]. split; [|split].
  - now apply Forall_filter_keeps.
  - intros r Hr'. destruct Hr as [Hr|Hr]; rewrite Hr in Hr'; [|discriminate].
    destruct (H2 r Hr') as [Hlt Him']. split; [exact Hlt|].
    now apply Forall_filter_keeps.
  - intros d Hd' Hne. destruct (H3 d Hd' Hne) as [Hs Hrange].
    split; [|exact Hrange]. now apply front_filter.
Qed.

(** [canvas.coords] on the preview rectangle *)
Lemma coords_consistent (a a' : App) r x0 y0 x1 y1 :
  consistent a ->
  _current_highlight_rect_id a = Some r ->
  canvas a' = coords r x0 y0 x1 y1 (canvas a) ->
  _current_highlight_rect_id a' = _current_highlight_rect_id a ->
  doc a' = doc a ->
  page_index (state a') = page_index (state a) ->
  zoom (state a') = zoom (state a) ->
  consistent a'.
Proof.
  intros (H1 & H2 & H3) Hrid Hc Hr Hd Hp Hz.
  unfold consistent, shown_image. rewrite Hc, Hr, Hd, Hp, Hz.
  cbn [coords next_id items]. split; [|split].
  - apply Forall_map. eapply Forall_weaken; [|exact H1].
    intros e He. cbn beta. now destruct (fst e =? r)%Z.
  - intros r' Hr'. destruct (H2 r' Hr') as [Hlt Him']. split; [exact Hlt|].
    apply Forall_map. eapply Forall_weaken; [|exact Him'].
    intros e He. cbn beta. destruct (fst e =? r)%Z; [discriminate|exact He].
  - intros d Hd' Hne. destruct (H3 d Hd' Hne) as [Hs Hrange].
    split; [|exact Hrange]. apply front_map; [|exact Hs].
    destruct (H2 r Hrid) as [_ Him'].
    eapply Forall_weaken; [|exact Him'].
    intros e He Hi. cbn beta.
    destruct (Z.eqb_spec (fst e) r) as [Heq|]; [|reflexivity].
    now destruct (He Hi).
Qed.

Lemma annotated_truthy (a : App) (d : Document) k pg an :
  d !! k = Some pg -> doc a = Some (annotated d k pg an) ->
  doc_truthy a = true.
Proof.
  unfold doc_truthy, annotated. intros Hk ->.
  destruct d as [|p d]; [discriminate|]. now destruct k.
Qed.

Lemma consistent_ids (a : App) :
  consistent a ->
  Forall (fun e => (fst e < next_id (canvas a))%Z) (items (canvas a))
  /\ forall r, _current_highlight_rect_id a = Some r ->
               (r < next_id (canvas a))%Z.
Proof.
  intros (H1 & H2 & _). split; [exact H1|]. intros r Hr. now apply H2.
Qed.

(** Rendering keeps a consistent window consistent. *)
Lemma render_keeps (a a' : App) :
  consistent a ->
  canvas a' = canvas a ->
  _current_highlight_rect_id a' = _current_highlight_rect_id a
  \/ _current_highlight_rect_id a' = None ->
  doc_truthy a' = true ->
  consistent (_render_page a').
Proof.
  intros Hc Hcv Hr Ht. destruct (consistent_ids a Hc) as [H1 H2].
  apply render_consistent; [now rewrite Hcv| |exact Ht].
  intros r Hr'. rewrite Hcv. apply H2.
  destruct Hr as [Hr|Hr]; rewrite Hr in Hr'; [exact Hr'|discriminate].
Qed.

Lemma nav_consistent (a : App) :
  consistent a -> consistent (prev_page a) /\ consistent (next_page a).
Proof.
  intros Hc. unfold prev_page, next_page.
  destruct (doc_truthy a) eqn:Ht; cbn [negb]; [|now split].
  split; apply (render_keeps a); auto.
Qed.

Lemma open_consistent file_path (a : App) :
  consistent a -> consistent (open_pdf fitz_open file_path a).
Proof.
  intros Hc. unfold open_pdf.
  destruct (negb (Py.truthy file_path)); [exact Hc|].
  destruct (fitz_open file_path) as [d|e].
  - destruct d as [|p d].
    + rewrite render_not_truthy by reflexivity.
      destruct Hc as (H1 & H2 & _).
      split; [exact H1|]. split; [exact H2|].
      intros d Hd Hne. cbn in Hd. congruence.
    + apply (render_keeps a); auto.
  - now apply (consistent_frame a).
Qed.

Lemma mouse_down_consistent x y answer (a : App) :
  consistent a -> consistent (fst (on_mouse_down x y answer a)).
Proof.
  intros Hc. unfold on_mouse_down.
  destruct (doc_truthy a) eqn:Ht; cbn [negb]; [|exact Hc].
  destruct (tool_ (state a)).
  - now apply (consistent_frame a).
  - apply (create_consistent a _ (Outline x y x y)); auto.
  - destruct answer as [[|c s]|]; try exact Hc.
    destruct (add_text_cases x y (String c s) a)
      as [Heq | (Hret & d & k & pg & p & Hd & Hg & _ & Hr)];
      destruct (_add_text_at_canvas_point x y (String c s) a) as [a' [|e]];
      cbn [fst snd] in *; try discriminate; subst a'; try exact Hc.
    + apply (render_keeps a); auto.
    + apply (render_keeps a); auto.
      eapply annotated_truthy; [eapply getitem_lookup; eauto|reflexivity].
Qed.

Lemma mouse_drag_consistent x y (a : App) :
  consistent a -> consistent (fst (on_mouse_drag x y a)).
Proof.
  intros Hc. unfold on_mouse_drag.
  destruct (doc_truthy a) eqn:Ht; cbn [negb]; [|exact Hc].
  destruct (tool_ (state a)), (_last_draw_point a) as [[lx ly]|],
    (_drag_start a) as [[x0 y0]|]; try exact Hc;
    try (apply (create_consistent a _ (InkTmp lx ly x y)); now auto).
  all: destruct (_current_highlight_rect_id a) as [r|] eqn:Hr;
    cbn [id_truthy]; try exact Hc;
    destruct (negb (r =? 0)%Z); try exact Hc;
    now apply (coords_consistent a _ r x0 y0 x y).
Qed.

Lemma mouse_up_consistent x y (a : App) :
  consistent a -> consistent (fst (on_mouse_up x y a)).
Proof.
  intros Hc. unfold PdfAnnotator.on_mouse_up.
  destruct (doc_truthy a) eqn:Ht; cbn [negb]; [|exact Hc].
  destruct (tool_ (state a)); try exact Hc.
  - destruct (finalize_cases a)
      as [Heq | (Hret & d & k & pg & an & Hd & Hg & Hr)];
      destruct (_finalize_draw_stroke a) as [a' [|e]];
      cbn [fst snd] in *; try discriminate; subst a'; try exact Hc.
    + apply (render_keeps a); auto.
    + assert (Hc' : consistent
                      (set_canvas (delete_ink_tmp (canvas a)) a)).
      { apply (delete_consistent a _
                 (fun e => match snd e with
                           | InkTmp _ _ _ _ => false
                           | _ => true
                           end)); auto.
        apply Forall_forall. intros [pid [i z| |]] _; try discriminate.
        reflexivity. }
      apply (render_keeps (set_canvas (delete_ink_tmp (canvas a)) a)); auto.
      eapply annotated_truthy; [eapply getitem_lookup; eauto|reflexivity].
  - destruct (_drag_start a) as [[x0 y0]|]; [|exact Hc].
    match goal with
    | |- context [_add_highlight_rect _ _ _ _ ?s] => set (a1 := s)
    end.
    assert (H1 : doc a1 = doc a /\ state a1 = state a).
    { subst a1. now destruct (id_truthy _). }
    destruct H1 as [Hdoc Hstate].
    assert (Hc1 : consistent a1).
    { subst a1. cbn [_current_highlight_rect_id set_drag_start].
      destruct (_current_highlight_rect_id a) as [r|] eqn:Hr;
        cbn [id_truthy]; [|now apply (consistent_frame a)].
      destruct (negb (r =? 0)%Z); [|now apply (consistent_frame a)].
      apply (delete_consistent a _ (fun e => negb (fst e =? r)%Z)); auto.
      destruct Hc as (_ & H2 & _). destruct (H2 r Hr) as [_ Him].
      eapply Forall_weaken; [|exact Him]. intros e He Hi. cbn beta.
      destruct (Z.eqb_spec (fst e) r) as [Heq|]; [|reflexivity].
      now destruct (He Hi). }
    assert (Ht1 : doc_truthy a1 = true).
    { unfold doc_truthy in *. now rewrite Hdoc. }
    destruct (add_highlight_cases x0 y0 x y a1)
      as [Heq | (Hret & d & k & pg & an & Hd & Hg & Hr)];
      destruct (_add_highlight_rect x0 y0 x y a1) as [a' [|e]];
      cbn [fst snd] in *; try discriminate; subst a'; try exact Hc1.
    + apply (render_keeps a1); auto.
    + apply (render_keeps a1); auto.
      eapply annotated_truthy; [eapply getitem_lookup; eauto|reflexivity].
Qed.

Lemma save_as_consistent out_path (a : App) :
  consistent a -> consistent (fst (save_as fitz_save out_path a)).
Proof.
  intros Hc. unfold save_as.
  destruct (doc a) as [[|p d]|] eqn:Hd; destruct (pdf_path a);
    try (now apply (consistent_frame a)).
  destruct (negb (Py.truthy out_path)); [exact Hc|].
  destruct (fitz_save _ _ _) as [fs [e|]]; now apply (consistent_frame a).
Qed.

Lemma handle_consistent (a : App) (ev : event) :
  consistent a -> consistent (handle a ev).
Proof.
  intros Hc. destruct ev as [| |x y answer|x y|x y|t|z|z|file_path|out_path];
    cbn [PdfAnnotator.handle].
  - now apply nav_consistent.
  - now apply nav_consistent.
  - now apply mouse_down_consistent.
  - now apply mouse_drag_consistent.
  - now apply mouse_up_consistent.
  - now apply (consistent_frame a).
  - unfold _apply_zoom. destruct (doc_truthy _) eqn:Ht.
    + apply (render_keeps a); auto.
    + now apply (consistent_frame a).
  - now apply (consistent_frame a).
  - now apply open_consistent.
  - now apply save_as_consistent.
Qed.

Lemma init_consistent : consistent (@init content).
Proof.
  unfold consistent, shown_image, init. cbn. repeat split; try discriminate.
  constructor.
Qed.

Lemma play_consistent (evs : list event) : forall a : App,
  consistent a -> consistent (play a evs).
Proof.
  induction evs as [|ev evs IH]; intros a Hc; [exact Hc|].
  cbn [PdfAnnotator.play fold_left]. apply IH. now apply handle_consistent.
Qed.

(** X16: from the start of the program and whatever the events, as long
    as rendering a page does not fail: while a document with pages is
    open, the canvas shows the page the page index names, rendered at
    the zoom that canvas points are divided by, and the document has a
    page of that index. *)
Theorem canvas_shows_the_indexed_page (evs : list event) (d : Document) :
  let a := play init evs in
  doc a = Some d -> d <> [] ->
  shown_image a = Some (page_index (state a), zoom (state a))
  /\ (0 <= page_index (state a) < Z.of_nat (length d))%Z.
Proof.
  intros a Hd Hne.
  destruct (play_consistent evs init init_consistent) as (_ & _ & H3).
  now apply H3.
Qed.

Lemma reachable_getitem (evs : list event) :
  let a := play init evs in
  doc_truthy a = true ->
  exists d k pg,
    doc a = Some d /\ getitem d (page_index (state a)) = Some (k, pg).
Proof.
  intros a Ht.
  destruct (play_consistent evs init init_consistent) as (_ & _ & H3).
  fold a in H3. unfold doc_truthy in Ht.
  destruct (doc a) as [[|p d]|] eqn:Hd; try discriminate.
  destruct (H3 (p :: d) eq_refl ltac:(discriminate)) as [_ Hrange].
  destruct (getitem_in_range (p :: d) _ Hrange) as (pg & Hg & _).
  now exists (p :: d), (Z.to_nat (page_index (state a))), pg.
Qed.

(** X17: from the start of the program and whatever the events, as long
    as rendering a page does not fail, no press and no release of the
    mouse button raises IndexError: [doc[page_index]] always finds its
    page. *)
Theorem handlers_never_raise_IndexError (evs : list event)
        (x y : float) (answer : option string) :
  let a := play init evs in
  snd (on_mouse_down x y answer a) <> Raised IndexError
  /\ snd (on_mouse_up x y a) <> Raised IndexError.
Proof.
  intros a. pose proof (reachable_getitem evs) as Hreach. fold a in Hreach.
  cbv zeta in Hreach. split.
  - unfold on_mouse_down. destruct (doc_truthy a); [|discriminate].
    destruct (Hreach eq_refl) as (d & k & pg & Hd & Hg). cbn [negb].
    destruct (tool_ (state a)); try discriminate.
    destruct answer as [[|c s]|]; try discriminate.
    unfold _add_text_at_canvas_point. rewrite Hd.
    destruct d as [|p d]; [discriminate|]. rewrite Hg.
    destruct (_canvas_to_pdf a x y) as [[px py]|]; discriminate.
  - unfold PdfAnnotator.on_mouse_up. destruct (doc_truthy a); [|discriminate].
    destruct (Hreach eq_refl) as (d & k & pg & Hd & Hg). cbn [negb].
    destruct (tool_ (state a)); try discriminate.
    + unfold _finalize_draw_stroke. rewrite Hd.
      destruct d as [|p d]; [discriminate|].
      destruct (length (_current_stroke_points a) <? 2)%nat; [discriminate|].
      rewrite Hg. destruct (mapM _ _); discriminate.
    + destruct (_drag_start a) as [[x0 y0]|]; [|discriminate].
      match goal with
      | |- context [_add_highlight_rect _ _ _ _ ?s] => set (a1 := s)
      end.
      assert (H1 : doc a1 = doc a /\ state a1 = state a).
      { subst a1. now destruct (id_truthy _). }
      destruct H1 as [Hdoc Hstate].
      unfold PdfAnnotator._add_highlight_rect. rewrite Hdoc, Hstate, Hd.
      destruct d as [|p d]; [discriminate|]. rewrite Hg.
      destruct (Py.sorted PrimFloat.ltb [x0; x]) as [|l [|r [|? ?]]];
        try discriminate.
      destruct (Py.sorted PrimFloat.ltb [y0; y]) as [|t [|b [|? ?]]];
        try discriminate.
      destruct (_canvas_to_pdf a1 l t) as [[px0 py0]|]; [|discriminate].
      destruct (_canvas_to_pdf a1 r b) as [[px1 py1]|]; [|discriminate].
      destruct (marker_rect_ok _); discriminate.
Qed.

(** *** The text tool *)

Lemma mouse_down_text (a : App) d k pg x y text :
  doc a = Some d -> getitem d (page_index (state a)) = Some (k, pg) ->
  tool_ (state a) = TextTool -> text <> "" ->
  PrimFloat.eqb (zoom (state a)) 0 = false ->
  snd (on_mouse_down x y (Some text) a) = Returned
  /\ doc (fst (on_mouse_down x y (Some text) a))
     = Some (annotated d k pg
               (FreeText (text_rect (to_pdf (zoom (state a)) (x, y)))
                         text 12 "helv")).
Proof.
  intros Hd Hg Htool Htext Hz. unfold on_mouse_down, doc_truthy.
  rewrite Hd, Htool. pose proof (getitem_lookup _ _ _ _ Hg) as Hk.
  destruct d as [|p d]; [discriminate|]. cbn [negb].
  destruct text as [|c s]; [congruence|].
  unfold _add_text_at_canvas_point. rewrite Hd, Hg.
  rewrite (PdfAnnotatorSpec.canvas_to_pdf_nonzero a x y Hz).
  unfold to_pdf. cbn [fst snd]. split; [reflexivity|].
  rewrite PdfAnnotatorSpec.render_page_doc. cbn [doc set_doc].
  now rewrite (PdfAnnotatorSpec.add_annot_annotated _ _ _ _ Hk).
Qed.

(** X18: from the start of the program and whatever the events before,
    as long as rendering does not fail: when the canvas shows page [i]
    of the open document at a zoom [z] that is not zero and the text
    tool is chosen, a click at the canvas point (x, y) answered with a
    text that is not empty returns normally and puts one FreeText
    annotation at the end of those of page [i]: that text, in 12 point
    Helvetica, in the rectangle 250 wide and 40 high whose top left
    corner is (x / z, y / z).  A prompt that is cancelled or answered
    with the empty text leaves everything as it is. *)
Theorem text_click_annotates_shown_page (evs : list event) (d : Document)
        (i : Z) (z x y : float) (text : string) :
  let a := play init evs in
  doc a = Some d -> d <> [] ->
  shown_image a = Some (i, z) -> PrimFloat.eqb z 0 = false ->
  tool_ (state a) = TextTool -> text <> "" ->
  (exists pg,
     d !! Z.to_nat i = Some pg
     /\ snd (on_mouse_down x y (Some text) a) = Returned
     /\ doc (handle a (MouseDown x y (Some text)))
        = Some (annotated d (Z.to_nat i) pg
                  (FreeText (text_rect (to_pdf z (x, y))) text 12 "helv")))
  /\ on_mouse_down x y None a = (a, Returned)
  /\ on_mouse_down x y (Some "") a = (a, Returned).
Proof.
  intros a Hd Hne Hshown Hz Htool Htext.
  destruct (play_consistent evs init init_consistent) as (_ & _ & H3).
  fold a in H3. destruct (H3 d Hd Hne) as [Hs Hrange].
  rewrite Hs in Hshown. injection Hshown as <- <-.
  destruct (getitem_in_range d _ Hrange) as (pg & Hg & Hk).
  split; [|split].
  - exists pg. split; [exact Hk|].
    now apply mouse_down_text.
  - unfold on_mouse_down. rewrite Htool. now destruct (doc_truthy a).
  - unfold on_mouse_down. rewrite Htool. now destruct (doc_truthy a).
Qed.

(** *** Handlers that raise *)


Lemma mapM_canvas_to_pdf_zero (a : App) (pts : list point) :
  PrimFloat.eqb (zoom (state a)) 0 = true -> pts <> [] ->
  mapM (fun p => _canvas_to_pdf a (fst p) (snd p)) pts = None.
Proof.
  intros Hz Hne. destruct pts as [|[x y] pts]; [congruence|].
  cbn [mapM fst snd]. now rewrite (PdfAnnotatorSpec.canvas_to_pdf_zero a x y Hz).
Qed.

(** X20: with a zoom in effect that compares equal to zero, no tool
    annotates the page shown: a text click answered with a text, a
    release that ends a stroke of two or more points and a release that
    ends a highlight drag all raise ZeroDivisionError and leave the
    document as it is.  After the failed click or stroke the window is
    as before it, the recorded stroke included. *)
Theorem zero_zoom_blocks_annotation (a : App) d k pg (x y : float)
        (text : string) :
  showing a d k pg -> PrimFloat.eqb (zoom (state a)) 0 = true ->
  (tool_ (state a) = TextTool -> text <> "" ->
   on_mouse_down x y (Some text) a = (a, Raised ZeroDivisionError))
  /\ (tool_ (state a) = Draw ->
      (2 <= length (_current_stroke_points a))%nat ->
      on_mouse_up x y a = (a, Raised ZeroDivisionError))
  /\ (tool_ (state a) = Highlight -> _drag_start a <> None ->
      snd (on_mouse_up x y a) = Raised ZeroDivisionError
      /\ doc (fst (on_mouse_up x y a)) = doc a).
Proof.
  intros Hshow Hz. pose proof (PdfAnnotatorSpec.showing_truthy a d k pg Hshow)
    as Ht.
  destruct Hshow as (Hd & Hk & Hi).
  pose proof (PdfAnnotatorSpec.getitem_shown d k pg Hk) as Hg.
  rewrite <- Hi in Hg.
  assert (Hne : exists p0 d0, d = p0 :: d0).
  { destruct d as [|p0 d0]; [discriminate|]. eauto. }
  destruct Hne as (p0 & d0 & ->).
  split; [|split].
  - intros Htool Htext. unfold on_mouse_down. rewrite Ht, Htool. cbn [negb].
    destruct text as [|c s]; [congruence|].
    unfold _add_text_at_canvas_point. rewrite Hd, Hg.
    now rewrite (PdfAnnotatorSpec.canvas_to_pdf_zero a x y Hz).
  - intros Htool Hlen. unfold PdfAnnotator.on_mouse_up.
    rewrite Ht, Htool. cbn [negb].
    unfold _finalize_draw_stroke. rewrite Hd.
    destruct (Nat.ltb_spec (length (_current_stroke_points a)) 2); [lia|].
    rewrite Hg, mapM_canvas_to_pdf_zero; [reflexivity|exact Hz|].
    destruct (_current_stroke_points a); [cbn in Hlen; lia|discriminate].
  - intros Htool Hdrag. unfold PdfAnnotator.on_mouse_up.
    rewrite Ht, Htool. cbn [negb].
    destruct (_drag_start a) as [[x0 y0]|]; [|congruence].
    match goal with
    | |- context [_add_highlight_rect _ _ _ _ ?s] => set (a1 := s)
    end.
    assert (H1 : doc a1 = doc a /\ state a1 = state a).
    { subst a1. now destruct (id_truthy _). }
    destruct H1 as [Hdoc Hstate].
    assert (Hr : _add_highlight_rect x0 y0 x y a1
                 = (a1, Raised ZeroDivisionError)).
    { unfold PdfAnnotator._add_highlight_rect. rewrite Hdoc, Hstate, Hd, Hg.
      unfold Py.sorted. cbn [fold_left Py.insort].
      assert (Hz1 : PrimFloat.eqb (zoom (state a1)) 0 = true)
        by now rewrite Hstate.
      destruct (PrimFloat.ltb x x0), (PrimFloat.ltb y y0);
        now rewrite (PdfAnnotatorSpec.canvas_to_pdf_zero a1 _ _ Hz1). }
    rewrite Hr. cbn [fst snd]. now split.
Qed.

End AnnotatorMore.

Lemma document_changes_by_one_annotation_witness :
  (exists file_path,
     MouseDown 30 60 (Some "note") = OpenPdf file_path)
  \/ ((exists x y,
         MouseDown 30 60 (Some "note") = MouseUp x y
         /\ tool_ (state writing_app) <> TextTool)
      \/ exists x y text,
           MouseDown 30 60 (Some "note") = MouseDown x y (Some text)
           /\ text <> "" /\ tool_ (state writing_app) = TextTool)
     /\ exists d k pg an,
          doc writing_app = Some d
          /\ getitem d (page_index (state writing_app)) = Some (k, pg)
          /\ doc (handle sample_open sample_save any_rect writing_app
                         (MouseDown 30 60 (Some "note")))
             = Some (annotated d k pg an).
Proof.
  apply (document_changes_by_one_annotation sample_open sample_save any_rect
           writing_app (MouseDown 30 60 (Some "note"))).
  intros H. vm_compute in H. discriminate H.
Defined.

Lemma annotations_only_grow_witness :
  exists d',
    doc (play sample_open sample_save any_rect highlighting_app
              (gesture (10, 20)%float [(30, 40)%float] (50, 60)%float None))
    = Some d'
    /\ extends sample_doc d' /\ length d' = length sample_doc.
Proof.
  refine (annotations_only_grow sample_open sample_save any_rect
            (gesture (10, 20)%float [(30, 40)%float] (50, 60)%float None)
            highlighting_app _).
  repeat constructor; discriminate.
Defined.

Lemma canvas_shows_the_indexed_page_witness :
  let a := play sample_open sample_save any_rect init
                [OpenPdf "book.pdf"; Next; Next; Next; Prev] in
  shown_image a = Some (page_index (state a), zoom (state a))
  /\ (0 <= page_index (state a) < Z.of_nat (length sample_doc))%Z.
Proof.
  refine (canvas_shows_the_indexed_page sample_open sample_save any_rect
            [OpenPdf "book.pdf"; Next; Next; Next; Prev] sample_doc
            eq_refl _).
  discriminate.
Defined.

Lemma text_click_annotates_shown_page_witness :
  exists pg,
    sample_doc !! Z.to_nat 1 = Some pg
    /\ snd (on_mouse_down 30 60 (Some "note")
              (play sample_open sample_save any_rect init
                    [OpenPdf "book.pdf"; Next; SelectTool TextTool]))
       = Returned
    /\ doc (handle sample_open sample_save any_rect
              (play sample_open sample_save any_rect init
                    [OpenPdf "book.pdf"; Next; SelectTool TextTool])
              (MouseDown 30 60 (Some "note")))
       = Some (annotated sample_doc (Z.to_nat 1) pg
                 (FreeText (text_rect (to_pdf 1.5 (30, 60)%float)) "note" 12
                           "helv")).
Proof.
  refine (proj1 (text_click_annotates_shown_page sample_open sample_save
                   any_rect [OpenPdf "book.pdf"; Next; SelectTool TextTool]
                   sample_doc 1 1.5 30 60 "note"
                   eq_refl _ eq_refl eq_refl eq_refl _)); discriminate.
Defined.

Lemma zero_zoom_blocks_annotation_witness :
  on_mouse_down 30 60 (Some "note") unzoomed_app
  = (unzoomed_app, Raised ZeroDivisionError).
Proof.
  refine (proj1 (zero_zoom_blocks_annotation any_rect unzoomed_app sample_doc
                   0 blank_page 30 60 "note" _ eq_refl) eq_refl _).
  - repeat split.
  - discriminate.
Defined.

End PdfAnnotatorMore.
